(** * mapaClientes: the address-resolution and reconciliation pipeline

    A shallow embedding of the JavaScript sources of the repository
    (geocode.js, odoo.js and the revisions of sync.js) together with the
    properties stated about them.

    Conventions of the embedding:
    - a JavaScript string is the list of its UTF-16 code units;
    - a value that may be [null], [undefined] or [false] is an [option];
    - asynchronous, stateful and throwing code lives in the monad [M], a
      state monad over the [world] (network request counter, accumulated
      sleeps and the relational store) whose results are [Return v] or
      [Throw e];
    - collaborators that the repository does not define, namely the Unicode
      tables behind [toLowerCase], [toUpperCase] and [normalize("NFD")],
      the replies of the remote services and the collation of the store,
      are parameters;
    - the statements sent to the store are given twice: in [Sync] with
      the effect they have when the store accepts them, and in [SyncDb]
      as queries that the store can also reject, which is where the
      failures of the store and the types of its columns are. *)

From Stdlib Require Import List NArith ZArith Bool Arith Lia.
From Stdlib Require Import Strings.String Strings.Ascii.
From Stdlib Require DecimalString.
Import ListNotations.

Set Implicit Arguments.
Unset Strict Implicit.

(** ** JavaScript strings *)

Module JS.

Local Open Scope N_scope.

Definition cu := N.
Definition jsstring := list cu.

(** A literal of ASCII characters. *)
Definition lit (s : string) : jsstring :=
  map N_of_ascii (list_ascii_of_string s).

Definition cu_eqb (a b : cu) : bool := N.eqb a b.

Fixpoint str_eqb (a b : jsstring) : bool :=
  match a, b with
  | [], [] => true
  | x :: a', y :: b' => cu_eqb x y && str_eqb a' b'
  | _, _ => false
  end.

(** Truthiness of a string: only the empty string is falsy. *)
Definition truthy (s : jsstring) : bool :=
  match s with [] => false | _ :: _ => true end.

(** [String(x || empty)], for a value that is a string or
    null/undefined/false. *)
Definition orEmpty (x : option jsstring) : jsstring :=
  match x with Some s => s | None => [] end.

(** [x || d] on such a value. *)
Definition orElse (x : option jsstring) (d : jsstring) : jsstring :=
  match x with
  | Some s => if truthy s then s else d
  | None => d
  end.

(** [a || b] where both sides may be absent. *)
Definition orOpt (x y : option jsstring) : option jsstring :=
  match x with
  | Some s => if truthy s then Some s else y
  | None => y
  end.

Definition inRange (lo hi c : cu) : bool := (N.leb lo c && N.leb c hi)%bool.

(** The class [\s]: WhiteSpace and LineTerminator of ECMAScript. It is also
    the set that [trim] strips. *)
Definition isSpace (c : cu) : bool :=
  inRange 9 13 c || cu_eqb c 32 || cu_eqb c 160 || cu_eqb c 5760
  || inRange 8192 8202 c || cu_eqb c 8232 || cu_eqb c 8233
  || cu_eqb c 8239 || cu_eqb c 8287 || cu_eqb c 12288 || cu_eqb c 65279.

(** The class [[0-9]], which is also [\d]. *)
Definition isDigit (c : cu) : bool := inRange 48 57 c.
Definition isUpperAZ (c : cu) : bool := inRange 65 90 c.
Definition isLowerAZ (c : cu) : bool := inRange 97 122 c.

(** The class [.] without the s flag: everything but a line terminator. *)
Definition isLineTerminator (c : cu) : bool :=
  cu_eqb c 10 || cu_eqb c 13 || cu_eqb c 8232 || cu_eqb c 8233.

Fixpoint dropWhile (p : cu -> bool) (s : jsstring) : jsstring :=
  match s with
  | [] => []
  | c :: t => if p c then dropWhile p t else s
  end.

Definition trimStart (s : jsstring) : jsstring := dropWhile isSpace s.
Definition trimEnd (s : jsstring) : jsstring := rev (dropWhile isSpace (rev s)).
Definition trim (s : jsstring) : jsstring := trimEnd (trimStart s).

Fixpoint startsWith (p s : jsstring) : bool :=
  match p, s with
  | [], _ => true
  | _ :: _, [] => false
  | x :: p', y :: s' => cu_eqb x y && startsWith p' s'
  end.

(** [s.includes(sub)] *)
Fixpoint includes (s sub : jsstring) : bool :=
  startsWith sub s ||
  match s with
  | [] => false
  | _ :: t => includes t sub
  end.

(** [s.includes(",")] and the like, for one code unit. *)
Definition includesCu (s : jsstring) (c : cu) : bool := existsb (cu_eqb c) s.

(** [arr.includes(x)] on an array of strings. *)
Definition memStr (x : jsstring) (l : list jsstring) : bool :=
  existsb (str_eqb x) l.

(** [s.replace(/\s+/g, " ")]: every maximal run of white space becomes one
    space. [inRun] tells that the previous code unit was white space. *)
Fixpoint collapseFrom (inRun : bool) (s : jsstring) : jsstring :=
  match s with
  | [] => []
  | c :: t =>
      if isSpace c
      then (if inRun then collapseFrom true t else 32 :: collapseFrom true t)
      else c :: collapseFrom false t
  end.
Definition collapseSpaces (s : jsstring) : jsstring := collapseFrom false s.

(** [s.replace(/C/g, empty)] for a class [C] of single code units. *)
Definition removeAll (p : cu -> bool) (s : jsstring) : jsstring :=
  filter (fun c => negb (p c)) s.

(** [s.split(/[C]+/)] for a class [C]: the pieces between maximal runs of
    separators; a separator at either end yields an empty piece there.
    [cur] is the current piece, reversed. *)
Fixpoint splitRunsFrom (p : cu -> bool) (inSep : bool) (cur : jsstring)
    (s : jsstring) : list jsstring :=
  match s with
  | [] => [rev cur]
  | c :: t =>
      if p c
      then (if inSep then splitRunsFrom p true cur t
            else rev cur :: splitRunsFrom p true [] t)
      else splitRunsFrom p false (c :: cur) t
  end.
Definition splitRuns (p : cu -> bool) (s : jsstring) : list jsstring :=
  splitRunsFrom p false [] s.

(** [s.split(c)] for a separator of one code unit. *)
Fixpoint splitCuFrom (sep : cu) (cur : jsstring) (s : jsstring) : list jsstring :=
  match s with
  | [] => [rev cur]
  | c :: t =>
      if cu_eqb c sep then rev cur :: splitCuFrom sep [] t
      else splitCuFrom sep (c :: cur) t
  end.
Definition splitCu (sep : cu) (s : jsstring) : list jsstring :=
  splitCuFrom sep [] s.

(** [arr.join(sep)] *)
Fixpoint join (sep : jsstring) (l : list jsstring) : jsstring :=
  match l with
  | [] => []
  | [x] => x
  | x :: t => x ++ sep ++ join sep t
  end.

(** [arr.filter(Boolean)] on an array of strings, null and undefined. *)
Fixpoint filterBoolean (l : list (option jsstring)) : list jsstring :=
  match l with
  | [] => []
  | Some s :: t => if truthy s then s :: filterBoolean t else filterBoolean t
  | None :: t => filterBoolean t
  end.

(** [[...new Set(arr)]]: the first occurrence of each string, in order. *)
Fixpoint uniqFrom (seen : list jsstring) (l : list jsstring) : list jsstring :=
  match l with
  | [] => []
  | x :: t => if memStr x seen then uniqFrom seen t else x :: uniqFrom (x :: seen) t
  end.
Definition uniq (l : list jsstring) : list jsstring := uniqFrom [] l.

(** [parseInt(s, 10)] on a string of decimal digits (exact while the value
    is below 2^53; a larger quantity does not fit the INT column it is
    meant for, see [SyncDb.fitsInt]). *)
Definition parseDigits (s : jsstring) : Z :=
  fold_left (fun acc c => (acc * 10 + Z.of_N (c - 48))%Z) s 0%Z.

(** The decimal numeral of a natural number, as template literals print it. *)
Definition decimal (n : N) : jsstring :=
  lit (DecimalString.NilZero.string_of_uint (N.to_uint n)).

(** The String built-ins that depend on the Unicode character database.
    The repository does not define them; the development is parametric in
    them. *)
Class Unicode := {
  toLowerCase : jsstring -> jsstring;
  toUpperCase : jsstring -> jsstring;
  normalizeNFD : jsstring -> jsstring
}.

Definition lowerCu (c : cu) : cu := if isUpperAZ c then (c + 32) else c.
Definition upperCu (c : cu) : cu := if isLowerAZ c then (c - 32) else c.

(** The built-ins restricted to ASCII: on a string whose code units are all
    below 128 they agree with the JavaScript ones. Used to evaluate the
    code on concrete ASCII inputs. *)
Definition asciiUnicode : Unicode := {|
  toLowerCase := map lowerCu;
  toUpperCase := map upperCu;
  normalizeNFD := fun s => s
|}.

End JS.

(** ** A backtracking matcher for the regular expressions of sync.js

    The fragment of ECMAScript regular expressions that the equipment
    parser uses: classes of one code unit, concatenation, greedy and lazy
    quantifiers with a lower bound of zero, capture groups and the two
    anchors (no m flag). The matcher follows the continuation semantics of
    the language specification: a quantifier iteration that consumes
    nothing is rejected, and the captures inside a quantified group are
    reset when an iteration starts. The i flag is rendered by writing both
    cases in the class predicates. *)

Module Regex.
Import JS.

Inductive regex : Type :=
| Empty
| Class (p : cu -> bool)
| Cat (r1 r2 : regex)
| Rep (greedy : bool) (max : option nat) (r : regex)
| Cap (i : nat) (r : regex)
| Bol
| Eol.

Definition Star (r : regex) : regex := Rep true None r.
Definition LazyStar (r : regex) : regex := Rep false None r.
Definition Plus (r : regex) : regex := Cat r (Star r).
Definition Opt (r : regex) : regex := Rep true (Some 1%nat) r.
Definition Chr (c : cu) : regex := Class (cu_eqb c).
Fixpoint Times (n : nat) (r : regex) : regex :=
  match n with
  | O => Empty
  | S n' => Cat r (Times n' r)
  end.

(** The state of a match in progress: the input still to read, the index
    reached, and the captures so far. *)
Record mstate := {
  rest : jsstring;
  pos : nat;
  caps : list (nat * jsstring)
}.

Fixpoint groups (r : regex) : list nat :=
  match r with
  | Cat a b => groups a ++ groups b
  | Rep _ _ a => groups a
  | Cap i a => i :: groups a
  | _ => []
  end.

Definition clearCaps (gs : list nat) (st : mstate) : mstate :=
  {| rest := rest st; pos := pos st;
     caps := filter (fun c => negb (existsb (Nat.eqb (fst c)) gs)) (caps st) |}.

Definition setCap (i : nat) (from to : mstate) : mstate :=
  {| rest := rest to; pos := pos to;
     caps := (i, firstn (pos to - pos from) (rest from))
             :: filter (fun c => negb (Nat.eqb (fst c) i)) (caps to) |}.

Definition exhausted (max : option nat) : bool :=
  match max with Some O => true | _ => false end.

Definition decr (max : option nat) : option nat :=
  match max with Some n => Some (Nat.pred n) | None => None end.

Fixpoint run (r : regex) (st : mstate) (k : mstate -> option mstate)
    {struct r} : option mstate :=
  match r with
  | Empty => k st
  | Class p =>
      match rest st with
      | c :: t =>
          if p c then k {| rest := t; pos := S (pos st); caps := caps st |}
          else None
      | [] => None
      end
  | Cat a b => run a st (fun st' => run b st' k)
  | Cap i a => run a st (fun st' => k (setCap i st st'))
  | Bol => if Nat.eqb (pos st) 0 then k st else None
  | Eol => match rest st with [] => k st | _ :: _ => None end
  | Rep greedy max a =>
      (fix loop (fuel : nat) (max : option nat) (st : mstate) {struct fuel}
         : option mstate :=
         match fuel with
         | O => k st
         | S fuel' =>
             if exhausted max then k st
             else if greedy then
               match run a (clearCaps (groups a) st)
                       (fun st' => if Nat.eqb (pos st') (pos st) then None
                                   else loop fuel' (decr max) st') with
               | Some res => Some res
               | None => k st
               end
             else
               match k st with
               | Some res => Some res
               | None =>
                   run a (clearCaps (groups a) st)
                     (fun st' => if Nat.eqb (pos st') (pos st) then None
                                 else loop fuel' (decr max) st')
               end
         end) (S (List.length (rest st))) max st
  end.

(** The result of [exec]: where the match starts, the text before it, the
    text after it, and the captures. *)
Record found := {
  index : nat;
  before : jsstring;
  after : jsstring;
  captures : list (nat * jsstring)
}.

(** [re.exec(s)] for a regular expression without the g and y flags: the
    first start index, from the left, at which the pattern matches. [pre]
    is the input already skipped, reversed. *)
Fixpoint execFrom (r : regex) (pre : jsstring) (i : nat) (s : jsstring)
    : option found :=
  match run r {| rest := s; pos := i; caps := [] |} Some with
  | Some st =>
      Some {| index := i; before := rev pre; after := rest st;
              captures := caps st |}
  | None =>
      match s with
      | [] => None
      | c :: t => execFrom r (c :: pre) (S i) t
      end
  end.
Definition exec (r : regex) (s : jsstring) : option found := execFrom r [] 0 s.

(** [m[i]] of a match: [None] stands for undefined. *)
Definition group (i : nat) (m : found) : option jsstring :=
  match find (fun c => Nat.eqb (fst c) i) (captures m) with
  | Some c => Some (snd c)
  | None => None
  end.

(** [s.replace(re, empty)] without the g flag: the first match is removed. *)
Definition removeFirst (r : regex) (s : jsstring) : jsstring :=
  match exec r s with
  | Some m => before m ++ after m
  | None => s
  end.

End Regex.

(** ** The world, and the monad of asynchronous code *)

Module World.
Import JS.

(** A thrown value: the fields of an Error that the code inspects. *)
Record error := {
  err_name : option jsstring;
  err_code : option jsstring;
  err_message : option jsstring
}.

(** Coordinates, in degrees scaled by 10^7. *)
Definition coord := Z.

(** A partner of the CRM, with the fields that sync.js reads. A field that
    Odoo leaves empty arrives as [false] and is [None] here. *)
Record partner := {
  p_id : Z;
  p_name : option jsstring;
  p_display_name : option jsstring;
  p_street : option jsstring;
  p_street2 : option jsstring;
  p_zip : option jsstring;
  p_city : option jsstring;
  p_bairro : option jsstring;
  p_numero : option jsstring;
  p_state_id : option (Z * jsstring);
  p_country_id : option (Z * jsstring);
  p_state_code : option jsstring;
  p_l10n_br_state_code : option jsstring;
  p_phone : option jsstring;
  p_mobile : option jsstring;
  p_email : option jsstring;
  p_website : option jsstring
}.

(** A row of table [clientes]; [id_odoo] is its unique key. *)
Record cliente := {
  c_id : Z;
  c_id_odoo : Z;
  c_nome : option jsstring;
  c_telefone : jsstring;
  c_celular : jsstring;
  c_email : jsstring;
  c_site : jsstring;
  c_logradouro : jsstring;
  c_numero : jsstring;
  c_complemento : jsstring;
  c_bairro : jsstring;
  c_cidade : jsstring;
  c_estado : option jsstring;
  c_cep : jsstring;
  c_pais : jsstring;
  c_endereco_completo : option jsstring;
  c_latitude : option coord;
  c_longitude : option coord
}.

(** A row of table [equipamentos], without its surrogate key, which no code
    reads. The pair (cliente_id, nome) is a unique key. *)
Record equipamento := {
  e_cliente_id : Z;
  e_nome : jsstring;
  e_quantidade : option Z
}.

(** The single row (id = 1) of table [sync_state]. Times are in seconds. *)
Record sync_row := {
  last_odoo_id : option Z;
  last_entry_name : option jsstring;
  paused_since : option Z;
  paused_reason : option jsstring
}.

Record world := {
  clock : Z;                       (* milliseconds *)
  requests : nat;                  (* HTTP requests issued so far *)
  clientes : list cliente;
  next_cliente_id : Z;             (* AUTO_INCREMENT of clientes *)
  equipamentos : list equipamento;
  sync_state : option sync_row;
  clearedPauseOnStartup : bool     (* the module-level flag of sync.js *)
}.

Definition set_clock (f : Z -> Z) (w : world) : world :=
  {| clock := f (clock w); requests := requests w; clientes := clientes w;
     next_cliente_id := next_cliente_id w; equipamentos := equipamentos w;
     sync_state := sync_state w;
     clearedPauseOnStartup := clearedPauseOnStartup w |}.

Definition set_requests (f : nat -> nat) (w : world) : world :=
  {| clock := clock w; requests := f (requests w); clientes := clientes w;
     next_cliente_id := next_cliente_id w; equipamentos := equipamentos w;
     sync_state := sync_state w;
     clearedPauseOnStartup := clearedPauseOnStartup w |}.

Definition set_clientes (cs : list cliente) (next : Z) (w : world) : world :=
  {| clock := clock w; requests := requests w; clientes := cs;
     next_cliente_id := next; equipamentos := equipamentos w;
     sync_state := sync_state w;
     clearedPauseOnStartup := clearedPauseOnStartup w |}.

Definition set_equipamentos (es : list equipamento) (w : world) : world :=
  {| clock := clock w; requests := requests w; clientes := clientes w;
     next_cliente_id := next_cliente_id w; equipamentos := es;
     sync_state := sync_state w;
     clearedPauseOnStartup := clearedPauseOnStartup w |}.

Definition set_sync_state (s : option sync_row) (w : world) : world :=
  {| clock := clock w; requests := requests w; clientes := clientes w;
     next_cliente_id := next_cliente_id w; equipamentos := equipamentos w;
     sync_state := s;
     clearedPauseOnStartup := clearedPauseOnStartup w |}.

Definition set_cleared (b : bool) (w : world) : world :=
  {| clock := clock w; requests := requests w; clientes := clientes w;
     next_cliente_id := next_cliente_id w; equipamentos := equipamentos w;
     sync_state := sync_state w;
     clearedPauseOnStartup := b |}.

(** The result of awaiting a promise. *)
Inductive outcome (A : Type) : Type :=
| Return (a : A)
| Throw (e : error).
Arguments Return {A} a.
Arguments Throw {A} e.

Definition M (A : Type) : Type := world -> outcome A * world.

Definition ret {A} (a : A) : M A := fun w => (Return a, w).
Definition throw {A} (e : error) : M A := fun w => (Throw e, w).
Definition bind {A B} (m : M A) (f : A -> M B) : M B :=
  fun w =>
    match m w with
    | (Return a, w') => f a w'
    | (Throw e, w') => (Throw e, w')
    end.

(** [try { body } catch (err) { handler }] *)
Definition tryCatch {A} (body : M A) (handler : error -> M A) : M A :=
  fun w =>
    match body w with
    | (Return a, w') => (Return a, w')
    | (Throw e, w') => handler e w'
    end.

(** [await sleep(ms)] *)
Definition sleep (ms : Z) : M unit :=
  fun w => (Return tt, set_clock (fun t => (t + ms)%Z) w).

(** [NOW()] of the store, in seconds. *)
Definition now (w : world) : Z := (clock w / 1000)%Z.

Declare Scope monad_scope.
Delimit Scope monad_scope with monad.
Notation "x <- m ;; k" := (bind m (fun x => k))
  (at level 61, m at next level, right associativity) : monad_scope.
Notation "m ;;; k" := (bind m (fun _ => k))
  (at level 61, right associativity) : monad_scope.

(** *** The remote services *)

Inductive request : Type :=
| GetViaCep (cepLimpo : jsstring)
| GetGoogle (address : jsstring)
| GetNominatim (base query : jsstring).

(** The body of a reply, after JSON decoding; [OtherData] is a missing or
    empty body. *)
Inductive payload : Type :=
| ViaCepData (erro : bool) (logradouro bairro localidade uf : option jsstring)
| GoogleData (results : list (coord * coord))
| ArrayData (items : list (coord * coord))
| OtherData.

Record response := { status : Z; data : payload }.

(** What the transport delivers: a response with a status, or a fault. *)
Inductive reply : Type :=
| Response (r : response)
| Failure (e : error).

(** The network: the reply to the n-th request issued since the process
    started. *)
Definition network := nat -> request -> reply.

End World.

(** ** geocode.js (the revision with [nominatimSearch]) *)

Module Geocode.
Import JS World.
Local Open Scope N_scope.
Local Open Scope monad_scope.

Record geo_normalized := {
  n_uf : option jsstring;
  n_estado : option jsstring;
  n_state : option jsstring;
  n_state_code : option jsstring;
  n_cep : option jsstring
}.

Record geo := {
  lat : coord;
  lng : coord;
  normalized : option geo_normalized
}.

Definition NOMINATIM_HOSTS : list jsstring :=
  [lit "https://nominatim.openstreetmap.org"].

Definition BASE_DELAY_MS : Z := 3000.

(** [s.replace(/,\s*,/g, ",")]: a comma, white space and a comma become one
    comma; the scan resumes after the second comma. [pending] holds the
    white space read after a comma, reversed. *)
Fixpoint squeezeCommas (pending : option jsstring) (s : jsstring) : jsstring :=
  match s with
  | [] =>
      match pending with
      | Some buf => 44 :: rev buf
      | None => []
      end
  | c :: t =>
      match pending with
      | None =>
          if cu_eqb c 44 then squeezeCommas (Some []) t
          else c :: squeezeCommas None t
      | Some buf =>
          if cu_eqb c 44 then 44 :: squeezeCommas None t
          else if isSpace c then squeezeCommas (Some (c :: buf)) t
          else 44 :: rev buf ++ c :: squeezeCommas None t
      end
  end.

Section WithEnvironment.

Context {U : Unicode}.

(** The replies of the remote services. *)
Variable net : network.

(** The error axios raises for a response whose status its
    [validateStatus] rejects. *)
Variable statusError : response -> error.

(** [process.env.GOOGLE_MAPS_KEY] *)
Variable GOOGLE_KEY : option jsstring.

Definition isRetryableNetworkError (err : error) : bool :=
  let code := err_code err in
  let msg := toLowerCase (orEmpty (err_message err)) in
  match code with
  | Some c =>
      str_eqb c (lit "ECONNRESET") || str_eqb c (lit "ECONNABORTED")
      || str_eqb c (lit "ETIMEDOUT")
  | None => false
  end
  || includes msg (lit "socket hang up")
  || includes msg (lit "timeout")
  || includes msg (lit "network").

(** [axios.get(url, config)]: the request is numbered, the transport fault
    is thrown, and so is a response that [validateStatus] rejects. *)
Definition axiosGet (validateStatus : Z -> bool) (req : request) : M response :=
  fun w =>
    let w' := set_requests S w in
    match net (requests w) req with
    | Failure e => (Throw e, w')
    | Response r =>
        if validateStatus (status r) then (Return r, w')
        else (Throw (statusError r), w')
    end.

(** The default [validateStatus] of axios. *)
Definition validateDefault (s : Z) : bool := (200 <=? s)%Z && (s <? 300)%Z.

(** [validateStatus] of the [axiosNominatim] instance. *)
Definition validateNominatim (s : Z) : bool := (200 <=? s)%Z && (s <? 500)%Z.

(** The exit of one iteration of a retry loop. *)
Inductive step (A : Type) : Type :=
| Done (a : A)        (* return a *)
| Continue            (* continue *)
| Break.              (* break *)
Arguments Done {A} a.
Arguments Continue {A}.
Arguments Break {A}.

(** The loop of [viaCepGet]; [i] is the loop counter and [left] the number
    of iterations that remain. [None] is the [null] after the loop. *)
Fixpoint viaCepLoop (cepLimpo : jsstring) (left : nat) (i : Z)
    : M (option response) :=
  match left with
  | O => ret None
  | S left' =>
      r <- tryCatch
             (sleep (800 * (i + 1)) ;;;
              res <- axiosGet validateDefault (GetViaCep cepLimpo) ;;
              ret (Done res))
             (fun err =>
                if isRetryableNetworkError err
                then sleep (2000 * (i + 1)) ;;; ret Continue
                else throw err) ;;
      match r with
      | Done res => ret (Some res)
      | _ => viaCepLoop cepLimpo left' (i + 1)
      end
  end.

Definition viaCepGet (cepLimpo : jsstring) : M (option response) :=
  viaCepLoop cepLimpo 3 0.

Definition isArray (d : payload) : bool :=
  match d with ArrayData _ => true | _ => false end.

(** The inner loop of [nominatimSearch] for one host. [Some res] is the
    [return res] inside the loop; [None] means that the loop ended, by
    exhaustion or by [break]. *)
Fixpoint nominatimAttempts (base query : jsstring) (left : nat) (i : Z)
    : M (option response) :=
  match left with
  | O => ret None
  | S left' =>
      sleep BASE_DELAY_MS ;;;
      r <- tryCatch
             (res <- axiosGet validateNominatim (GetNominatim base query) ;;
              if Z.eqb (status res) 200 && isArray (data res)
              then ret (Done res)
              else if Z.eqb (status res) 429 || Z.eqb (status res) 503
              then sleep (4000 * (i + 1)) ;;; ret Continue
              else ret Break)
             (fun err =>
                if isRetryableNetworkError err
                then sleep (4000 * (i + 1)) ;;; ret Continue
                else ret Break) ;;
      match r with
      | Done res => ret (Some res)
      | Continue => nominatimAttempts base query left' (i + 1)
      | Break => ret None
      end
  end.

Fixpoint nominatimHosts (hosts : list jsstring) (query : jsstring) (tries : nat)
    : M (option response) :=
  match hosts with
  | [] => ret None
  | base :: hosts' =>
      r <- nominatimAttempts base query tries 0 ;;
      match r with
      | Some res => ret (Some res)
      | None => nominatimHosts hosts' query tries
      end
  end.

Definition nominatimSearch (query : jsstring) : M (option response) :=
  nominatimHosts NOMINATIM_HOSTS query 4.

(** [res?.data?.length > 0], then the first element. *)
Definition firstPlace (res : option response) : option (coord * coord) :=
  match res with
  | Some r =>
      match data r with
      | ArrayData (x :: _) => Some x
      | _ => None
      end
  | None => None
  end.

Definition viaField (f : payload -> option jsstring) (d : payload) : jsstring :=
  orElse (f d) [].

(** Truthiness of [via?.data]. [OtherData] stands for a reply without a
    body or with an empty one; a body that is not empty and is not a
    registry record reads as a record without fields. *)
Definition hasData (d : payload) : bool :=
  match d with OtherData => false | _ => true end.

Definition v_erro (d : payload) : bool :=
  match d with ViaCepData e _ _ _ _ => e | _ => false end.
Definition v_logradouro (d : payload) : option jsstring :=
  match d with ViaCepData _ x _ _ _ => x | _ => None end.
Definition v_bairro (d : payload) : option jsstring :=
  match d with ViaCepData _ _ x _ _ => x | _ => None end.
Definition v_localidade (d : payload) : option jsstring :=
  match d with ViaCepData _ _ _ x _ => x | _ => None end.
Definition v_uf (d : payload) : option jsstring :=
  match d with ViaCepData _ _ _ _ x => x | _ => None end.

Definition enderecoViaCep (d : payload) : jsstring :=
  let sep := lit ", " in
  let raw := viaField v_logradouro d ++ sep ++ viaField v_bairro d ++ sep
             ++ viaField v_localidade d ++ sep ++ viaField v_uf d ++ sep
             ++ lit "Brasil" in
  trim (squeezeCommas None (collapseSpaces raw)).

(** Steps 1 to 3 of [geocode]: [Some g] is a [return] from inside the
    postal-code branch, [None] falls through to the free-text fallback. *)
Definition viaCepBranch (cep : jsstring) : M (option geo) :=
  if truthy cep && Nat.eqb (List.length (removeAll (fun c => negb (isDigit c)) cep)) 8
  then
    let cepLimpo := removeAll (fun c => negb (isDigit c)) cep in
    via <- viaCepGet cepLimpo ;;
    match via with
    | Some v =>
        if hasData (data v) && negb (v_erro (data v)) then
          let endereco := enderecoViaCep (data v) in
          g <- (match GOOGLE_KEY with
                | Some key =>
                    if truthy key then
                      gRes <- axiosGet validateDefault (GetGoogle endereco) ;;
                      match data gRes with
                      | GoogleData (loc :: _) => ret (Some loc)
                      | _ => ret None
                      end
                    else ret None
                | None => ret None
                end) ;;
          match g with
          | Some loc =>
              ret (Some {| lat := fst loc; lng := snd loc; normalized := None |})
          | None =>
              nRes <- nominatimSearch endereco ;;
              match firstPlace nRes with
              | Some pl =>
                  ret (Some {| lat := fst pl; lng := snd pl; normalized := None |})
              | None => ret None
              end
          end
        else ret None
    | None => ret None
    end
  else ret None.

Definition geocodeBody (endereco cep : jsstring) : M (option geo) :=
  sleep 1500 ;;;
  early <- viaCepBranch cep ;;
  match early with
  | Some g => ret (Some g)
  | None =>
      if negb (truthy endereco) || Nat.ltb (List.length (trim endereco)) 8
      then ret None
      else
        sleep 1500 ;;;
        fRes <- nominatimSearch endereco ;;
        match firstPlace fRes with
        | Some pl =>
            ret (Some {| lat := fst pl; lng := snd pl; normalized := None |})
        | None => ret None
        end
  end.

(** [geocode(endereco, cep)]: the whole body sits in a try whose catch logs
    the error and returns null. *)
Definition geocode (endereco cep : jsstring) : M (option geo) :=
  tryCatch (geocodeBody endereco cep) (fun _ => ret None).

End WithEnvironment.

End Geocode.

(** ** odoo.js: names and the spreadsheet reader *)

Module Odoo.
Import JS World.
Local Open Scope N_scope.

(** An entry of the roster read from the spreadsheet. *)
Record entry := { name : jsstring; equipment : jsstring }.

(** The class of combining marks, U+0300 to U+036F. *)
Definition isCombining (c : cu) : bool := inRange 768 879 c.

(** The separators of an equipment text: [;], [,], newline and [|]. *)
Definition isSep (c : cu) : bool :=
  cu_eqb c 59 || cu_eqb c 44 || cu_eqb c 10 || cu_eqb c 124.

Section WithUnicode.

Context {U : Unicode}.

Definition stripAccents (s : option jsstring) : jsstring :=
  trim (removeAll isCombining (normalizeNFD (orEmpty s))).

Definition normalizeName (s : option jsstring) : jsstring :=
  toLowerCase (trim (collapseSpaces (stripAccents s))).

Definition nameCandidates (original : option jsstring) : list jsstring :=
  let raw := trim (orEmpty original) in
  if negb (truthy raw) then []
  else
    uniq (raw ::
          (if includesCu raw 44
           then firstn 2 (filter truthy (map trim (splitCu 44 raw)))
           else [])).

(** A row of [sheet_to_json]: the cells by column header, each already
    converted to a string. *)
Definition row := list (jsstring * jsstring).

Definition cell (r : row) (key : jsstring) : jsstring :=
  match find (fun kv => str_eqb (fst kv) key) r with
  | Some kv => snd kv
  | None => []
  end.

Definition mergeEquipment (a b : jsstring) : jsstring :=
  if negb (truthy a) && negb (truthy b) then []
  else
    let parts := (if truthy a then splitRuns isSep a else [])
                 ++ (if truthy b then splitRuns isSep b else []) in
    let s := filter truthy (map trim parts) in
    join (lit "; ") (uniq s).

(** The variables of the row loop of [readCustomersFromXlsx]; [seen] is
    the Map from a name to its index in [customers], newest binding
    first. *)
Record reader := {
  lastCustomer : jsstring;
  lastEquipment : jsstring;
  customers : list entry;
  seen : list (jsstring * nat)
}.

Definition seenGet (nm : jsstring) (m : list (jsstring * nat)) : option nat :=
  match find (fun kv => str_eqb (fst kv) nm) m with
  | Some kv => Some (snd kv)
  | None => None
  end.

(** [customers[idx].equipment = f(customers[idx].equipment)] *)
Fixpoint updateEquipment (idx : nat) (f : jsstring -> jsstring)
    (l : list entry) : list entry :=
  match l, idx with
  | [], _ => []
  | e :: t, O => {| name := name e; equipment := f (equipment e) |} :: t
  | e :: t, S i => e :: updateEquipment i f t
  end.

(** One iteration of [for (const row of rows)]. *)
Definition readRow (customerKey : jsstring) (equipmentKey : option jsstring)
    (st : reader) (r : row) : reader :=
  let name0 := trim (cell r customerKey) in
  let equip0 := match equipmentKey with
                | Some k => trim (cell r k)
                | None => []
                end in
  let nm := if truthy name0 then name0 else lastCustomer st in
  let lastC := if truthy nm then nm else lastCustomer st in
  let equip := if truthy equip0 then equip0 else lastEquipment st in
  let lastE := if truthy equip then equip else lastEquipment st in
  if negb (truthy nm) then
    {| lastCustomer := lastC; lastEquipment := lastE;
       customers := customers st; seen := seen st |}
  else
    match seenGet nm (seen st) with
    | Some idx =>
        {| lastCustomer := lastC; lastEquipment := lastE;
           customers :=
             updateEquipment idx (fun old => mergeEquipment old equip)
               (customers st);
           seen := seen st |}
    | None =>
        {| lastCustomer := lastC; lastEquipment := lastE;
           customers := customers st ++ [{| name := nm; equipment := equip |}];
           seen := (nm, List.length (customers st)) :: seen st |}
    end.

Definition readRows (customerKey : jsstring) (equipmentKey : option jsstring)
    (rows : list row) : reader :=
  fold_left (readRow customerKey equipmentKey) rows
    {| lastCustomer := []; lastEquipment := []; customers := []; seen := [] |}.

(** [keys.find(...)]; the tests made on its result take the empty key for
    no key. *)
Definition findKey (keys : list jsstring) (column : jsstring) : option jsstring :=
  match find (fun k => str_eqb (toLowerCase (trim k)) (toLowerCase column)) keys with
  | Some k => if truthy k then Some k else None
  | None => None
  end.

(** [readCustomersFromXlsx]. The workbook is read by the xlsx library;
    [worksheet] is the chosen sheet as [sheet_to_json] returns it, or [None]
    when the workbook has no such sheet. The messages of the two errors are
    written here without their diacritics and quotation marks. *)
Definition readCustomersFromXlsx (worksheet : option (list row))
    (customerColumn equipmentColumn : jsstring) : outcome (list entry) :=
  match worksheet with
  | None =>
      Throw {| err_name := Some (lit "Error"); err_code := None;
               err_message := Some (lit "Aba da planilha nao encontrada") |}
  | Some rows =>
      match rows with
      | [] => Return []
      | first :: _ =>
          let keys := map fst first in
          match findKey keys customerColumn with
          | None =>
              Throw {| err_name := Some (lit "Error"); err_code := None;
                       err_message :=
                         Some (lit "Coluna nao encontrada. Colunas disponiveis: "
                               ++ join (lit ", ") keys) |}
          | Some customerKey =>
              Return (customers
                        (readRows customerKey (findKey keys equipmentColumn) rows))
          end
      end
  end.

End WithUnicode.

End Odoo.

(** ** sync.js, first revision with [buildEnderecoCompleto] *)

Module SyncV1.
Import JS.
Local Open Scope N_scope.

Record address := {
  logradouro : option jsstring;
  numero : option jsstring;
  bairro : option jsstring;
  cidade : option jsstring;
  uf : option jsstring;
  cep : option jsstring;
  pais : option jsstring
}.

(** The joined and normalized string [q]. *)
Definition joined (a : address) : jsstring :=
  let cepLimpo := removeAll (fun c => negb (isDigit c)) (orElse (cep a) []) in
  let parts := filterBoolean
    [ option_map trim (logradouro a);
      option_map trim (numero a);
      option_map trim (bairro a);
      option_map trim (cidade a);
      option_map trim (uf a);
      (if truthy cepLimpo then Some cepLimpo else None);
      Some (orElse (option_map trim (pais a)) (lit "Brasil")) ] in
  trim (collapseSpaces (join (lit ", ") parts)).

(** [q.replace(/[, ]/g, empty)] *)
Definition semPontuacao (q : jsstring) : jsstring :=
  removeAll (fun c => cu_eqb c 44 || cu_eqb c 32) q.

Definition buildEnderecoCompleto (a : address) : option jsstring :=
  let q := joined a in
  if negb (truthy q) || str_eqb q (lit "Brasil")
     || Nat.ltb (List.length (semPontuacao q)) 8
  then None
  else Some q.

End SyncV1.

(** ** sync.js, current revision: resumable synchronization *)

Module Sync.
Import JS World Regex.
Import Odoo(entry, name, equipment, isCombining, isSep).
Import Geocode(geo, lat, lng, normalized, n_uf, n_estado, n_state,
               n_state_code, n_cep).
Local Open Scope N_scope.
Local Open Scope monad_scope.

Record address := {
  logradouro : option jsstring;
  numero : option jsstring;
  bairro : option jsstring;
  cidade : option jsstring;
  uf : option jsstring;
  cep : option jsstring;
  pais : option jsstring
}.

Definition normalizeCep (cep : option jsstring) : jsstring :=
  removeAll (fun c => negb (isDigit c)) (orElse cep []).

(** [/^[A-Z]{2}$/.test(uf)] *)
Definition twoCapitals (uf : jsstring) : bool :=
  match uf with
  | [a; b] => isUpperAZ a && isUpperAZ b
  | _ => false
  end.

(** An equipment line item as parsed from the spreadsheet text. *)
Record item := { i_name : jsstring; i_qty : option Z }.

Definition isDash (c : cu) : bool := cu_eqb c 8211 || cu_eqb c 8212.

(** The class [.] *)
Definition dot : regex := Class (fun c => negb (isLineTerminator c)).

(** The prefix pattern of [sanitizeEquipmentName]: at the start, a letter,
    a slash, four digits, a slash, digits, optional white space, a hyphen
    or dash, optional white space. *)
Definition prefixRegex : regex :=
  Cat Bol (Cat (Class (fun c => isUpperAZ c || isLowerAZ c))
  (Cat (Chr 47) (Cat (Times 4 (Class isDigit)) (Cat (Chr 47)
  (Cat (Plus (Class isDigit)) (Cat (Star (Class isSpace))
  (Cat (Class (fun c => cu_eqb c 45 || isDash c))
       (Star (Class isSpace))))))))).

(** The bracket pattern: an opening bracket, one or more code units other
    than a closing bracket, a closing bracket, optional white space, then
    group 1, one or more code units of class dot up to the end. *)
Definition bracketRegex : regex :=
  Cat (Chr 91) (Cat (Plus (Class (fun c => negb (cu_eqb c 93))))
  (Cat (Chr 93) (Cat (Star (Class isSpace)) (Cat (Cap 1 (Plus dot)) Eol)))).

(** The leading pattern: at the start, one or more of white space, hyphen,
    en dash, em dash and colon. *)
Definition leadingRegex : regex :=
  Cat Bol (Plus (Class (fun c =>
    isSpace c || cu_eqb c 45 || isDash c || cu_eqb c 58))).

Definition sanitizeEquipmentName (raw : jsstring) : jsstring :=
  let s := trim raw in
  let s := map (fun c => if isDash c then 45 else c) s in
  let s := removeFirst prefixRegex s in
  let s := match exec bracketRegex s with
           | Some br => orEmpty (group 1 br)
           | None => s
           end in
  let s := removeFirst leadingRegex s in
  trim (collapseSpaces s).

(** The class before the quantity, under the i flag: white space, hyphen,
    en dash, em dash, x in both cases, the multiplication sign, the opening
    parenthesis and the asterisk. *)
Definition qtyClass (c : cu) : bool :=
  isSpace c || cu_eqb c 45 || isDash c || cu_eqb c 120 || cu_eqb c 88
  || cu_eqb c 215 || cu_eqb c 40 || cu_eqb c 42.

(** The pattern of [parsePart]: at the start, group 1, a lazy run of dot;
    then optionally (the class above, any number of times, group 2, one or
    more digits, an optional closing parenthesis); then optional white
    space up to the end. *)
Definition partRegex : regex :=
  Cat Bol (Cat (Cap 1 (LazyStar dot))
  (Cat (Opt (Cat (Star (Class qtyClass))
                 (Cat (Cap 2 (Plus (Class isDigit))) (Opt (Chr 41)))))
  (Cat (Star (Class isSpace)) Eol))).

Definition parsePart (p : jsstring) : item :=
  let m := exec partRegex p in
  let nm := match m with
            | Some m => trim (orEmpty (group 1 m))
            | None => trim p
            end in
  let qty := match m with
             | Some m =>
                 match group 2 m with
                 | Some d =>
                     if truthy d
                     then (if Z.eqb (parseDigits d) 0 then None
                           else Some (parseDigits d))
                     else None
                 | None => None
                 end
             | None => None
             end in
  {| i_name := sanitizeEquipmentName nm; i_qty := qty |}.

(** The array [parts]: the text split at runs of separators, each piece
    trimmed, the empty pieces dropped. *)
Definition splitParts (equipmentRaw : jsstring) : list jsstring :=
  filter truthy (map trim (splitRuns isSep equipmentRaw)).

(** The items that the loop over [parts] tries to insert, in order. *)
Definition parseEquipment (equipmentRaw : jsstring) : list item :=
  map parsePart (splitParts equipmentRaw).

(** [arr.findIndex(p)], with [None] for -1. *)
Fixpoint findIndex {A} (p : A -> bool) (l : list A) : option nat :=
  match l with
  | [] => None
  | x :: t => if p x then Some O else option_map S (findIndex p t)
  end.

(** [arr.sort(cmp)]: a stable sort; [a] stays before [b] unless [cmp a b]
    is positive. *)
Fixpoint insertSorted {A} (cmp : A -> A -> Z) (x : A) (l : list A) : list A :=
  match l with
  | [] => [x]
  | y :: t => if (cmp x y <=? 0)%Z then x :: y :: t else y :: insertSorted cmp x t
  end.
Fixpoint sortBy {A} (cmp : A -> A -> Z) (l : list A) : list A :=
  match l with
  | [] => []
  | x :: t => insertSorted cmp x (sortBy cmp t)
  end.

(** An element of [itens]. *)
Record matched := {
  idx : nat;
  m_entry : entry;
  m_partner : option partner
}.

(** An element of [scores]. *)
Record scored := { s_p : partner; s_score : Z; s_len : Z }.

(** What one iteration of the main loop did. *)
Inductive event : Type :=
| NotInOdoo (i : nat)
| Processed (i : nat) (ok : bool)
| EntryError (i : nat) (e : error)
| Halted (i : nat) (reason : jsstring).

(** How a call of [syncClientes] ended. *)
Inductive pass : Type :=
| StillPaused
| Completed (log : list event)
| Interrupted (log : list event)
| MainError (e : error).

Section WithEnvironment.

Context {U : Unicode}.

(** [geocode], imported from geocode.js. *)
Variable geocode : jsstring -> jsstring -> M (option geo).

(** [getCustomersFromSheet], imported from odoo.js, already applied to the
    path of the workbook: it reads the roster, queries the CRM and yields
    the entries ([requested]) and the partners found ([customers]). *)
Variable getCustomersFromSheet : M (list entry * list partner).

(** Equality of two item names under the collation of the unique key
    [cliente_equip]. *)
Variable sameNome : jsstring -> jsstring -> bool.

Definition cleanUF (value : option jsstring) : option jsstring :=
  let uf := toUpperCase (trim (orElse value [])) in
  if negb (twoCapitals uf) then None
  else if str_eqb uf (lit "BR") then None
  else Some uf.

(** The array [parts] before [filter(Boolean)]. *)
Definition addressParts (a : address) : list (option jsstring) :=
  let cepLimpo := normalizeCep (cep a) in
  [ option_map trim (logradouro a);
    option_map trim (numero a);
    option_map trim (bairro a);
    option_map trim (cidade a);
    cleanUF (uf a);
    (if truthy cepLimpo then Some cepLimpo else None);
    Some (trim (orElse (pais a) (lit "Brasil"))) ].

(** The joined and normalized string [q]. *)
Definition joined (a : address) : jsstring :=
  trim (collapseSpaces (join (lit ", ") (filterBoolean (addressParts a)))).

Definition buildEnderecoCompleto (a : address) : option jsstring :=
  let q := joined a in
  if negb (truthy q) || str_eqb (toLowerCase q) (lit "brasil") then None
  else Some q.

(** *** The cursor and the pause state *)

Definition emptySyncRow : sync_row :=
  {| last_odoo_id := None; last_entry_name := None;
     paused_since := None; paused_reason := None |}.

Definition getSyncCursor : M sync_row :=
  fun w =>
    (Return match sync_state w with Some r => r | None => emptySyncRow end, w).

Definition setSyncCursor (id : option Z) (nm : option jsstring) : M unit :=
  fun w =>
    let old := match sync_state w with Some r => r | None => emptySyncRow end in
    (Return tt,
     set_sync_state
       (Some {| last_odoo_id := id; last_entry_name := nm;
                paused_since := paused_since old;
                paused_reason := paused_reason old |}) w).

Definition setPause (reason : option jsstring) : M unit :=
  fun w =>
    let old := match sync_state w with Some r => r | None => emptySyncRow end in
    (Return tt,
     set_sync_state
       (Some {| last_odoo_id := last_odoo_id old;
                last_entry_name := last_entry_name old;
                paused_since := Some (now w);
                paused_reason := reason |}) w).

Definition clearPause : M unit :=
  fun w =>
    (Return tt,
     set_sync_state
       (match sync_state w with
        | Some r =>
            Some {| last_odoo_id := last_odoo_id r;
                    last_entry_name := last_entry_name r;
                    paused_since := None; paused_reason := None |}
        | None => None
        end) w).

Definition getPauseState : M sync_row :=
  fun w =>
    (Return match sync_state w with Some r => r | None => emptySyncRow end, w).

(** [SELECT TIMESTAMPDIFF(HOUR, since, NOW())]: whole hours, truncated. *)
Definition hoursSince (since : Z) : M Z :=
  fun w => (Return (Z.quot (now w - since) 3600), w).

(** *** Matching entries to partners *)

Definition stripAccentsLocal (s : jsstring) : jsstring :=
  trim (removeAll isCombining (normalizeNFD s)).

Definition normalizeNameLocal (s : jsstring) : jsstring :=
  toLowerCase (trim (collapseSpaces (stripAccentsLocal s))).

Definition nameCandidatesLocal (original : jsstring) : list jsstring :=
  let raw := trim original in
  if negb (truthy raw) then []
  else
    uniq (raw ::
          (if includesCu raw 44
           then firstn 2 (filter truthy (map trim (splitCu 44 raw)))
           else [])).

(** [normalizeNameLocal(p.display_name || p.name || empty)] *)
Definition partnerKey (p : partner) : jsstring :=
  normalizeNameLocal (orEmpty (orOpt (p_display_name p) (p_name p))).

Definition candidatesOf (requestedName : jsstring) : list jsstring :=
  filter truthy (map normalizeNameLocal (nameCandidatesLocal requestedName)).

Definition fuzzyHit (pn c : jsstring) : bool :=
  truthy pn && truthy c && (includes pn c || includes c pn).

Definition scoresOf (candidates : list jsstring) (partners : list partner)
    : list scored :=
  flat_map (fun p =>
    let pn := partnerKey p in
    flat_map (fun c =>
      if fuzzyHit pn c
      then [{| s_p := p; s_score := 1; s_len := Z.of_nat (List.length pn) |}]
      else []) candidates) partners.

(** [b.score - a.score || b.len - a.len] *)
Definition compareScores (a b : scored) : Z :=
  if Z.eqb (s_score b - s_score a) 0 then (s_len b - s_len a)%Z
  else (s_score b - s_score a)%Z.

Definition findMatchingPartner (requestedName : jsstring)
    (partners : list partner) : option partner :=
  let candidates := candidatesOf requestedName in
  match candidates with
  | [] => None
  | _ :: _ =>
      match find (fun p => memStr (partnerKey p) candidates) partners with
      | Some p => Some p
      | None =>
          match sortBy compareScores (scoresOf candidates partners) with
          | s :: _ => Some (s_p s)
          | [] => None
          end
      end
  end.

(** *** The store

    Each statement has here the effect it has when the store accepts it;
    the only rejection written out is that of the unique key of
    [equipamentos]. [SyncDb] adds the other rejections. *)

(** [INSERT INTO clientes ... ON DUPLICATE KEY UPDATE ...]: the row with
    this [id_odoo] is overwritten in every column but its own id; without
    such a row a new one is appended under the next id. *)
Definition upsertCliente (r : cliente) : M unit :=
  fun w =>
    if existsb (fun x => Z.eqb (c_id_odoo x) (c_id_odoo r)) (clientes w)
    then
      (Return tt,
       set_clientes
         (map (fun x =>
            if Z.eqb (c_id_odoo x) (c_id_odoo r)
            then {| c_id := c_id x; c_id_odoo := c_id_odoo r;
                    c_nome := c_nome r; c_telefone := c_telefone r;
                    c_celular := c_celular r; c_email := c_email r;
                    c_site := c_site r; c_logradouro := c_logradouro r;
                    c_numero := c_numero r; c_complemento := c_complemento r;
                    c_bairro := c_bairro r; c_cidade := c_cidade r;
                    c_estado := c_estado r; c_cep := c_cep r;
                    c_pais := c_pais r;
                    c_endereco_completo := c_endereco_completo r;
                    c_latitude := c_latitude r;
                    c_longitude := c_longitude r |}
            else x) (clientes w))
         (next_cliente_id w) w)
    else
      (Return tt,
       set_clientes
         (clientes w ++
          [{| c_id := next_cliente_id w; c_id_odoo := c_id_odoo r;
              c_nome := c_nome r; c_telefone := c_telefone r;
              c_celular := c_celular r; c_email := c_email r;
              c_site := c_site r; c_logradouro := c_logradouro r;
              c_numero := c_numero r; c_complemento := c_complemento r;
              c_bairro := c_bairro r; c_cidade := c_cidade r;
              c_estado := c_estado r; c_cep := c_cep r;
              c_pais := c_pais r;
              c_endereco_completo := c_endereco_completo r;
              c_latitude := c_latitude r;
              c_longitude := c_longitude r |}])
         (next_cliente_id w + 1)%Z w).

(** [SELECT id FROM clientes WHERE id_odoo = ? LIMIT 1], then
    [sel && sel[0] && sel[0].id]. *)
Definition selectClienteId (id_odoo : Z) : M (option Z) :=
  fun w =>
    (Return (option_map c_id
               (find (fun x => Z.eqb (c_id_odoo x) id_odoo) (clientes w))), w).

(** [DELETE FROM equipamentos WHERE cliente_id = ?] *)
Definition deleteEquipamentos (clienteId : Z) : M unit :=
  fun w =>
    (Return tt,
     set_equipamentos
       (filter (fun e => negb (Z.eqb (e_cliente_id e) clienteId))
          (equipamentos w)) w).

Definition duplicateEntry : error :=
  {| err_name := Some (lit "Error"); err_code := Some (lit "ER_DUP_ENTRY");
     err_message := Some (lit "Duplicate entry for key cliente_equip") |}.

(** [INSERT INTO equipamentos (cliente_id, nome, quantidade) VALUES ...]:
    rejected when the unique key (cliente_id, nome) is already taken. *)
Definition insertEquipamento (clienteId : Z) (nome : jsstring) (qty : option Z)
    : M unit :=
  fun w =>
    if existsb (fun e => Z.eqb (e_cliente_id e) clienteId
                         && sameNome (e_nome e) nome) (equipamentos w)
    then (Throw duplicateEntry, w)
    else
      (Return tt,
       set_equipamentos
         (equipamentos w ++
          [{| e_cliente_id := clienteId; e_nome := nome;
              e_quantidade := qty |}]) w).

(** [for (const part of parts)]: each insert in a try whose catch ignores
    the error. *)
Fixpoint insertParts (clienteId : Z) (parts : list jsstring) : M unit :=
  match parts with
  | [] => ret tt
  | part :: parts' =>
      let it := parsePart part in
      tryCatch (insertEquipamento clienteId (i_name it) (i_qty it))
               (fun _ => ret tt) ;;;
      insertParts clienteId parts'
  end.

(** The equipment block of [processarCliente]. *)
Definition persistEquipment (c : partner) (requestedEntry : option entry)
    : M unit :=
  let equipmentRaw :=
    trim (match requestedEntry with Some e => equipment e | None => [] end) in
  if truthy equipmentRaw then
    sel <- selectClienteId (p_id c) ;;
    match sel with
    | Some clienteId =>
        if negb (Z.eqb clienteId 0) then
          deleteEquipamentos clienteId ;;;
          insertParts clienteId (splitParts equipmentRaw)
        else ret tt
    | None => ret tt
    end
  else ret tt.

(** *** Processing one customer *)

(** [err?.name === "NominatimNetworkError" ||
     msg.includes("Falha de rede no Nominatim")] *)
Definition isFatal (err : error) : bool :=
  match err_name err with
  | Some n => str_eqb n (lit "NominatimNetworkError")
  | None => false
  end
  || includes (orElse (err_message err) []) (lit "Falha de rede no Nominatim").

(** [geo?.lat || null] *)
Definition coordOrNull (g : option geo) (f : geo -> coord) : option coord :=
  match g with
  | Some x => if Z.eqb (f x) 0 then None else Some (f x)
  | None => None
  end.

Definition geoField (g : option geo) (f : Geocode.geo_normalized -> option jsstring)
    : option jsstring :=
  match g with
  | Some x => match normalized x with Some n => f n | None => None end
  | None => None
  end.

(** [a || b] on the results of [cleanUF]. *)
Definition orUF (a b : option jsstring) : option jsstring :=
  match a with Some x => Some x | None => b end.

(** The body of the try of [processarCliente]. The query [findMatches]
    only reads the store and logs what it finds; it is left out. The row
    handed to [upsertCliente] has no id of its own (written 0 here): the
    store assigns or keeps it. *)
Definition processarBody (c : partner) (requestedEntry : option entry) : M bool :=
  let logradouro := orElse (p_street c) [] in
  let numero := orElse (p_numero c) [] in
  let complemento := orElse (p_street2 c) [] in
  let bairro := orElse (p_bairro c) [] in
  let cidade := orElse (p_city c) [] in
  let estadoSiglaOdoo :=
    orUF (cleanUF (p_state_code c)) (cleanUF (p_l10n_br_state_code c)) in
  let cep := orElse (p_zip c) [] in
  let pais := match p_country_id c with
              | Some cid => snd cid
              | None => lit "Brasil"
              end in
  let enderecoCompleto :=
    buildEnderecoCompleto
      {| logradouro := Some logradouro; numero := Some numero;
         bairro := Some bairro; cidade := Some cidade;
         uf := estadoSiglaOdoo; cep := Some cep; pais := Some pais |} in
  g <- match enderecoCompleto with
       | Some e => geocode e (normalizeCep (Some cep))
       | None => ret None
       end ;;
  let ufFromGeocode :=
    orUF (cleanUF (geoField g n_uf))
      (orUF (cleanUF (geoField g n_estado))
         (orUF (cleanUF (geoField g n_state))
            (cleanUF (geoField g n_state_code)))) in
  let estadoSiglaFinal := orUF estadoSiglaOdoo ufFromGeocode in
  upsertCliente
    {| c_id := 0; c_id_odoo := p_id c; c_nome := p_name c;
       c_telefone := orElse (p_phone c) [];
       c_celular := orElse (p_mobile c) [];
       c_email := orElse (p_email c) [];
       c_site := orElse (p_website c) [];
       c_logradouro := logradouro; c_numero := numero;
       c_complemento := complemento; c_bairro := bairro;
       c_cidade := cidade; c_estado := estadoSiglaFinal;
       c_cep := normalizeCep (Some cep); c_pais := pais;
       c_endereco_completo := enderecoCompleto;
       c_latitude := coordOrNull g lat;
       c_longitude := coordOrNull g lng |} ;;;
  persistEquipment c requestedEntry ;;;
  ret true.

Definition processarCliente (c : partner) (requestedEntry : option entry)
    : M bool :=
  tryCatch (processarBody c requestedEntry)
    (fun err => if isFatal err then throw err else ret false).

(** *** The pass *)

(** [itens]: every entry of the roster with its index and the partner that
    [findMatchingPartner] gives it. *)
Fixpoint buildItens (i : nat) (requested : list entry) (customers : list partner)
    : list matched :=
  match requested with
  | [] => []
  | e :: t =>
      {| idx := i; m_entry := e;
         m_partner := findMatchingPartner (name e) customers |}
      :: buildItens (S i) t customers
  end.

(** Truthiness of [cursor.last_odoo_id]. *)
Definition truthyId (id : option Z) : bool :=
  match id with Some z => negb (Z.eqb z 0) | None => false end.

(** The local function [norm] of the cursor fallback. *)
Definition norm (s : jsstring) : jsstring :=
  toLowerCase (trim (removeAll isCombining (normalizeNFD s))).

Definition hasPartnerId (id : Z) (x : matched) : bool :=
  match m_partner x with
  | Some p => Z.eqb (p_id p) id
  | None => false
  end.

Definition hasEntryName (lastN : jsstring) (x : matched) : bool :=
  str_eqb (norm (name (m_entry x))) lastN.

Definition startIndex (cursor : sync_row) (itens : list matched) : nat :=
  if truthyId (last_odoo_id cursor) then
    match last_odoo_id cursor with
    | Some id =>
        match findIndex (hasPartnerId id) itens with
        | Some pos => S pos
        | None => O
        end
    | None => O
    end
  else
    match last_entry_name cursor with
    | Some nm =>
        if truthy nm then
          match findIndex (hasEntryName (norm nm)) itens with
          | Some pos => S pos
          | None => O
          end
        else O
    | None => O
    end.

(** One iteration of the main loop on an entry that has a partner. *)
Definition processEntry (it : matched) (partner : partner) : M event :=
  tryCatch
    (ok <- processarCliente partner (Some (m_entry it)) ;;
     (if ok : bool
      then setSyncCursor (Some (p_id partner)) (Some (name (m_entry it)))
      else ret tt) ;;;
     ret (Processed (idx it) ok))
    (fun err =>
       let msg := orElse (err_message err) [] in
       if isFatal err then
         let reason := orElse (err_code err) msg in
         setPause (Some reason) ;;; ret (Halted (idx it) reason)
       else ret (EntryError (idx it) err)).

(** [for (let i = startIdx; i < itens.length; i++)], on the entries from
    [startIdx] on. The result tells whether the loop was interrupted, and
    what each iteration did. *)
Fixpoint mainLoop (itens : list matched) : M (bool * list event) :=
  match itens with
  | [] => ret (false, [])
  | it :: rest =>
      match m_partner it with
      | None =>
          r <- mainLoop rest ;;
          ret (fst r, NotInOdoo (idx it) :: snd r)
      | Some partner =>
          ev <- processEntry it partner ;;
          match ev with
          | Halted _ _ => ret (true, [ev])
          | _ =>
              r <- mainLoop rest ;;
              ret (fst r, ev :: snd r)
          end
      end
  end.

(** The pass from the construction of [itens] on. *)
Definition reconcile (requested : list entry) (customers : list partner)
    : M pass :=
  let itens := buildItens 0 requested customers in
  cursor <- getSyncCursor ;;
  let startIdx := startIndex cursor itens in
  r <- mainLoop (skipn startIdx itens) ;;
  ret (if fst r then Interrupted (snd r) else Completed (snd r)).

(** The first statement of the try of [syncClientes]: [true] lets the pass
    go on, [false] is the early [return]. *)
Definition checkPause : M bool :=
  fun w =>
    if negb (clearedPauseOnStartup w) then
      (clearPause ;;; (fun w' => (Return tt, set_cleared true w')) ;;; ret true) w
    else
      (pause <- getPauseState ;;
       match paused_since pause with
       | Some since =>
           diffh <- hoursSince since ;;
           if (diffh <? 7)%Z then ret false
           else clearPause ;;; ret true
       | None => ret true
       end) w.

(** What [syncClientes] does once the pause check lets it go on. *)
Definition proceed : M pass :=
  sheet <- getCustomersFromSheet ;;
  reconcile (fst sheet) (snd sheet).

Definition syncClientes : M pass :=
  tryCatch
    (go <- checkPause ;;
     if go : bool then proceed else ret StillPaused)
    (fun err => ret (MainError err)).

End WithEnvironment.

End Sync.

(** ** The program: sync.js linked with geocode.js *)

Module App.
Import JS World.

Section WithEnvironment.

Context {U : Unicode}.
Variable net : network.
Variable statusError : response -> error.
Variable GOOGLE_KEY : option jsstring.
Variable getCustomersFromSheet : M (list Odoo.entry * list partner).
Variable sameNome : jsstring -> jsstring -> bool.

Definition geocode : jsstring -> jsstring -> M (option Geocode.geo) :=
  Geocode.geocode net statusError GOOGLE_KEY.

Definition processarCliente : partner -> option Odoo.entry -> M bool :=
  Sync.processarCliente geocode sameNome.

Definition reconcile : list Odoo.entry -> list partner -> M Sync.pass :=
  Sync.reconcile geocode sameNome.

Definition syncClientes : M Sync.pass :=
  Sync.syncClientes geocode getCustomersFromSheet sameNome.

End WithEnvironment.

End App.

(** ** odoo.js: the queries to the CRM

    [getCustomersFromSheet] and what it calls. A JSON-RPC call is an HTTP
    request like those of geocode.js: it takes the next number of the
    process. The CRM is a function from the number of the call and its
    arguments to what [odooRPC] gives back, which is the [result] member
    of the reply, or the error thrown for a transport fault or for a reply
    with an [error] member. *)

Module OdooClient.
Import JS World.
Local Open Scope monad_scope.

(** The JSON values that occur in a search domain. *)
Unset Elimination Schemes.
Inductive json : Type :=
| JString (s : jsstring)
| JNumber (z : Z)
| JArray (l : list json).
Set Elimination Schemes.

(** The [result] member of a reply: an array of partner records, or any
    other value. *)
Inductive result : Type :=
| Records (l : list partner)
| Value (v : json).

(** The two calls that odoo.js makes: [common.login] and
    [res.partner.search_read] with a domain and a limit. *)
Inductive call : Type :=
| Login
| SearchRead (uid : result) (domain : json) (limit : Z).

(** What [getCustomersFromSheet] returns. *)
Record sheet := {
  requested : list Odoo.entry;
  customers : list partner;
  notFound : list jsstring
}.

Definition ONLY_CUSTOMERS : bool := true.
Definition CHUNK_SIZE : nat := 200.
Definition FUZZY_LIMIT : Z := 5.

(** [[field, op, value]] *)
Definition cond (field op : string) (value : json) : json :=
  JArray [JString (lit field); JString (lit op); value].

Definition customerRank : json := cond "customer_rank" ">" (JNumber 0).

(** The domain of the exact lookup of a chunk of names. *)
Definition exactDomain (chunk : list jsstring) : json :=
  let domain := [ JString (lit "|");
                  cond "display_name" "in" (JArray (map JString chunk));
                  cond "name" "in" (JArray (map JString chunk)) ] in
  JArray (if ONLY_CUSTOMERS
          then JString (lit "&") :: customerRank :: domain
          else domain).

(** [conds]: two conditions for every non-empty candidate. *)
Definition condsOf (candidates : list jsstring) : list json :=
  flat_map (fun cand =>
    if truthy cand
    then [ cond "display_name" "ilike" (JString cand);
           cond "name" "ilike" (JString cand) ]
    else []) candidates.

(** [...x] on a JSON value that is an array. *)
Definition spread (x : json) : list json :=
  match x with
  | JArray l => l
  | _ => []
  end.

(** The domain of the fuzzy lookup, from [conds[0]] and the other
    conditions. *)
Definition fuzzyDomain (c0 : json) (cs : list json) : json :=
  let chained := fold_left (fun d c => JArray [JString (lit "|"); d; c]) cs c0 in
  if ONLY_CUSTOMERS
  then JArray (JString (lit "&") :: customerRank :: spread chained)
  else chained.

(** [requested.slice(i, i + CHUNK_SIZE)] for [i] from 0 in steps of
    [CHUNK_SIZE]. *)
Fixpoint chunksFrom (fuel : nat) (l : list jsstring) : list (list jsstring) :=
  match fuel, l with
  | S fuel', _ :: _ => firstn CHUNK_SIZE l :: chunksFrom fuel' (skipn CHUNK_SIZE l)
  | _, _ => []
  end.
Definition chunks (l : list jsstring) : list (list jsstring) :=
  chunksFrom (List.length l) l.

(** [Map.prototype.set]: a new key goes last, a known key keeps its place
    and takes the new value. *)
Fixpoint mapSet (k : Z) (v : partner) (m : list (Z * partner))
    : list (Z * partner) :=
  match m with
  | [] => [(k, v)]
  | (k', v') :: t =>
      if Z.eqb k k' then (k, v) :: t else (k', v') :: mapSet k v t
  end.

(** [byId] once the exact results and then the fuzzy ones are set, and
    [[...byId.values()]]. *)
Definition mergeById (results fuzzyFound : list partner) : list partner :=
  map snd (fold_left (fun m r => mapSet (p_id r) r m) (results ++ fuzzyFound) []).

Section WithServer.

Context {U : Unicode}.

(** The CRM: the answer to the call numbered [n]. *)
Variable odoo : nat -> call -> outcome result.

Definition odooRPC (c : call) : M result :=
  fun w => (odoo (requests w) c, set_requests S w).

Definition odooLogin : M result := odooRPC Login.

(** The keys that one partner adds to the set of [buildFoundKeySet]. *)
Definition foundKeysOf (p : partner) : list jsstring :=
  let dn := Odoo.normalizeName (Some (orElse (p_display_name p) [])) in
  let nm := Odoo.normalizeName (Some (orElse (p_name p) [])) in
  (if truthy dn then [dn] else []) ++ (if truthy nm then [nm] else []).

Definition buildFoundKeySet (partners : list partner) : list jsstring :=
  uniq (flat_map foundKeysOf partners).

Definition isRequestedFound (requestedName : jsstring)
    (foundKeySet : list jsstring) : bool :=
  let cands :=
    filter truthy
      (map (fun c => Odoo.normalizeName (Some c))
           (Odoo.nameCandidates (Some requestedName))) in
  existsb (fun c => memStr c foundKeySet) cands.

(** [requested.filter((r) => !isRequestedFound(r, foundKeys))] *)
Definition notFoundIn (partners : list partner) (requested : list jsstring)
    : list jsstring :=
  filter (fun r => negb (isRequestedFound r (buildFoundKeySet partners)))
         requested.

(** Step 1: the exact lookups, one per chunk. *)
Fixpoint exactLoop (uid : result) (cs : list (list jsstring))
    (results : list partner) : M (list partner) :=
  match cs with
  | [] => ret results
  | chunk :: rest =>
      data <- odooRPC (SearchRead uid (exactDomain chunk) 100000) ;;
      exactLoop uid rest
        (match data with
         | Records (x :: l) => results ++ x :: l
         | _ => results
         end)
  end.

(** The comparator of [guess.sort]. *)
Definition compareGuess (target : jsstring) (a b : partner) : Z :=
  let an := Odoo.normalizeName (orOpt (p_display_name a) (p_name a)) in
  let bn := Odoo.normalizeName (orOpt (p_display_name b) (p_name b)) in
  let ascore := if includes an target || includes target an then 2%Z else 0%Z in
  let bscore := if includes bn target || includes target bn then 2%Z else 0%Z in
  if Z.eqb (bscore - ascore) 0
  then (Z.of_nat (List.length bn) - Z.of_nat (List.length an))%Z
  else (bscore - ascore)%Z.

(** Step 2: one fuzzy lookup for every name still missing; of its answer
    the first record after sorting is kept. *)
Fixpoint fuzzyLoop (uid : result) (missing : list jsstring)
    (fuzzyFound : list partner) : M (list partner) :=
  match missing with
  | [] => ret fuzzyFound
  | m :: rest =>
      match condsOf (Odoo.nameCandidates (Some m)) with
      | [] => fuzzyLoop uid rest fuzzyFound
      | c0 :: cs =>
          guess <- odooRPC (SearchRead uid (fuzzyDomain c0 cs) FUZZY_LIMIT) ;;
          fuzzyLoop uid rest
            (match guess with
             | Records (x :: l) =>
                 fuzzyFound
                 ++ [hd x (Sync.sortBy (compareGuess (Odoo.normalizeName (Some m)))
                                       (x :: l))]
             | _ => fuzzyFound
             end)
      end
  end.

(** [getCustomersFromSheet]; [worksheet] is what the xlsx library reads
    from the file. *)
Definition getCustomersFromSheet (worksheet : option (list Odoo.row))
    (customerColumn equipmentColumn : jsstring) : M sheet :=
  uid <- odooLogin ;;
  requestedEntries <-
    (fun w => (Odoo.readCustomersFromXlsx worksheet customerColumn
                 equipmentColumn, w)) ;;
  let names := map Odoo.name requestedEntries in
  match names with
  | [] => ret {| requested := []; customers := []; notFound := [] |}
  | _ :: _ =>
      results <- exactLoop uid (chunks names) [] ;;
      match notFoundIn results names with
      | [] =>
          ret {| requested := requestedEntries; customers := results;
                 notFound := [] |}
      | missing =>
          fuzzyFound <- fuzzyLoop uid missing [] ;;
          let merged := mergeById results fuzzyFound in
          ret {| requested := requestedEntries; customers := merged;
                 notFound := notFoundIn merged names |}
      end
  end.

End WithServer.

End OdooClient.

(** ** The program: sync.js linked with geocode.js and odoo.js *)

Module Program.
Import JS World.
Local Open Scope monad_scope.

Section WithEnvironment.

Context {U : Unicode}.
Variable net : network.
Variable statusError : response -> error.
Variable GOOGLE_KEY : option jsstring.
Variable odoo : nat -> OdooClient.call -> outcome OdooClient.result.
Variable worksheet : option (list Odoo.row).
Variable sameNome : jsstring -> jsstring -> bool.

(** The call of [syncClientes] to [getCustomersFromSheet] and the members
    [requested] and [customers] that it takes of the result. *)
Definition getCustomersFromSheet : M (list Odoo.entry * list partner) :=
  s <- OdooClient.getCustomersFromSheet odoo worksheet (lit "Cliente")
         (lit "Itens do pedido") ;;
  ret (OdooClient.requested s, OdooClient.customers s).

Definition syncClientes : M Sync.pass :=
  App.syncClientes net statusError GOOGLE_KEY getCustomersFromSheet sameNome.

End WithEnvironment.

End Program.

(** ** server.js: what the map is given *)

Module Server.
Import World.

(** [latitude IS NOT NULL AND longitude IS NOT NULL] *)
Definition hasCoordinates (r : cliente) : bool :=
  match c_latitude r, c_longitude r with
  | Some _, Some _ => true
  | _, _ => false
  end.

(** The handler of [GET /clientes]: the rows it sends. *)
Definition getClientes : M (list cliente) :=
  fun w => (Return (filter hasCoordinates (clientes w)), w).

End Server.

(** ** sync.js over a store that can reject a query

    [Sync] gives every statement sent to the store the effect it has when
    the store accepts it. Here every [db.query] can also be rejected. The
    state carries, next to the world, the script of the store: for each
    query still to come, whether the store rejects it and with which
    error (a lost connection, a lock timeout, a constraint of a table
    whose definition is not in the repository); past the end of the
    script every query is accepted. The two tables that sync.js creates
    have their column types written out: a value that does not fit an
    INT or a VARCHAR(255) column is rejected, as MySQL does in its
    default, strict, SQL mode; of a string too long for its column MySQL
    first cuts off the spaces in excess, and rejects it only if it is
    still too long. *)

Module SyncDb.
Import JS World.
Import Odoo(entry, name, equipment).
Import Geocode(geo, lat, lng, normalized, n_uf, n_estado, n_state,
               n_state_code, n_cep).

Record state := {
  world_of : world;
  script : list (option error)
}.

Definition D (A : Type) : Type := state -> outcome A * state.

Definition ret {A} (a : A) : D A := fun s => (Return a, s).
Definition throw {A} (e : error) : D A := fun s => (Throw e, s).
Definition bind {A B} (m : D A) (f : A -> D B) : D B :=
  fun s =>
    match m s with
    | (Return a, s') => f a s'
    | (Throw e, s') => (Throw e, s')
    end.

(** [try { body } catch (err) { handler }] *)
Definition tryCatch {A} (body : D A) (handler : error -> D A) : D A :=
  fun s =>
    match body s with
    | (Return a, s') => (Return a, s')
    | (Throw e, s') => handler e s'
    end.

Declare Scope db_scope.
Delimit Scope db_scope with db.
Notation "x <- m ;; k" := (bind m (fun x => k))
  (at level 61, m at next level, right associativity) : db_scope.
Notation "m ;;; k" := (bind m (fun _ => k))
  (at level 61, right associativity) : db_scope.
Local Open Scope db_scope.

(** A computation that does not query the store. *)
Definition lift {A} (m : M A) : D A :=
  fun s =>
    (fst (m (world_of s)),
     {| world_of := snd (m (world_of s)); script := script s |}).

(** The state once the store has answered the next query. *)
Definition next (s : state) : state :=
  {| world_of := world_of s; script := tl (script s) |}.

(** [await db.query(...)]: the store rejects the query with the error of
    its script, or runs the statement. *)
Definition query {A} (statement : M A) : D A :=
  fun s =>
    match script s with
    | Some e :: _ => (Throw e, next s)
    | _ => lift statement (next s)
    end.

(** *** The column types of [sync_state] and [equipamentos] *)

Definition isHighSurrogate (c : cu) : bool := inRange 55296%N 56319%N c.
Definition isLowSurrogate (c : cu) : bool := inRange 56320%N 57343%N c.

(** The number of characters of a string: a surrogate pair is one. *)
Fixpoint charCount (s : jsstring) : nat :=
  match s with
  | [] => O
  | c :: t =>
      match t with
      | d :: t' =>
          if isHighSurrogate c && isLowSurrogate d then S (charCount t')
          else S (charCount t)
      | [] => 1%nat
      end
  end.

(** The string without the spaces (U+0020) at its end. *)
Definition withoutTrailingSpaces (x : jsstring) : jsstring :=
  rev (dropWhile (fun c => cu_eqb c 32%N) (rev x)).

(** VARCHAR(255): the string is accepted when it has at most 255
    characters once the spaces at its end are left out. *)
Definition fitsVarchar (v : option jsstring) : bool :=
  match v with
  | Some x => Nat.leb (charCount (withoutTrailingSpaces x)) 255
  | None => true
  end.

(** What a VARCHAR(255) column stores of an accepted string: the string,
    or its first 255 characters when it is longer. *)
Definition storedVarchar (x : jsstring) : jsstring :=
  if Nat.leb (charCount x) 255 then x
  else withoutTrailingSpaces x
       ++ repeat 32%N (255 - charCount (withoutTrailingSpaces x)).

(** INT *)
Definition fitsInt (v : option Z) : bool :=
  match v with
  | Some z => ((-2147483648) <=? z)%Z && (z <=? 2147483647)%Z
  | None => true
  end.

Definition dataTooLong : error :=
  {| err_name := Some (lit "Error"); err_code := Some (lit "ER_DATA_TOO_LONG");
     err_message := Some (lit "Data too long for column") |}.

Definition outOfRange : error :=
  {| err_name := Some (lit "Error");
     err_code := Some (lit "ER_WARN_DATA_OUT_OF_RANGE");
     err_message := Some (lit "Out of range value for column") |}.

(** A statement whose values must fit an INT column and a VARCHAR(255)
    column. *)
Definition typed {A} (i : option Z) (v : option jsstring) (statement : M A)
    : M A :=
  if negb (fitsInt i) then World.throw outOfRange
  else if negb (fitsVarchar v) then World.throw dataTooLong
  else statement.

(** The test that an item of equipment fits the columns [nome] and
    [quantidade]. *)
Definition fitsColumns (nome : jsstring) (quantidade : option Z) : bool :=
  fitsInt quantidade && fitsVarchar (Some nome).

Section WithEnvironment.

Context {U : Unicode}.

(** [geocode], imported from geocode.js. *)
Variable geocode : jsstring -> jsstring -> M (option geo).

(** [getCustomersFromSheet], imported from odoo.js. *)
Variable getCustomersFromSheet : M (list entry * list partner).

(** Equality of two item names under the collation of the unique key
    [cliente_equip]. *)
Variable sameNome : jsstring -> jsstring -> bool.

(** *** The cursor and the pause state *)

(** [ensureSyncStateTable]: the CREATE TABLE, then the two ALTER TABLE,
    each in a try with an empty catch. *)
Definition ensureSyncStateTable : D unit :=
  query (World.ret tt) ;;;
  tryCatch (query (World.ret tt)) (fun _ => ret tt) ;;;
  tryCatch (query (World.ret tt)) (fun _ => ret tt).

Definition getSyncCursor : D sync_row :=
  ensureSyncStateTable ;;; query Sync.getSyncCursor.

Definition setSyncCursor (id : option Z) (nm : option jsstring) : D unit :=
  ensureSyncStateTable ;;;
  query (typed id nm (Sync.setSyncCursor id (option_map storedVarchar nm))).

Definition setPause (reason : option jsstring) : D unit :=
  ensureSyncStateTable ;;;
  query (typed None reason (Sync.setPause (option_map storedVarchar reason))).

Definition clearPause : D unit :=
  ensureSyncStateTable ;;; query Sync.clearPause.

Definition getPauseState : D sync_row :=
  ensureSyncStateTable ;;; query Sync.getPauseState.

(** [SELECT TIMESTAMPDIFF(HOUR, since, NOW())] *)
Definition hoursSince (since : Z) : D Z := query (Sync.hoursSince since).

(** *** Processing one customer *)

(** The row that [processarCliente] hands to the INSERT. *)
Definition clienteRow (c : partner) (g : option geo) : cliente :=
  let estadoSiglaOdoo :=
    Sync.orUF (Sync.cleanUF (p_state_code c))
      (Sync.cleanUF (p_l10n_br_state_code c)) in
  let pais := match p_country_id c with
              | Some cid => snd cid
              | None => lit "Brasil"
              end in
  let ufFromGeocode :=
    Sync.orUF (Sync.cleanUF (Sync.geoField g n_uf))
      (Sync.orUF (Sync.cleanUF (Sync.geoField g n_estado))
         (Sync.orUF (Sync.cleanUF (Sync.geoField g n_state))
            (Sync.cleanUF (Sync.geoField g n_state_code)))) in
  {| c_id := 0; c_id_odoo := p_id c; c_nome := p_name c;
     c_telefone := orElse (p_phone c) [];
     c_celular := orElse (p_mobile c) [];
     c_email := orElse (p_email c) [];
     c_site := orElse (p_website c) [];
     c_logradouro := orElse (p_street c) [];
     c_numero := orElse (p_numero c) [];
     c_complemento := orElse (p_street2 c) [];
     c_bairro := orElse (p_bairro c) [];
     c_cidade := orElse (p_city c) [];
     c_estado := Sync.orUF estadoSiglaOdoo ufFromGeocode;
     c_cep := Sync.normalizeCep (Some (orElse (p_zip c) []));
     c_pais := pais;
     c_endereco_completo :=
       Sync.buildEnderecoCompleto
         {| Sync.logradouro := Some (orElse (p_street c) []);
            Sync.numero := Some (orElse (p_numero c) []);
            Sync.bairro := Some (orElse (p_bairro c) []);
            Sync.cidade := Some (orElse (p_city c) []);
            Sync.uf := estadoSiglaOdoo;
            Sync.cep := Some (orElse (p_zip c) []);
            Sync.pais := Some pais |};
     c_latitude := Sync.coordOrNull g lat;
     c_longitude := Sync.coordOrNull g lng |}.

(** [findMatches]: the SELECT is sent when there is a condition to put in
    it; its rows are only logged. *)
Definition findMatches (c : partner) (g : option geo) : D unit :=
  let cepNorm :=
    Sync.normalizeCep
      (Some (orElse (Sync.geoField g n_cep) (orElse (p_zip c) []))) in
  if truthy cepNorm || truthy (orElse (p_city c) [])
     || truthy (orElse (p_street c) [])
  then query (World.ret tt)
  else ret tt.

(** [INSERT INTO equipamentos (cliente_id, nome, quantidade) VALUES ...] *)
Definition insertEquipamento (clienteId : Z) (nome : jsstring)
    (qty : option Z) : D unit :=
  query (typed qty (Some nome)
           (Sync.insertEquipamento sameNome clienteId (storedVarchar nome) qty)).

(** [for (const part of parts)]: each insert in a try whose catch ignores
    the error, whatever it is. *)
Fixpoint insertParts (clienteId : Z) (parts : list jsstring) : D unit :=
  match parts with
  | [] => ret tt
  | part :: parts' =>
      let it := Sync.parsePart part in
      tryCatch (insertEquipamento clienteId (Sync.i_name it) (Sync.i_qty it))
               (fun _ => ret tt) ;;;
      insertParts clienteId parts'
  end.

(** The equipment block of [processarCliente]: the CREATE TABLE, the
    SELECT of the local id, the DELETE and the inserts. *)
Definition persistEquipment (c : partner) (requestedEntry : option entry)
    : D unit :=
  let equipmentRaw :=
    trim (match requestedEntry with Some e => equipment e | None => [] end) in
  if truthy equipmentRaw then
    query (World.ret tt) ;;;
    sel <- query (Sync.selectClienteId (p_id c)) ;;
    match sel with
    | Some clienteId =>
        if negb (Z.eqb clienteId 0) then
          query (Sync.deleteEquipamentos clienteId) ;;;
          insertParts clienteId (Sync.splitParts equipmentRaw)
        else ret tt
    | None => ret tt
    end
  else ret tt.

(** The geocoding step. The address and the postal code handed to
    [geocode] do not depend on its answer: they are those of the row built
    without it. *)
Definition geocodeStep (c : partner) : M (option geo) :=
  match c_endereco_completo (clienteRow c None) with
  | Some e => geocode e (c_cep (clienteRow c None))
  | None => World.ret None
  end.

Definition processarBody (c : partner) (requestedEntry : option entry) : D bool :=
  g <- lift (geocodeStep c) ;;
  findMatches c g ;;;
  query (Sync.upsertCliente (clienteRow c g)) ;;;
  persistEquipment c requestedEntry ;;;
  ret true.

Definition processarCliente (c : partner) (requestedEntry : option entry)
    : D bool :=
  tryCatch (processarBody c requestedEntry)
    (fun err => if Sync.isFatal err then throw err else ret false).

(** *** The pass *)

Definition processEntry (it : Sync.matched) (partner : partner) : D Sync.event :=
  tryCatch
    (ok <- processarCliente partner (Some (Sync.m_entry it)) ;;
     (if ok : bool
      then setSyncCursor (Some (p_id partner)) (Some (name (Sync.m_entry it)))
      else ret tt) ;;;
     ret (Sync.Processed (Sync.idx it) ok))
    (fun err =>
       let msg := orElse (err_message err) [] in
       if Sync.isFatal err then
         let reason := orElse (err_code err) msg in
         setPause (Some reason) ;;; ret (Sync.Halted (Sync.idx it) reason)
       else ret (Sync.EntryError (Sync.idx it) err)).

Fixpoint mainLoop (itens : list Sync.matched) : D (bool * list Sync.event) :=
  match itens with
  | [] => ret (false, [])
  | it :: rest =>
      match Sync.m_partner it with
      | None =>
          r <- mainLoop rest ;;
          ret (fst r, Sync.NotInOdoo (Sync.idx it) :: snd r)
      | Some partner =>
          ev <- processEntry it partner ;;
          match ev with
          | Sync.Halted _ _ => ret (true, [ev])
          | _ =>
              r <- mainLoop rest ;;
              ret (fst r, ev :: snd r)
          end
      end
  end.

Definition reconcile (requested : list entry) (customers : list partner)
    : D Sync.pass :=
  let itens := Sync.buildItens 0 requested customers in
  cursor <- getSyncCursor ;;
  let startIdx := Sync.startIndex cursor itens in
  r <- mainLoop (skipn startIdx itens) ;;
  ret (if fst r then Sync.Interrupted (snd r) else Sync.Completed (snd r)).

Definition checkPause : D bool :=
  fun s =>
    if negb (clearedPauseOnStartup (world_of s)) then
      (clearPause ;;;
       lift (fun w => (Return tt, set_cleared true w)) ;;;
       ret true) s
    else
      (pause <- getPauseState ;;
       match paused_since pause with
       | Some since =>
           diffh <- hoursSince since ;;
           if (diffh <? 7)%Z then ret false
           else clearPause ;;; ret true
       | None => ret true
       end) s.

Definition proceed : D Sync.pass :=
  sheet <- lift getCustomersFromSheet ;;
  reconcile (fst sheet) (snd sheet).

Definition syncClientes : D Sync.pass :=
  tryCatch
    (go <- checkPause ;;
     if go : bool then proceed else ret Sync.StillPaused)
    (fun err => ret (Sync.MainError err)).

End WithEnvironment.

End SyncDb.

(** * Properties *)

Import JS World.

(** ** Strings *)

Lemma cu_eqb_eq (a b : cu) : cu_eqb a b = true <-> a = b.
Proof. apply N.eqb_eq. Qed.

Lemma str_eqb_eq (a b : jsstring) : str_eqb a b = true <-> a = b.
Proof.
  revert b; induction a as [|x a IH]; intros [|y b]; simpl;
    try (split; [discriminate | congruence]); try tauto.
  rewrite andb_true_iff, cu_eqb_eq, IH.
  split; [intros [-> ->]; reflexivity | intros H; inversion H; auto].
Qed.

Lemma str_eqb_refl (a : jsstring) : str_eqb a a = true.
Proof. apply str_eqb_eq; reflexivity. Qed.

Lemma str_eqb_neq (a b : jsstring) : str_eqb a b = false <-> a <> b.
Proof.
  split.
  - intros H E. apply str_eqb_eq in E. congruence.
  - intros H. destruct (str_eqb a b) eqn:E; [|reflexivity].
    apply str_eqb_eq in E. contradiction.
Qed.

Lemma memStr_In (x : jsstring) (l : list jsstring) :
  memStr x l = true <-> In x l.
Proof.
  unfold memStr. rewrite existsb_exists. split.
  - intros [y [Hy E]]. apply str_eqb_eq in E. subst. assumption.
  - intros H. exists x. split; [assumption | apply str_eqb_refl].
Qed.

Lemma truthy_false (s : jsstring) : truthy s = false <-> s = [].
Proof. destruct s; simpl; split; congruence. Qed.

(** ** C9: the worked example of the equipment parser *)

(** C9. The equipment parser (the text split at runs of semicolon, comma,
    newline and bar, then [parsePart] with [sanitizeEquipmentName] on each
    fragment) maps the text [[COD123] Gerador x2; Compressor (1)] to the
    items Gerador with quantity 2 and Compressor with quantity 1, in this
    order. *)
Theorem C9_equipment_example :
  Sync.parseEquipment (lit "[COD123] Gerador x2; Compressor (1)")
  = [ {| Sync.i_name := lit "Gerador"; Sync.i_qty := Some 2%Z |};
      {| Sync.i_name := lit "Compressor"; Sync.i_qty := Some 1%Z |} ].
Proof. vm_compute. reflexivity. Qed.

(** ** C6: the classification of retryable faults *)

Definition refusedError : error :=
  {| err_name := Some (lit "Error");
     err_code := Some (lit "ECONNREFUSED");
     err_message := Some (lit "connect ECONNREFUSED 127.0.0.1:443") |}.


(** The error of axios 1.x for a status that [validateStatus] rejects. *)
Definition axiosError (r : response) : error :=
  {| err_name := Some (lit "AxiosError");
     err_code :=
       (if (400 <=? status r)%Z && (status r <? 500)%Z
        then Some (lit "ERR_BAD_REQUEST")
        else if (500 <=? status r)%Z && (status r <? 600)%Z
        then Some (lit "ERR_BAD_RESPONSE")
        else None);
     err_message :=
       Some (lit "Request failed with status code "
             ++ decimal (Z.to_N (status r))) |}.

(** A freshly started process with an empty store. *)
Definition freshWorld : world :=
  {| clock := 0; requests := 0; clientes := []; next_cliente_id := 1;
     equipamentos := []; sync_state := None;
     clearedPauseOnStartup := false |}.

(** A network on which every connection is refused. *)
Definition refusingNet : network := fun _ _ => Failure refusedError.





(** ** C7: addresses that are treated as absent *)

(** The record that [processarCliente] builds for a partner whose only
    address field is the city X. *)
Definition cityOnly : Sync.address :=
  {| Sync.logradouro := Some []; Sync.numero := Some [];
     Sync.bairro := Some []; Sync.cidade := Some (lit "X");
     Sync.uf := None; Sync.cep := Some [];
     Sync.pais := Some (lit "Brasil") |}.

(** C7, as stated, fails on the current revision of sync.js: it has no
    threshold on the significant characters. The city X alone gives the
    address [X, Brasil], which has 7 characters besides commas and
    spaces. *)
Lemma C7_no_threshold_in_current_revision :
  Sync.buildEnderecoCompleto (U := asciiUnicode) cityOnly
  = Some (lit "X, Brasil")
  /\ List.length (SyncV1.semPontuacao (lit "X, Brasil")) = 7%nat.
Proof. vm_compute. split; reflexivity. Qed.

(** C7 (amended). The first revision of [buildEnderecoCompleto] returns
    null whenever the joined, normalized string is [Brasil] or has fewer
    than 8 code units besides commas and spaces, and the joined string
    otherwise. The current revision returns null exactly when the joined,
    normalized string is empty or is [brasil] after lower-casing, and the
    joined string otherwise; it applies no threshold on the length. *)
Theorem C7_absent_addresses (U : Unicode) :
  (forall a : SyncV1.address,
     (SyncV1.joined a = lit "Brasil"
      \/ (List.length (SyncV1.semPontuacao (SyncV1.joined a)) < 8)%nat ->
      SyncV1.buildEnderecoCompleto a = None)
     /\ (SyncV1.joined a <> lit "Brasil" ->
         (8 <= List.length (SyncV1.semPontuacao (SyncV1.joined a)))%nat ->
         SyncV1.buildEnderecoCompleto a = Some (SyncV1.joined a)))
  /\ (forall a : Sync.address,
        (Sync.joined a = [] \/ toLowerCase (Sync.joined a) = lit "brasil" ->
         Sync.buildEnderecoCompleto a = None)
        /\ (Sync.joined a <> [] ->
            toLowerCase (Sync.joined a) <> lit "brasil" ->
            Sync.buildEnderecoCompleto a = Some (Sync.joined a))).
Proof.
  split; intros a; split.
  - intros [H|H]; unfold SyncV1.buildEnderecoCompleto.
    + rewrite H. reflexivity.
    + apply Nat.ltb_lt in H. rewrite H. rewrite !orb_true_r. reflexivity.
  - intros Hne Hlen. unfold SyncV1.buildEnderecoCompleto.
    apply str_eqb_neq in Hne. rewrite Hne.
    assert (Hlt : Nat.ltb (List.length (SyncV1.semPontuacao (SyncV1.joined a))) 8 = false)
      by (apply Nat.ltb_ge; exact Hlen).
    rewrite Hlt.
    destruct (SyncV1.joined a) as [|c q] eqn:E; [simpl in Hlen; lia|].
    reflexivity.
  - intros [H|H]; unfold Sync.buildEnderecoCompleto.
    + rewrite H. reflexivity.
    + rewrite H. rewrite orb_true_r. reflexivity.
  - intros Hne Hlow. unfold Sync.buildEnderecoCompleto.
    apply str_eqb_neq in Hlow. rewrite Hlow.
    destruct (Sync.joined a) as [|c q] eqn:E; [congruence|].
    reflexivity.
Qed.

(** C7, witness: the first revision rejects the city X alone, and the
    current revision rejects the record without any component. *)
Lemma C7_absent_addresses_witness :
  SyncV1.buildEnderecoCompleto
    {| SyncV1.logradouro := Some []; SyncV1.numero := Some [];
       SyncV1.bairro := Some []; SyncV1.cidade := Some (lit "X");
       SyncV1.uf := Some []; SyncV1.cep := Some [];
       SyncV1.pais := Some (lit "Brasil") |} = None
  /\ Sync.buildEnderecoCompleto (U := asciiUnicode)
       {| Sync.logradouro := None; Sync.numero := None; Sync.bairro := None;
          Sync.cidade := None; Sync.uf := None; Sync.cep := None;
          Sync.pais := None |} = None.
Proof.
  split.
  - apply (proj1 (proj1 (C7_absent_addresses asciiUnicode) _)).
    right. vm_compute. lia.
  - apply (proj1 (proj2 (C7_absent_addresses asciiUnicode) _)).
    right. vm_compute. reflexivity.
Defined.

(** ** C8: the region code is never BR *)

(** The components of the address other than the region. *)
Definition partsWithoutUF (a : Sync.address) : list (option jsstring) :=
  [ option_map trim (Sync.logradouro a);
    option_map trim (Sync.numero a);
    option_map trim (Sync.bairro a);
    option_map trim (Sync.cidade a);
    (if truthy (Sync.normalizeCep (Sync.cep a))
     then Some (Sync.normalizeCep (Sync.cep a)) else None);
    Some (trim (orElse (Sync.pais a) (lit "Brasil"))) ].

Lemma cleanUF_Some {U : Unicode} (v : option jsstring) (u : jsstring) :
  Sync.cleanUF v = Some u ->
  u = toUpperCase (trim (orElse v []))
  /\ (exists a b, u = [a; b] /\ isUpperAZ a = true /\ isUpperAZ b = true)
  /\ u <> lit "BR".
Proof.
  unfold Sync.cleanUF.
  destruct (Sync.twoCapitals (toUpperCase (trim (orElse v [])))) eqn:E2;
    simpl; [|discriminate].
  destruct (str_eqb (toUpperCase (trim (orElse v []))) (lit "BR")) eqn:EB;
    [discriminate|].
  intros H. injection H as <-.
  split; [reflexivity|]. split.
  - unfold Sync.twoCapitals in E2.
    destruct (toUpperCase (trim (orElse v []))) as [|a [|b [|c t]]];
      try discriminate.
    apply andb_true_iff in E2. destruct E2. exists a, b. auto.
  - apply str_eqb_neq. exact EB.
Qed.

(** The built-ins on strings made of ASCII and of the letter U+00DF (sharp
    s): [toUpperCase] maps that letter to the two letters SS, as the
    special casing of Unicode does; it has no other case mapping and no
    decomposition. *)
Definition sharpSUnicode : Unicode := {|
  toLowerCase := map lowerCu;
  toUpperCase :=
    flat_map (fun c => if N.eqb c 223 then [83%N; 83%N] else [upperCu c]);
  normalizeNFD := fun s => s
|}.

(** C8, as stated, fails: the test for two letters is made after
    upper-casing, so a value that is not two ASCII letters is kept when its
    upper-cased form is. The region made of the single letter U+00DF
    becomes SS and is part of the address. *)
Lemma C8_sharp_s_becomes_a_region :
  List.length [223%N] = 1%nat
  /\ Sync.cleanUF (U := sharpSUnicode) (Some [223%N]) = Some (lit "SS")
  /\ Sync.buildEnderecoCompleto (U := sharpSUnicode)
       {| Sync.logradouro := Some (lit "Rua A"); Sync.numero := Some (lit "10");
          Sync.bairro := Some (lit "Centro"); Sync.cidade := Some (lit "Maceio");
          Sync.uf := Some [223%N]; Sync.cep := Some (lit "57000-000");
          Sync.pais := Some (lit "Brasil") |}
     = Some (lit "Rua A, 10, Centro, Maceio, SS, 57000000, Brasil").
Proof. vm_compute. repeat split; reflexivity. Qed.

(** C8 (amended). The region component that [buildEnderecoCompleto] puts in its
    fifth position is the result of [cleanUF], and it is never BR:
    [cleanUF] maps to null every value whose trimmed, upper-cased form is BR
    or is not exactly two capital ASCII letters, and a region that
    [cleanUF] maps to null is left out of the joined string. *)
Theorem C8_region_never_BR (U : Unicode) (a : Sync.address) :
  nth_error (Sync.addressParts a) 4 = Some (Sync.cleanUF (Sync.uf a))
  /\ Sync.cleanUF (Sync.uf a) <> Some (lit "BR")
  /\ (forall v, toUpperCase (trim (orElse v [])) = lit "BR" ->
                Sync.cleanUF v = None)
  /\ (forall v,
        (forall x y, toUpperCase (trim (orElse v [])) = [x; y] ->
                     isUpperAZ x && isUpperAZ y = false) ->
        Sync.cleanUF v = None)
  /\ (Sync.cleanUF (Sync.uf a) = None ->
      Sync.joined a
      = trim (collapseSpaces (join (lit ", ") (filterBoolean (partsWithoutUF a))))).
Proof.
  split; [reflexivity|]. split; [|split; [|split]].
  - intros H. apply cleanUF_Some in H. destruct H as [_ [_ H]]. congruence.
  - intros v H. unfold Sync.cleanUF. rewrite H. reflexivity.
  - intros v H. destruct (Sync.cleanUF v) as [u|] eqn:E; [|reflexivity].
    apply cleanUF_Some in E. destruct E as [Eu [[x [y [Exy [Hx Hy]]]] _]].
    subst u. specialize (H x y Exy). rewrite Hx, Hy in H. discriminate.
  - intros H. unfold Sync.joined, Sync.addressParts, partsWithoutUF.
    rewrite H. reflexivity.
Qed.

(** C8, witness: the region [ br ] of a complete address is left out. *)
Lemma C8_region_never_BR_witness :
  Sync.cleanUF (U := asciiUnicode) (Some (lit " br ")) = None
  /\ Sync.buildEnderecoCompleto (U := asciiUnicode)
       {| Sync.logradouro := Some (lit "Rua A"); Sync.numero := Some (lit "10");
          Sync.bairro := Some (lit "Centro"); Sync.cidade := Some (lit "Maceio");
          Sync.uf := Some (lit " br "); Sync.cep := Some (lit "57000-000");
          Sync.pais := Some (lit "Brasil") |}
     = Some (lit "Rua A, 10, Centro, Maceio, 57000000, Brasil").
Proof.
  pose proof (C8_region_never_BR asciiUnicode
    {| Sync.logradouro := Some (lit "Rua A"); Sync.numero := Some (lit "10");
       Sync.bairro := Some (lit "Centro"); Sync.cidade := Some (lit "Maceio");
       Sync.uf := Some (lit " br "); Sync.cep := Some (lit "57000-000");
       Sync.pais := Some (lit "Brasil") |}) as [_ [_ [HBR [_ Hjoin]]]].
  assert (E : Sync.cleanUF (U := asciiUnicode) (Some (lit " br ")) = None)
    by (apply HBR; vm_compute; reflexivity).
  split; [exact E|].
  unfold Sync.buildEnderecoCompleto. rewrite (Hjoin E).
  vm_compute. reflexivity.
Defined.

(** ** C5: the two stages of [findMatchingPartner] *)

Definition partnerNamed (id : Z) (nm dn : option jsstring) : partner :=
  {| p_id := id; p_name := nm; p_display_name := dn;
     p_street := None; p_street2 := None; p_zip := None; p_city := None;
     p_bairro := None; p_numero := None; p_state_id := None;
     p_country_id := None; p_state_code := None;
     p_l10n_br_state_code := None; p_phone := None; p_mobile := None;
     p_email := None; p_website := None |}.

Definition partnerJohn : partner :=
  partnerNamed 1 (Some (lit "John")) (Some (lit "ACME, John")).
Definition partnerSmith : partner :=
  partnerNamed 2 (Some (lit "JS")) (Some (lit "John Smith of Maceio")).

(** C5, as stated, fails. The key of a partner is its display name, and
    its name only when the display name is empty: the partner whose name,
    normalized, equals the candidate [john] but whose display name differs
    is not an exact match, and the fuzzy stage prefers the partner with the
    longer key. Besides, the candidates of a name with two commas are its
    first two pieces, not the text after the first comma. *)
Lemma C5_name_is_not_matched_exactly :
  In (Sync.normalizeNameLocal (U := asciiUnicode) (lit "John"))
     (Sync.candidatesOf (U := asciiUnicode) (lit "John"))
  /\ Sync.findMatchingPartner (U := asciiUnicode) (lit "John")
       [partnerJohn; partnerSmith] = Some partnerSmith
  /\ ~ In (Sync.normalizeNameLocal (U := asciiUnicode) (lit "JS"))
          (Sync.candidatesOf (U := asciiUnicode) (lit "John"))
  /\ ~ In (Sync.normalizeNameLocal (U := asciiUnicode) (lit "John Smith of Maceio"))
          (Sync.candidatesOf (U := asciiUnicode) (lit "John"))
  /\ Sync.candidatesOf (U := asciiUnicode) (lit "A, B, C")
     = [lit "a, b, c"; lit "a"; lit "b"].
Proof.
  vm_compute. repeat split; try reflexivity; auto;
    intros [H|[]]; discriminate.
Qed.

Lemma insertSorted_In {A} (cmp : A -> A -> Z) (x y : A) (l : list A) :
  In y (Sync.insertSorted cmp x l) <-> y = x \/ In y l.
Proof.
  induction l as [|z l IH]; simpl.
  - intuition.
  - destruct (cmp x z <=? 0)%Z; simpl; [intuition|].
    rewrite IH. intuition.
Qed.

Lemma sortBy_In {A} (cmp : A -> A -> Z) (y : A) (l : list A) :
  In y (Sync.sortBy cmp l) <-> In y l.
Proof.
  induction l as [|x l IH]; simpl; [tauto|].
  rewrite insertSorted_In, IH. intuition.
Qed.

(** The head of the sorted scores is an element of greatest length. *)
Lemma sortBy_scores_head (l : list Sync.scored) :
  (forall s, In s l -> Sync.s_score s = 1%Z) ->
  match Sync.sortBy Sync.compareScores l with
  | [] => l = []
  | s :: _ => In s l /\ forall y, In y l -> (Sync.s_len y <= Sync.s_len s)%Z
  end.
Proof.
  induction l as [|x l IH]; intros Hs; simpl; [reflexivity|].
  assert (Hl : forall s, In s l -> Sync.s_score s = 1%Z)
    by (intros s H; apply Hs; right; exact H).
  specialize (IH Hl).
  destruct (Sync.sortBy Sync.compareScores l) as [|s r] eqn:E.
  - subst l. simpl. split; [left; reflexivity|].
    intros y [<-|[]]. lia.
  - destruct IH as [Hin Hmax]. simpl.
    assert (Hc : Sync.compareScores x s = (Sync.s_len s - Sync.s_len x)%Z).
    { unfold Sync.compareScores.
      rewrite (Hs x (or_introl eq_refl)), (Hl s Hin). reflexivity. }
    rewrite Hc.
    destruct (Sync.s_len s - Sync.s_len x <=? 0)%Z eqn:Ec.
    + apply Z.leb_le in Ec. split; [left; reflexivity|].
      intros y [<-|Hy]; [lia|]. specialize (Hmax y Hy). lia.
    + apply Z.leb_gt in Ec. split; [right; exact Hin|].
      intros y [<-|Hy]; [lia|]. exact (Hmax y Hy).
Qed.

Lemma scoresOf_In {U : Unicode} (cands : list jsstring) (partners : list partner)
    (s : Sync.scored) :
  In s (Sync.scoresOf cands partners) <->
  exists p c, In p partners /\ In c cands
              /\ Sync.fuzzyHit (Sync.partnerKey p) c = true
              /\ s = {| Sync.s_p := p; Sync.s_score := 1;
                        Sync.s_len := Z.of_nat (List.length (Sync.partnerKey p)) |}.
Proof.
  unfold Sync.scoresOf. rewrite in_flat_map. split.
  - intros [p [Hp H]]. apply in_flat_map in H. destruct H as [c [Hc H]].
    destruct (Sync.fuzzyHit (Sync.partnerKey p) c) eqn:E; [|destruct H].
    destruct H as [<-|[]]. exists p, c. auto.
  - intros [p [c [Hp [Hc [E ->]]]]]. exists p. split; [exact Hp|].
    apply in_flat_map. exists c. split; [exact Hc|]. rewrite E. left. reflexivity.
Qed.

(** A partner is a fuzzy candidate when its key and some candidate are not
    empty and one contains the other. *)
Definition fuzzyCandidate {U : Unicode} (cands : list jsstring) (p : partner)
    : Prop :=
  exists c, In c cands /\ Sync.fuzzyHit (Sync.partnerKey p) c = true.

(** C5 (amended). The key of a partner is its normalized display name, or
    its normalized name when the display name is empty. The candidates are
    the trimmed requested name and its first two non-empty pieces between
    commas, normalized. If the key of some partner is one of the
    candidates, the first such partner of the list is returned, without
    fuzzy scoring. Otherwise, among the partners whose non-empty key
    contains a candidate or is contained in one, one with the longest key is
    returned; if there is none, null is returned. *)
Theorem C5_matching_order (U : Unicode) (requestedName : jsstring)
    (partners : list partner) :
  let cands := Sync.candidatesOf requestedName in
  (forall p, In p partners -> In (Sync.partnerKey p) cands ->
     exists p', Sync.findMatchingPartner requestedName partners = Some p'
                /\ find (fun q => memStr (Sync.partnerKey q) cands) partners
                   = Some p'
                /\ In p' partners /\ In (Sync.partnerKey p') cands)
  /\ ((forall p, In p partners -> ~ In (Sync.partnerKey p) cands) ->
      (forall p, In p partners -> fuzzyCandidate cands p ->
         exists p', Sync.findMatchingPartner requestedName partners = Some p'
                    /\ In p' partners /\ fuzzyCandidate cands p'
                    /\ forall q, In q partners -> fuzzyCandidate cands q ->
                         (List.length (Sync.partnerKey q)
                          <= List.length (Sync.partnerKey p'))%nat)
      /\ ((forall p, In p partners -> ~ fuzzyCandidate cands p) ->
          Sync.findMatchingPartner requestedName partners = None)).
Proof.
  intros cands. split.
  - intros p Hp Hk.
    destruct (find (fun q => memStr (Sync.partnerKey q) cands) partners)
      as [p'|] eqn:Ef.
    + exists p'. unfold Sync.findMatchingPartner. fold cands.
      destruct cands as [|c0 cs] eqn:Ec; [destruct Hk|].
      rewrite Ef. split; [reflexivity|]. split; [reflexivity|].
      apply find_some in Ef. destruct Ef as [Hin Hm].
      apply memStr_In in Hm. auto.
    + exfalso. apply (find_none _ _ Ef) in Hp.
      apply memStr_In in Hk. simpl in Hp. congruence.
  - intros Hno.
    assert (Ef : find (fun q => memStr (Sync.partnerKey q) cands) partners = None).
    { destruct (find _ partners) as [p'|] eqn:Ef; [|reflexivity].
      apply find_some in Ef. destruct Ef as [Hin Hm].
      apply memStr_In in Hm. exfalso. exact (Hno p' Hin Hm). }
    pose proof (sortBy_scores_head (l := Sync.scoresOf cands partners)) as Hhead.
    assert (Hone : forall s, In s (Sync.scoresOf cands partners) ->
                             Sync.s_score s = 1%Z).
    { intros s Hs. apply scoresOf_In in Hs.
      destruct Hs as [p [c [_ [_ [_ ->]]]]]. reflexivity. }
    specialize (Hhead Hone).
    split.
    + intros p Hp [c [Hc Hhit]].
      unfold Sync.findMatchingPartner. fold cands.
      destruct cands as [|c0 cs] eqn:Ec; [destruct Hc|].
      rewrite Ef.
      destruct (Sync.sortBy Sync.compareScores (Sync.scoresOf (c0 :: cs) partners))
        as [|s r] eqn:Es.
      * exfalso.
        assert (Hin : In {| Sync.s_p := p; Sync.s_score := 1;
                            Sync.s_len := Z.of_nat (List.length (Sync.partnerKey p)) |}
                         (Sync.scoresOf (c0 :: cs) partners)).
        { apply scoresOf_In. exists p, c. auto. }
        rewrite Hhead in Hin. destruct Hin.
      * destruct Hhead as [Hin Hmax].
        apply scoresOf_In in Hin.
        destruct Hin as [p' [c' [Hp' [Hc' [Hhit' Hs]]]]].
        exists p'. subst s. simpl.
        split; [reflexivity|]. split; [exact Hp'|].
        split; [exists c'; auto|].
        intros q Hq [cq [Hcq Hhq]].
        assert (Hinq : In {| Sync.s_p := q; Sync.s_score := 1;
                             Sync.s_len := Z.of_nat (List.length (Sync.partnerKey q)) |}
                          (Sync.scoresOf (c0 :: cs) partners)).
        { apply scoresOf_In. exists q, cq. auto. }
        specialize (Hmax _ Hinq). simpl in Hmax. lia.
    + intros Hnf. unfold Sync.findMatchingPartner. fold cands.
      destruct cands as [|c0 cs] eqn:Ec; [reflexivity|].
      rewrite Ef.
      destruct (Sync.sortBy Sync.compareScores (Sync.scoresOf (c0 :: cs) partners))
        as [|s r] eqn:Es; [reflexivity|].
      exfalso. destruct Hhead as [Hin _].
      apply scoresOf_In in Hin.
      destruct Hin as [p' [c' [Hp' [Hc' [Hhit' _]]]]].
      apply (Hnf p' Hp'). exists c'. auto.
Qed.

(** C5, witness: no key is a candidate of [John], both partners are fuzzy
    candidates, and the one with the longer key is returned. *)
Lemma C5_matching_order_witness :
  exists p',
    Sync.findMatchingPartner (U := asciiUnicode) (lit "John")
      [partnerJohn; partnerSmith] = Some p'
    /\ In p' [partnerJohn; partnerSmith]
    /\ fuzzyCandidate (U := asciiUnicode)
         (Sync.candidatesOf (U := asciiUnicode) (lit "John")) p'
    /\ forall q, In q [partnerJohn; partnerSmith] ->
         fuzzyCandidate (U := asciiUnicode)
           (Sync.candidatesOf (U := asciiUnicode) (lit "John")) q ->
         (List.length (Sync.partnerKey (U := asciiUnicode) q)
          <= List.length (Sync.partnerKey (U := asciiUnicode) p'))%nat.
Proof.
  refine (proj1 (proj2 (C5_matching_order asciiUnicode (lit "John")
                          [partnerJohn; partnerSmith]) _) partnerJohn _ _).
  - intros p [<-|[<-|[]]]; vm_compute; intros [H|[]]; discriminate.
  - left. reflexivity.
  - exists (lit "john"). split; [left; reflexivity | vm_compute; reflexivity].
Defined.

(** ** C10: the roster has each name once *)

Lemma memStr_cons (x y : jsstring) (l : list jsstring) :
  memStr x (y :: l) = str_eqb x y || memStr x l.
Proof. reflexivity. Qed.

Lemma memStr_app (x : jsstring) (l1 l2 : list jsstring) :
  memStr x (l1 ++ l2) = memStr x l1 || memStr x l2.
Proof. unfold memStr. apply existsb_app. Qed.

Lemma uniqFrom_snoc (seen l : list jsstring) (x : jsstring) :
  uniqFrom seen (l ++ [x])
  = uniqFrom seen l ++ (if memStr x seen || memStr x l then [] else [x]).
Proof.
  revert seen. induction l as [|y l IH]; intros seen; cbn [uniqFrom app].
  - change (memStr x []) with false. rewrite orb_false_r.
    destruct (memStr x seen); reflexivity.
  - destruct (memStr y seen) eqn:Ey.
    + rewrite IH. f_equal. rewrite memStr_cons.
      destruct (str_eqb x y) eqn:Exy; [|reflexivity].
      apply str_eqb_eq in Exy. subst y. rewrite Ey. reflexivity.
    + cbn [app]. rewrite IH. f_equal. f_equal. rewrite !memStr_cons.
      destruct (str_eqb x y), (memStr x seen), (memStr x l); reflexivity.
Qed.

Lemma uniq_snoc (l : list jsstring) (x : jsstring) :
  uniq (l ++ [x]) = uniq l ++ (if memStr x l then [] else [x]).
Proof. unfold uniq. rewrite uniqFrom_snoc. reflexivity. Qed.

Lemma uniqFrom_In (seen l : list jsstring) (x : jsstring) :
  In x (uniqFrom seen l) <-> In x l /\ ~ In x seen.
Proof.
  revert seen. induction l as [|y l IH]; intros seen; simpl; [tauto|].
  destruct (memStr y seen) eqn:Ey.
  - rewrite IH. apply memStr_In in Ey.
    split; [tauto|]. intros [[->|H] Hn]; [contradiction | tauto].
  - simpl. rewrite IH. simpl.
    assert (Hy : ~ In y seen)
      by (intros H; apply memStr_In in H; congruence).
    split.
    + intros [->|[H1 H2]]; [tauto|]. split; [tauto|]. intros H. apply H2. tauto.
    + intros [[->|H] Hn]; [tauto|].
      destruct (str_eqb y x) eqn:E.
      * apply str_eqb_eq in E. tauto.
      * apply str_eqb_neq in E. right. split; [exact H|].
        intros [H1|H1]; tauto.
Qed.

Lemma uniq_In (l : list jsstring) (x : jsstring) : In x (uniq l) <-> In x l.
Proof. unfold uniq. rewrite uniqFrom_In. simpl. tauto. Qed.

Lemma uniqFrom_NoDup (seen l : list jsstring) : NoDup (uniqFrom seen l).
Proof.
  revert seen. induction l as [|y l IH]; intros seen; simpl; [constructor|].
  destruct (memStr y seen); [apply IH|].
  constructor; [|apply IH].
  rewrite uniqFrom_In. simpl. tauto.
Qed.

Lemma uniq_NoDup (l : list jsstring) : NoDup (uniq l).
Proof. apply uniqFrom_NoDup. Qed.

(** The roster in the words of the claim: the fill-down-resolved name and
    equipment text of every row, then one entry per non-empty name, in the
    order of first occurrence, whose equipment is the text of the first
    row of that name merged with the texts of its later rows. *)

Definition filledName (customerKey : jsstring) (lastC : jsstring) (r : Odoo.row)
    : jsstring :=
  if truthy (trim (Odoo.cell r customerKey)) then trim (Odoo.cell r customerKey)
  else lastC.

Definition filledEquip (equipmentKey : option jsstring) (lastE : jsstring)
    (r : Odoo.row) : jsstring :=
  match equipmentKey with
  | Some k => if truthy (trim (Odoo.cell r k)) then trim (Odoo.cell r k) else lastE
  | None => lastE
  end.

Fixpoint fillDown (customerKey : jsstring) (equipmentKey : option jsstring)
    (lastC lastE : jsstring) (rows : list Odoo.row) : list (jsstring * jsstring) :=
  match rows with
  | [] => []
  | r :: t =>
      (filledName customerKey lastC r, filledEquip equipmentKey lastE r)
      :: fillDown customerKey equipmentKey
           (filledName customerKey lastC r) (filledEquip equipmentKey lastE r) t
  end.

Definition rosterNames (filled : list (jsstring * jsstring)) : list jsstring :=
  uniq (filter truthy (map fst filled)).

Definition rowsOf (nm : jsstring) (filled : list (jsstring * jsstring))
    : list (jsstring * jsstring) :=
  filter (fun p => str_eqb (fst p) nm) filled.

Definition mergedEquipment (nm : jsstring) (filled : list (jsstring * jsstring))
    : jsstring :=
  match rowsOf nm filled with
  | [] => []
  | first :: later =>
      fold_left (fun acc p => Odoo.mergeEquipment acc (snd p)) later (snd first)
  end.

Definition rosterEntries (filled : list (jsstring * jsstring)) : list Odoo.entry :=
  map (fun nm => {| Odoo.name := nm; Odoo.equipment := mergedEquipment nm filled |})
      (rosterNames filled).

Lemma findIndex_app {A} (p : A -> bool) (l1 l2 : list A) :
  Sync.findIndex p (l1 ++ l2)
  = match Sync.findIndex p l1 with
    | Some i => Some i
    | None => option_map (fun i => (List.length l1 + i)%nat) (Sync.findIndex p l2)
    end.
Proof.
  induction l1 as [|x l1 IH]; simpl.
  - destruct (Sync.findIndex p l2); reflexivity.
  - destruct (p x); [reflexivity|]. rewrite IH.
    destruct (Sync.findIndex p l1); [reflexivity|].
    destruct (Sync.findIndex p l2); reflexivity.
Qed.

Lemma findIndex_None {A} (p : A -> bool) (l : list A) :
  Sync.findIndex p l = None <-> forall x, In x l -> p x = false.
Proof.
  induction l as [|y l IH]; simpl.
  - split; [intros _ x []|reflexivity].
  - destruct (p y) eqn:E.
    + split; [discriminate|]. intros H. specialize (H y (or_introl eq_refl)).
      congruence.
    + destruct (Sync.findIndex p l) as [i|] eqn:Ei; simpl.
      * split; [discriminate|]. intros H.
        assert (Hn : Some i = None) by (apply IH; intros x Hx; apply H; auto).
        discriminate.
      * split; [|reflexivity]. intros _ x [<-|Hx]; [exact E|].
        apply (proj1 IH eq_refl). exact Hx.
Qed.

Lemma findIndex_Some_In {A} (p : A -> bool) (l : list A) (i : nat) :
  Sync.findIndex p l = Some i -> exists x, In x l /\ p x = true.
Proof.
  destruct (existsb p l) eqn:E.
  - intros _. apply existsb_exists in E. exact E.
  - intros H. exfalso.
    assert (Hn : Sync.findIndex p l = None).
    { apply findIndex_None. intros x Hx.
      destruct (p x) eqn:Ep; [|reflexivity].
      assert (existsb p l = true) by (apply existsb_exists; eauto).
      congruence. }
    congruence.
Qed.

(** Updating the entry at the index of [nm] in a list of entries built from
    distinct names touches the entry of [nm] alone. *)
Lemma updateEquipment_map (g : jsstring -> Odoo.entry) (f : jsstring -> jsstring)
    (nm : jsstring) (l : list jsstring) (i : nat) :
  NoDup l ->
  Sync.findIndex (fun n => str_eqb n nm) l = Some i ->
  Odoo.updateEquipment i f (map g l)
  = map (fun n => if str_eqb n nm
                  then {| Odoo.name := Odoo.name (g n);
                          Odoo.equipment := f (Odoo.equipment (g n)) |}
                  else g n) l.
Proof.
  revert i. induction l as [|x l IH]; intros i Hnd; simpl; [discriminate|].
  inversion Hnd as [|? ? Hx Hl]; subst.
  destruct (str_eqb x nm) eqn:E.
  - intros H. injection H as <-. simpl. f_equal.
    apply str_eqb_eq in E. subst x.
    symmetry. erewrite map_ext_in; [reflexivity|].
    intros n Hn. simpl.
    destruct (str_eqb n nm) eqn:En; [|reflexivity].
    apply str_eqb_eq in En. subst n. contradiction.
  - destruct (Sync.findIndex (fun n => str_eqb n nm) l) as [j|] eqn:Ej;
      simpl; [|discriminate].
    intros H. injection H as <-. simpl. f_equal. apply IH; auto.
Qed.

Lemma rowsOf_snoc (n : jsstring) (pre : list (jsstring * jsstring))
    (x : jsstring * jsstring) :
  rowsOf n (pre ++ [x])
  = rowsOf n pre ++ (if str_eqb (fst x) n then [x] else []).
Proof. unfold rowsOf. rewrite filter_app. reflexivity. Qed.

Lemma mergedEquipment_other (n nm e : jsstring) (pre : list (jsstring * jsstring)) :
  str_eqb nm n = false ->
  mergedEquipment n (pre ++ [(nm, e)]) = mergedEquipment n pre.
Proof.
  intros H. unfold mergedEquipment. rewrite rowsOf_snoc. simpl. rewrite H.
  rewrite app_nil_r. reflexivity.
Qed.

Lemma mergedEquipment_first (nm e : jsstring) (pre : list (jsstring * jsstring)) :
  rowsOf nm pre = [] ->
  mergedEquipment nm (pre ++ [(nm, e)]) = e.
Proof.
  intros H. unfold mergedEquipment. rewrite rowsOf_snoc, H. simpl.
  rewrite str_eqb_refl. reflexivity.
Qed.

Lemma mergedEquipment_later (nm e : jsstring) (pre : list (jsstring * jsstring)) :
  rowsOf nm pre <> [] ->
  mergedEquipment nm (pre ++ [(nm, e)])
  = Odoo.mergeEquipment (mergedEquipment nm pre) e.
Proof.
  intros H. unfold mergedEquipment. rewrite rowsOf_snoc. simpl.
  rewrite str_eqb_refl.
  destruct (rowsOf nm pre) as [|first later]; [congruence|].
  simpl. rewrite fold_left_app. reflexivity.
Qed.

Lemma rowsOf_nil (nm : jsstring) (pre : list (jsstring * jsstring)) :
  rowsOf nm pre = [] <-> ~ In nm (map fst pre).
Proof.
  unfold rowsOf. induction pre as [|[n e] pre IH]; simpl; [tauto|].
  destruct (str_eqb n nm) eqn:E.
  - apply str_eqb_eq in E. subst. split; [discriminate|tauto].
  - apply str_eqb_neq in E. rewrite IH. tauto.
Qed.

Lemma In_rosterNames (nm : jsstring) (pre : list (jsstring * jsstring)) :
  In nm (rosterNames pre) <-> In nm (map fst pre) /\ nm <> [].
Proof.
  unfold rosterNames. rewrite uniq_In, filter_In.
  destruct nm; simpl; intuition congruence.
Qed.

(** One iteration of the row loop, in terms of the filled-down values. *)
Lemma readRow_eq (key : jsstring) (ekey : option jsstring) (st : Odoo.reader)
    (r : Odoo.row) :
  let nm := filledName key (Odoo.lastCustomer st) r in
  let e := filledEquip ekey (Odoo.lastEquipment st) r in
  Odoo.readRow key ekey st r
  = if negb (truthy nm) then
      {| Odoo.lastCustomer := nm; Odoo.lastEquipment := e;
         Odoo.customers := Odoo.customers st; Odoo.seen := Odoo.seen st |}
    else
      match Odoo.seenGet nm (Odoo.seen st) with
      | Some i =>
          {| Odoo.lastCustomer := nm; Odoo.lastEquipment := e;
             Odoo.customers :=
               Odoo.updateEquipment i (fun old => Odoo.mergeEquipment old e)
                 (Odoo.customers st);
             Odoo.seen := Odoo.seen st |}
      | None =>
          {| Odoo.lastCustomer := nm; Odoo.lastEquipment := e;
             Odoo.customers :=
               Odoo.customers st ++ [{| Odoo.name := nm; Odoo.equipment := e |}];
             Odoo.seen := (nm, List.length (Odoo.customers st)) :: Odoo.seen st |}
      end.
Proof.
  intros nm e.
  assert (Hn : (if truthy nm then nm else Odoo.lastCustomer st) = nm).
  { unfold nm, filledName.
    destruct (truthy (trim (Odoo.cell r key))) eqn:E; [rewrite E; reflexivity|].
    destruct (truthy (Odoo.lastCustomer st)); reflexivity. }
  assert (He : (if truthy e then e else Odoo.lastEquipment st) = e).
  { unfold e, filledEquip. destruct ekey as [k|].
    - destruct (truthy (trim (Odoo.cell r k))) eqn:E; [rewrite E; reflexivity|].
      destruct (truthy (Odoo.lastEquipment st)); reflexivity.
    - destruct (truthy (Odoo.lastEquipment st)); reflexivity. }
  assert (Ee : (if truthy match ekey with
                          | Some k => trim (Odoo.cell r k)
                          | None => []
                          end
                then match ekey with
                     | Some k => trim (Odoo.cell r k)
                     | None => []
                     end
                else Odoo.lastEquipment st) = e).
  { unfold e, filledEquip. destruct ekey; reflexivity. }
  unfold Odoo.readRow. cbv zeta. rewrite Ee.
  change (if truthy (trim (Odoo.cell r key)) then trim (Odoo.cell r key)
          else Odoo.lastCustomer st) with nm.
  rewrite Hn, He. reflexivity.
Qed.

(** The invariant of the row loop after the rows whose filled-down values
    are [pre]: the entries are those of the claim, and the Map [seen]
    gives every name its index. *)
Definition readerInv (st : Odoo.reader) (pre : list (jsstring * jsstring)) : Prop :=
  Odoo.customers st = rosterEntries pre
  /\ forall nm, Odoo.seenGet nm (Odoo.seen st)
                = Sync.findIndex (fun n => str_eqb n nm) (rosterNames pre).

Lemma rosterNames_snoc (pre : list (jsstring * jsstring)) (nm e : jsstring) :
  rosterNames (pre ++ [(nm, e)])
  = rosterNames pre
    ++ (if truthy nm
        then (if memStr nm (filter truthy (map fst pre)) then [] else [nm])
        else []).
Proof.
  unfold rosterNames. rewrite map_app, filter_app. simpl.
  destruct (truthy nm).
  - apply uniq_snoc.
  - rewrite !app_nil_r. reflexivity.
Qed.

Lemma rosterEntries_ext (pre pre' : list (jsstring * jsstring)) (l : list jsstring) :
  (forall n, In n l -> mergedEquipment n pre' = mergedEquipment n pre) ->
  map (fun n => {| Odoo.name := n; Odoo.equipment := mergedEquipment n pre' |}) l
  = map (fun n => {| Odoo.name := n; Odoo.equipment := mergedEquipment n pre |}) l.
Proof.
  intros H. apply map_ext_in. intros n Hn. rewrite (H n Hn). reflexivity.
Qed.

Lemma readRow_step (key : jsstring) (ekey : option jsstring) (st : Odoo.reader)
    (pre : list (jsstring * jsstring)) (r : Odoo.row) :
  readerInv st pre ->
  readerInv (Odoo.readRow key ekey st r)
    (pre ++ [(filledName key (Odoo.lastCustomer st) r,
              filledEquip ekey (Odoo.lastEquipment st) r)])
  /\ Odoo.lastCustomer (Odoo.readRow key ekey st r)
     = filledName key (Odoo.lastCustomer st) r
  /\ Odoo.lastEquipment (Odoo.readRow key ekey st r)
     = filledEquip ekey (Odoo.lastEquipment st) r.
Proof.
  intros [Hc Hs]. rewrite readRow_eq. cbv zeta.
  set (nm := filledName key (Odoo.lastCustomer st) r).
  set (e := filledEquip ekey (Odoo.lastEquipment st) r).
  pose proof (rosterNames_snoc pre nm e) as Hnames.
  destruct (truthy nm) eqn:Et; simpl.
  - (* a row with a name *)
    rewrite Hs.
    destruct (Sync.findIndex (fun n => str_eqb n nm) (rosterNames pre))
      as [i|] eqn:Ei.
    + (* the name is already in the roster *)
      assert (Hin : In nm (rosterNames pre)).
      { apply findIndex_Some_In in Ei. destruct Ei as [x [Hx Ex]].
        apply str_eqb_eq in Ex. subst x. exact Hx. }
      assert (Hmem : memStr nm (filter truthy (map fst pre)) = true).
      { apply memStr_In. unfold rosterNames in Hin.
        apply (proj1 (uniq_In _ _)) in Hin. exact Hin. }
      rewrite Hmem, app_nil_r in Hnames.
      split; [|split; reflexivity].
      split; simpl.
      * rewrite Hc. unfold rosterEntries. rewrite Hnames.
        rewrite (updateEquipment_map _ _ (uniq_NoDup _) Ei).
        apply map_ext_in. intros n Hn. simpl.
        destruct (str_eqb n nm) eqn:En.
        -- apply str_eqb_eq in En. subst n.
           rewrite mergedEquipment_later; [reflexivity|].
           intros H. apply (proj1 (rowsOf_nil _ _)) in H.
           apply (proj1 (In_rosterNames _ _)) in Hin. tauto.
        -- rewrite mergedEquipment_other; [reflexivity|].
           apply str_eqb_neq. apply str_eqb_neq in En. congruence.
      * intros n. rewrite Hnames. apply Hs.
    + (* a new name *)
      assert (Hnin : ~ In nm (rosterNames pre)).
      { intros H. pose proof (proj1 (findIndex_None _ _) Ei nm H) as Hf.
        simpl in Hf. rewrite str_eqb_refl in Hf. discriminate. }
      assert (Hmem : memStr nm (filter truthy (map fst pre)) = false).
      { destruct (memStr nm (filter truthy (map fst pre))) eqn:E; [|reflexivity].
        exfalso. apply Hnin. unfold rosterNames. apply (proj2 (uniq_In _ _)).
        apply (proj1 (memStr_In _ _)). exact E. }
      rewrite Hmem in Hnames.
      split; [|split; reflexivity].
      split; simpl.
      * rewrite Hc. unfold rosterEntries. rewrite Hnames, map_app. simpl.
        f_equal.
        -- symmetry. apply rosterEntries_ext. intros n Hn.
           apply mergedEquipment_other. apply str_eqb_neq.
           intros ->. contradiction.
        -- rewrite mergedEquipment_first; [reflexivity|].
           apply (proj2 (rowsOf_nil _ _)). intros H. apply Hnin.
           apply (proj2 (In_rosterNames _ _)). split; [exact H|].
           intros Hnil. rewrite Hnil in Et. discriminate.
      * intros n. rewrite Hnames, findIndex_app. unfold Odoo.seenGet. simpl.
        fold (Odoo.seenGet n (Odoo.seen st)). rewrite <- Hs.
        destruct (str_eqb nm n) eqn:En.
        -- apply str_eqb_eq in En. subst n. rewrite Hs, Ei. simpl.
           rewrite Nat.add_0_r, Hc. unfold rosterEntries.
           rewrite length_map. reflexivity.
        -- destruct (Odoo.seenGet n (Odoo.seen st)) eqn:Eg.
           ++ unfold Odoo.seenGet in Eg. 
              destruct (find (fun kv => str_eqb (fst kv) n) (Odoo.seen st));
                [injection Eg as <-; reflexivity | discriminate].
           ++ unfold Odoo.seenGet in Eg.
              destruct (find (fun kv => str_eqb (fst kv) n) (Odoo.seen st));
                [discriminate | reflexivity].
  - (* a row without a name, even after fill-down *)
    apply (proj1 (truthy_false _)) in Et.
    rewrite app_nil_r in Hnames.
    split; [|split; reflexivity].
    split; simpl.
    + rewrite Hc. unfold rosterEntries. rewrite Hnames.
      symmetry. apply rosterEntries_ext. intros n Hn.
      apply mergedEquipment_other. apply str_eqb_neq.
      apply (proj1 (In_rosterNames _ _)) in Hn. rewrite Et.
      intros H. symmetry in H. tauto.
    + intros n. rewrite Hnames. apply Hs.
Qed.

Lemma readRows_from (key : jsstring) (ekey : option jsstring)
    (rows : list Odoo.row) (st : Odoo.reader) (pre : list (jsstring * jsstring)) :
  readerInv st pre ->
  readerInv (fold_left (Odoo.readRow key ekey) rows st)
    (pre ++ fillDown key ekey (Odoo.lastCustomer st) (Odoo.lastEquipment st) rows).
Proof.
  revert st pre. induction rows as [|r rows IH]; intros st pre Hinv; simpl.
  - rewrite app_nil_r. exact Hinv.
  - destruct (readRow_step key ekey r Hinv) as [Hinv' [Hc He]].
    specialize (IH _ _ Hinv'). rewrite Hc, He in IH.
    rewrite <- app_assoc in IH. exact IH.
Qed.

Lemma mergeEquipment_formula (a b : jsstring) :
  Odoo.mergeEquipment a b
  = join (lit "; ")
      (uniq (filter truthy
               (map trim (splitRuns Odoo.isSep a ++ splitRuns Odoo.isSep b)))).
Proof.
  unfold Odoo.mergeEquipment.
  destruct a as [|x a], b as [|y b]; cbn [truthy negb andb];
    rewrite ?map_app, ?filter_app; reflexivity.
Qed.

(** C10. Whenever the sheet has rows and the customer column is found,
    [readCustomersFromXlsx] returns a roster in which every non-empty,
    fill-down-resolved name occurs exactly once, in the order of first
    occurrence; the equipment of an entry is the text of the first row of
    its name, merged in row order with the text of every later row of that
    name; and merging two texts splits both at runs of semicolon, comma,
    newline and bar, trims the fragments, drops the empty ones, removes
    duplicates and joins what is left with a semicolon and a space. A sheet
    without rows gives the empty roster. *)
Theorem C10_roster_names_unique (U : Unicode) (first : Odoo.row)
    (rest : list Odoo.row) (customerColumn equipmentColumn key : jsstring) :
  Odoo.findKey (map fst first) customerColumn = Some key ->
  let filled :=
    fillDown key (Odoo.findKey (map fst first) equipmentColumn) [] []
      (first :: rest) in
  exists out,
    Odoo.readCustomersFromXlsx (Some (first :: rest)) customerColumn equipmentColumn
    = Return out
    /\ NoDup (map Odoo.name out)
    /\ map Odoo.name out = uniq (filter truthy (map fst filled))
    /\ (forall nm, In nm (map Odoo.name out) <-> In nm (map fst filled) /\ nm <> [])
    /\ (forall e, In e out ->
          Odoo.equipment e = mergedEquipment (Odoo.name e) filled)
    /\ (forall a b,
          Odoo.mergeEquipment a b
          = join (lit "; ")
              (uniq (filter truthy
                 (map trim (splitRuns Odoo.isSep a ++ splitRuns Odoo.isSep b)))))
    /\ Odoo.readCustomersFromXlsx (Some []) customerColumn equipmentColumn
       = Return [].
Proof.
  intros Hkey filled.
  exists (rosterEntries filled).
  assert (Hnames : map Odoo.name (rosterEntries filled) = rosterNames filled).
  { unfold rosterEntries. rewrite map_map. simpl. apply map_id. }
  split; [|split; [|split; [|split; [|split; [|split]]]]].
  - unfold Odoo.readCustomersFromXlsx. rewrite Hkey. f_equal.
    unfold Odoo.readRows.
    assert (Hinv0 : readerInv
              {| Odoo.lastCustomer := []; Odoo.lastEquipment := [];
                 Odoo.customers := []; Odoo.seen := [] |} []).
    { split; [reflexivity|]. intros nm. reflexivity. }
    pose proof (readRows_from key
                  (Odoo.findKey (map fst first) equipmentColumn)
                  (first :: rest) Hinv0) as [Hc _].
    exact Hc.
  - rewrite Hnames. apply uniq_NoDup.
  - rewrite Hnames. reflexivity.
  - intros nm. rewrite Hnames. apply In_rosterNames.
  - intros e He. unfold rosterEntries in He. apply in_map_iff in He.
    destruct He as [n [<- _]]. reflexivity.
  - apply mergeEquipment_formula.
  - reflexivity.
Qed.

Definition sampleSheet : list Odoo.row :=
  [ [(lit "Cliente", lit "ACME"); (lit "Equipamentos", lit "Gerador x2")];
    [(lit "Cliente", lit ""); (lit "Equipamentos", lit "Compressor, Gerador x2")];
    [(lit "Cliente", lit "Beta"); (lit "Equipamentos", lit "")];
    [(lit "Cliente", lit " ACME "); (lit "Equipamentos", lit "Bomba | Compressor")] ].

(** C10, witness: a sheet of four rows in which ACME occurs three times,
    once by fill-down. *)
Lemma C10_roster_names_unique_witness :
  exists out,
    Odoo.readCustomersFromXlsx (U := asciiUnicode) (Some sampleSheet)
      (lit "Cliente") (lit "Equipamentos") = Return out
    /\ NoDup (map Odoo.name out)
    /\ out = [ {| Odoo.name := lit "ACME";
                  Odoo.equipment := lit "Gerador x2; Compressor; Bomba" |};
               {| Odoo.name := lit "Beta";
                  Odoo.equipment := lit "Compressor, Gerador x2" |} ].
Proof.
  destruct (@C10_roster_names_unique asciiUnicode
              (hd [] sampleSheet) (tl sampleSheet)
              (lit "Cliente") (lit "Equipamentos") (lit "Cliente") eq_refl)
    as [out [Hret [Hnd _]]].
  exists out. split; [exact Hret|]. split; [exact Hnd|].
  change (hd [] sampleSheet :: tl sampleSheet) with sampleSheet in Hret.
  assert (E : Odoo.readCustomersFromXlsx (U := asciiUnicode) (Some sampleSheet)
                (lit "Cliente") (lit "Equipamentos")
              = Return [ {| Odoo.name := lit "ACME";
                            Odoo.equipment := lit "Gerador x2; Compressor; Bomba" |};
                         {| Odoo.name := lit "Beta";
                            Odoo.equipment := lit "Compressor, Gerador x2" |} ])
    by (vm_compute; reflexivity).
  rewrite E in Hret. injection Hret as Hret. symmetry. exact Hret.
Defined.

(** ** C3: the pause window *)


(** The persisted [paused_since], in seconds. *)
Definition pausedSince (w : world) : option Z :=
  match sync_state w with
  | Some r => paused_since r
  | None => None
  end.






(** ** C2: resuming from the cursor *)

(** [k] is the first index of [l] whose element satisfies [p]. *)
Definition firstAt {A} (p : A -> bool) (l : list A) (k : nat) : Prop :=
  (exists x, nth_error l k = Some x /\ p x = true)
  /\ forall j y, (j < k)%nat -> nth_error l j = Some y -> p y = false.

Lemma findIndex_firstAt {A} (p : A -> bool) (l : list A) (k : nat) :
  Sync.findIndex p l = Some k <-> firstAt p l k.
Proof.
  revert k. induction l as [|x l IH]; intros k; simpl.
  - split; [discriminate|]. intros [[y [H _]] _]. destruct k; discriminate.
  - destruct (p x) eqn:E.
    + split.
      * intros H. injection H as <-. split; [exists x; auto|].
        intros j y Hj. lia.
      * intros [[y [Hy Hp]] Hmin]. destruct k as [|k]; [reflexivity|].
        specialize (Hmin O x (Nat.lt_0_succ k) eq_refl). congruence.
    + destruct (Sync.findIndex p l) as [i|] eqn:Ei; simpl.
      * split.
        -- intros H. injection H as <-.
           destruct (proj1 (IH i) eq_refl) as [[y [Hy Hp]] Hmin].
           split; [exists y; auto|].
           intros [|j] z Hj Hz; simpl in Hz.
           ++ injection Hz as <-. exact E.
           ++ apply (Hmin j z); [lia | exact Hz].
        -- intros [[y [Hy Hp]] Hmin]. destruct k as [|k]; simpl in Hy.
           ++ injection Hy as <-. congruence.
           ++ f_equal. f_equal.
              assert (Hk : Some i = Some k).
              { apply IH. split; [exists y; auto|].
                intros j z Hj Hz. apply (Hmin (S j) z); [lia | exact Hz]. }
              injection Hk as ->. reflexivity.
      * split; [discriminate|].
        intros [[y [Hy Hp]] Hmin]. destruct k as [|k]; simpl in Hy.
        -- injection Hy as <-. congruence.
        -- assert (Hk : None = Some k).
           { apply IH. split; [exists y; auto|].
             intros j z Hj Hz. apply (Hmin (S j) z); [lia | exact Hz]. }
           discriminate.
Qed.

(** The entry that the cursor refers to sits at index [k] of [itens]: it
    is the first entry whose partner has the CRM id of the cursor or, when
    the cursor holds no CRM id, the first entry whose normalized name is
    the normalized entry name of the cursor. *)
Definition cursorRefers {U : Unicode} (cursor : sync_row)
    (itens : list Sync.matched) (k : nat) : Prop :=
  let byName :=
    match last_entry_name cursor with
    | Some nm => nm <> [] /\ firstAt (Sync.hasEntryName (Sync.norm nm)) itens k
    | None => False
    end in
  match last_odoo_id cursor with
  | Some id => if Z.eqb id 0 then byName
               else firstAt (Sync.hasPartnerId id) itens k
  | None => byName
  end.

Lemma startIndex_refers {U : Unicode} (cursor : sync_row)
    (itens : list Sync.matched) :
  (forall k, cursorRefers cursor itens k -> Sync.startIndex cursor itens = S k)
  /\ ((forall k, ~ cursorRefers cursor itens k) ->
      Sync.startIndex cursor itens = O).
Proof.
  unfold cursorRefers, Sync.startIndex, Sync.truthyId.
  destruct (last_odoo_id cursor) as [id|].
  - destruct (Z.eqb id 0); simpl.
    + destruct (last_entry_name cursor) as [nm|].
      * destruct nm as [|c nm]; simpl.
        -- split; [intros k [H _]; congruence | reflexivity].
        -- split.
           ++ intros k [_ H]. apply findIndex_firstAt in H. rewrite H. reflexivity.
           ++ intros H.
              destruct (Sync.findIndex _ itens) as [pos|] eqn:E; [|reflexivity].
              apply findIndex_firstAt in E. exfalso. apply (H pos).
              split; [discriminate | exact E].
      * split; [intros k [] | reflexivity].
    + split.
      * intros k H. apply findIndex_firstAt in H. rewrite H. reflexivity.
      * intros H.
        destruct (Sync.findIndex _ itens) as [pos|] eqn:E; [|reflexivity].
        apply findIndex_firstAt in E. exfalso. exact (H pos E).
  - simpl. destruct (last_entry_name cursor) as [nm|].
    + destruct nm as [|c nm]; simpl.
      * split; [intros k [H _]; congruence | reflexivity].
      * split.
        -- intros k [_ H]. apply findIndex_firstAt in H. rewrite H. reflexivity.
        -- intros H.
           destruct (Sync.findIndex _ itens) as [pos|] eqn:E; [|reflexivity].
           apply findIndex_firstAt in E. exfalso. apply (H pos).
           split; [discriminate | exact E].
    + split; [intros k [] | reflexivity].
Qed.

Definition eventIndex (ev : Sync.event) : nat :=
  match ev with
  | Sync.NotInOdoo i => i
  | Sync.Processed i _ => i
  | Sync.EntryError i _ => i
  | Sync.Halted i _ => i
  end.

(** The iteration on entry [it] left the event [ev]: [processarCliente]
    was called unless the entry has no partner. *)
Definition visit (it : Sync.matched) (ev : Sync.event) : Prop :=
  eventIndex ev = Sync.idx it
  /\ (Sync.m_partner it = None <-> ev = Sync.NotInOdoo (Sync.idx it)).

(** The loop ran on the entries [its], one after the other, and on no
    other entry. *)
Definition visits (its : list Sync.matched) (log : list Sync.event) : Prop :=
  Forall2 visit its log.

(** The pass that ended with [r] ran on the entries [its]: on all of them
    in list order when it completed, on an initial part of them, the last
    of which raised the fatal network condition, when it was interrupted. *)
Definition covers (its : list Sync.matched) (r : Sync.pass) : Prop :=
  match r with
  | Sync.Completed log => visits its log
  | Sync.Interrupted log =>
      exists m, (m < List.length its)%nat
                /\ visits (firstn (S m) its) log
                /\ exists log0 i reason, log = log0 ++ [Sync.Halted i reason]
  | _ => False
  end.

Section Driver.

Context {U : Unicode}.
Variable geocode : jsstring -> jsstring -> M (option Geocode.geo).
Variable sameNome : jsstring -> jsstring -> bool.

Lemma processEntry_returns (it : Sync.matched) (p : partner) (w : world) :
  exists ev w',
    Sync.processEntry geocode sameNome it p w = (Return ev, w')
    /\ eventIndex ev = Sync.idx it
    /\ (forall i, ev <> Sync.NotInOdoo i).
Proof.
  unfold Sync.processEntry, tryCatch, bind.
  destruct (Sync.processarCliente geocode sameNome p (Some (Sync.m_entry it)) w)
    as [[ok|err] w1].
  - destruct ok; simpl; eexists; eexists; (split; [reflexivity|]);
      split; try reflexivity; discriminate.
  - destruct (Sync.isFatal err); simpl; eexists; eexists;
      (split; [reflexivity|]); split; try reflexivity; discriminate.
Qed.

Lemma mainLoop_visits (l : list Sync.matched) (w : world) :
  exists b log w',
    Sync.mainLoop geocode sameNome l w = (Return (b, log), w')
    /\ (b = false -> visits l log)
    /\ (b = true ->
        exists m, (m < List.length l)%nat
                  /\ visits (firstn (S m) l) log
                  /\ exists log0 i reason, log = log0 ++ [Sync.Halted i reason]).
Proof.
  revert w. induction l as [|it rest IH]; intros w.
  - exists false, [], w. split; [reflexivity|].
    split; [intros _; constructor | discriminate].
  - cbn [Sync.mainLoop].
    destruct (Sync.m_partner it) as [p|] eqn:Ep.
    + destruct (processEntry_returns it p w) as [ev [w1 [E [Hi Hn]]]].
      unfold bind at 1. rewrite E.
      assert (Hv : visit it ev).
      { split; [exact Hi|]. rewrite Ep. split; [discriminate|].
        intros H. exfalso. exact (Hn _ H). }
      destruct (IH w1) as [b [log [w2 [E2 [Hf Ht]]]]].
      destruct ev as [i|i ok|i e|i reason].
      * exfalso. exact (Hn i eq_refl).
      * unfold bind. rewrite E2. exists b, (Sync.Processed i ok :: log), w2.
        split; [reflexivity|]. split.
        -- intros Hb. constructor; [exact Hv | exact (Hf Hb)].
        -- intros Hb. destruct (Ht Hb) as [m [Hm [Hvs [log0 [j [rs Hl]]]]]].
           exists (S m). split; [simpl; lia|]. split.
           ++ change (firstn (S (S m)) (it :: rest)) with (it :: firstn (S m) rest).
              constructor; [exact Hv | exact Hvs].
           ++ exists (Sync.Processed i ok :: log0), j, rs. rewrite Hl. reflexivity.
      * unfold bind. rewrite E2. exists b, (Sync.EntryError i e :: log), w2.
        split; [reflexivity|]. split.
        -- intros Hb. constructor; [exact Hv | exact (Hf Hb)].
        -- intros Hb. destruct (Ht Hb) as [m [Hm [Hvs [log0 [j [rs Hl]]]]]].
           exists (S m). split; [simpl; lia|]. split.
           ++ change (firstn (S (S m)) (it :: rest)) with (it :: firstn (S m) rest).
              constructor; [exact Hv | exact Hvs].
           ++ exists (Sync.EntryError i e :: log0), j, rs. rewrite Hl. reflexivity.
      * exists true, [Sync.Halted i reason], w1.
        split; [reflexivity|]. split; [discriminate|].
        intros _. exists O. split; [simpl; lia|]. split.
        -- simpl. constructor; [exact Hv | constructor].
        -- exists [], i, reason. reflexivity.
    + destruct (IH w) as [b [log [w2 [E2 [Hf Ht]]]]].
      unfold bind. rewrite E2.
      assert (Hv : visit it (Sync.NotInOdoo (Sync.idx it))).
      { split; [reflexivity|]. rewrite Ep. tauto. }
      exists b, (Sync.NotInOdoo (Sync.idx it) :: log), w2.
      split; [reflexivity|]. split.
      * intros Hb. constructor; [exact Hv | exact (Hf Hb)].
      * intros Hb. destruct (Ht Hb) as [m [Hm [Hvs [log0 [j [rs Hl]]]]]].
        exists (S m). split; [simpl; lia|]. split.
        -- change (firstn (S (S m)) (it :: rest)) with (it :: firstn (S m) rest).
           constructor; [exact Hv | exact Hvs].
        -- exists (Sync.NotInOdoo (Sync.idx it) :: log0), j, rs.
           rewrite Hl. reflexivity.
Qed.

Lemma buildItens_idx (i : nat) (requested : list Odoo.entry)
    (customers : list partner) :
  map Sync.idx (Sync.buildItens i requested customers)
  = seq i (List.length requested).
Proof.
  revert i. induction requested as [|e t IH]; intros i; simpl; [reflexivity|].
  rewrite IH. reflexivity.
Qed.

Lemma reconcile_covers (requested : list Odoo.entry) (customers : list partner)
    (w : world) :
  exists r w',
    Sync.reconcile geocode sameNome requested customers w = (Return r, w')
    /\ covers
         (skipn (Sync.startIndex
                   (match sync_state w with
                    | Some c => c
                    | None => Sync.emptySyncRow
                    end)
                   (Sync.buildItens 0 requested customers))
                (Sync.buildItens 0 requested customers)) r.
Proof.
  unfold Sync.reconcile, bind at 1, Sync.getSyncCursor.
  set (its := skipn _ _).
  destruct (mainLoop_visits its w) as [b [log [w' [E [Hf Ht]]]]].
  unfold bind. rewrite E. simpl.
  destruct b; eexists; eexists; (split; [reflexivity|]); simpl; auto.
Qed.

End Driver.

(** C2 (amended). The list [itens] holds the entries of the roster under the indices
    0 to n-1. The pass always ends, completed or interrupted. If the
    entry that the persisted cursor refers to (by CRM id or, when the
    cursor holds no CRM id, by normalized entry name) sits at index k, a
    completed pass has run on exactly the entries k+1 to n-1, in list
    order; if no cursor is persisted or its entry is not in the list, a
    completed pass has run on the entries 0 to n-1. In both cases
    [processarCliente] is called on the entries that have a partner, and
    a pass interrupted by the fatal network condition has run on an
    initial part of those entries. *)
Theorem C2_resume_from_cursor (U : Unicode)
    (geocode : jsstring -> jsstring -> M (option Geocode.geo))
    (sameNome : jsstring -> jsstring -> bool)
    (requested : list Odoo.entry) (customers : list partner) (w : world) :
  let itens := Sync.buildItens 0 requested customers in
  let cursor := match sync_state w with
                | Some c => c
                | None => Sync.emptySyncRow
                end in
  exists r w',
    Sync.reconcile geocode sameNome requested customers w = (Return r, w')
    /\ map Sync.idx itens = seq 0 (List.length requested)
    /\ (forall k, cursorRefers cursor itens k -> covers (skipn (S k) itens) r)
    /\ ((forall k, ~ cursorRefers cursor itens k) -> covers itens r).
Proof.
  intros itens cursor.
  destruct (reconcile_covers geocode sameNome requested customers w)
    as [r [w' [E Hc]]].
  fold itens in Hc. fold cursor in Hc.
  exists r, w'. split; [exact E|]. split; [apply buildItens_idx|].
  destruct (startIndex_refers cursor itens) as [Hk H0].
  split.
  - intros k Href. rewrite (Hk k Href) in Hc. exact Hc.
  - intros Hnone. rewrite (H0 Hnone) in Hc. exact Hc.
Qed.

Definition entryNamed (nm eq : string) : Odoo.entry :=
  {| Odoo.name := lit nm; Odoo.equipment := lit eq |}.

Definition threeEntries : list Odoo.entry :=
  [entryNamed "Alfa" ""; entryNamed "Beta" ""; entryNamed "Gama" ""].

Definition threePartners : list partner :=
  [ partnerNamed 11 (Some (lit "Alfa")) (Some (lit "Alfa"));
    partnerNamed 12 (Some (lit "Beta")) (Some (lit "Beta"));
    partnerNamed 13 (Some (lit "Gama")) (Some (lit "Gama")) ].

(** A world whose cursor points at partner 12, the entry of index 1. *)
Definition resumedWorld : world :=
  {| clock := 0; requests := 0; clientes := []; next_cliente_id := 1;
     equipamentos := [];
     sync_state := Some {| last_odoo_id := Some 12%Z;
                           last_entry_name := Some (lit "Beta");
                           paused_since := None; paused_reason := None |};
     clearedPauseOnStartup := true |}.

(** C2, witness: with the cursor on the entry of index 1 of three, the
    pass runs on the entry of index 2 alone. *)
Lemma C2_resume_from_cursor_witness :
  exists r w',
    Sync.reconcile (U := asciiUnicode)
      (Geocode.geocode (U := asciiUnicode) refusingNet axiosError None)
      str_eqb threeEntries threePartners resumedWorld = (Return r, w')
    /\ covers (skipn 2 (Sync.buildItens (U := asciiUnicode) 0
                          threeEntries threePartners)) r
    /\ r = Sync.Completed [Sync.Processed 2 true].
Proof.
  destruct (@C2_resume_from_cursor asciiUnicode
              (Geocode.geocode (U := asciiUnicode) refusingNet axiosError None)
              str_eqb threeEntries threePartners resumedWorld)
    as [r [w' [E [_ [Hk _]]]]].
  exists r, w'. split; [exact E|]. split.
  - apply (Hk 1%nat). unfold cursorRefers. simpl.
    apply findIndex_firstAt. vm_compute. reflexivity.
  - assert (E' : fst (Sync.reconcile (U := asciiUnicode)
                        (Geocode.geocode (U := asciiUnicode) refusingNet
                           axiosError None)
                        str_eqb threeEntries threePartners resumedWorld)
                 = Return (Sync.Completed [Sync.Processed 2 true]))
      by (vm_compute; reflexivity).
    rewrite E in E'. simpl in E'. injection E' as E'. exact E'.
Defined.

(** A world whose cursor holds a CRM id that no partner has, and the name
    of the entry of index 1. *)
Definition staleIdWorld : world :=
  {| clock := 0; requests := 0; clientes := []; next_cliente_id := 1;
     equipamentos := [];
     sync_state := Some {| last_odoo_id := Some 99%Z;
                           last_entry_name := Some (lit "Beta");
                           paused_since := None; paused_reason := None |};
     clearedPauseOnStartup := true |}.

(** C2, as stated, fails: the entry name of the cursor is consulted only
    when the cursor holds no CRM id. Here the id of the cursor is found in
    no entry while its name is that of the entry of index 1, and the pass
    runs on the entries 0 to 2, not on the entry 2 alone. *)
Lemma C2_name_is_ignored_when_an_id_is_stored :
  Sync.findIndex (Sync.hasPartnerId 99)
    (Sync.buildItens (U := asciiUnicode) 0 threeEntries threePartners) = None
  /\ Sync.findIndex (Sync.hasEntryName (U := asciiUnicode)
                       (Sync.norm (U := asciiUnicode) (lit "Beta")))
       (Sync.buildItens (U := asciiUnicode) 0 threeEntries threePartners)
     = Some 1%nat
  /\ fst (Sync.reconcile (U := asciiUnicode)
            (Geocode.geocode (U := asciiUnicode) refusingNet axiosError None)
            str_eqb threeEntries threePartners staleIdWorld)
     = Return (Sync.Completed [Sync.Processed 0 true; Sync.Processed 1 true;
                               Sync.Processed 2 true]).
Proof. vm_compute. repeat split; reflexivity. Qed.

(** ** The effects of geocode.js *)

(** The store, the cursor and the flag of [w'] are those of [w]. *)
Definition sameStore (w w' : world) : Prop :=
  clientes w' = clientes w
  /\ next_cliente_id w' = next_cliente_id w
  /\ equipamentos w' = equipamentos w
  /\ sync_state w' = sync_state w
  /\ clearedPauseOnStartup w' = clearedPauseOnStartup w.

(** A computation that leaves the store alone. *)
Definition frames {A} (m : M A) : Prop := forall w, sameStore w (snd (m w)).

Lemma sameStore_refl (w : world) : sameStore w w.
Proof. repeat split. Qed.

Lemma sameStore_trans (w1 w2 w3 : world) :
  sameStore w1 w2 -> sameStore w2 w3 -> sameStore w1 w3.
Proof.
  unfold sameStore. intros [A1 [A2 [A3 [A4 A5]]]] [B1 [B2 [B3 [B4 B5]]]].
  repeat split; congruence.
Qed.

Lemma frames_ret {A} (a : A) : frames (ret a).
Proof. intros w. apply sameStore_refl. Qed.

Lemma frames_throw {A} (e : error) : frames (throw (A := A) e).
Proof. intros w. apply sameStore_refl. Qed.

Lemma frames_sleep (ms : Z) : frames (sleep ms).
Proof. intros w. repeat split. Qed.

Lemma frames_bind {A B} (m : M A) (f : A -> M B) :
  frames m -> (forall a, frames (f a)) -> frames (bind m f).
Proof.
  intros Hm Hf w. unfold bind. specialize (Hm w).
  destruct (m w) as [[a|e] w1]; simpl in *; [|exact Hm].
  eapply sameStore_trans; [exact Hm | apply Hf].
Qed.

Lemma frames_tryCatch {A} (m : M A) (h : error -> M A) :
  frames m -> (forall e, frames (h e)) -> frames (tryCatch m h).
Proof.
  intros Hm Hh w. unfold tryCatch. specialize (Hm w).
  destruct (m w) as [[a|e] w1]; simpl in *; [exact Hm|].
  eapply sameStore_trans; [exact Hm | apply Hh].
Qed.

Ltac frame_step :=
  first
    [ apply frames_ret
    | apply frames_throw
    | apply frames_sleep
    | apply frames_bind; [|intros]
    | apply frames_tryCatch; [|intros]
    | assumption
    | match goal with
      | |- frames (match ?x with _ => _ end) => destruct x
      | |- frames (if ?b then _ else _) => destruct b
      end ].

Section GeocodeEffects.

Context {U : Unicode}.
Variable net : network.
Variable statusError : response -> error.
Variable GOOGLE_KEY : option jsstring.

Lemma frames_axiosGet (v : Z -> bool) (req : request) :
  frames (Geocode.axiosGet net statusError v req).
Proof.
  intros w. unfold Geocode.axiosGet.
  destruct (net (requests w) req) as [r|e]; [destruct (v (status r))|];
    repeat split.
Qed.

Lemma frames_viaCepLoop (cep : jsstring) (left : nat) (i : Z) :
  frames (Geocode.viaCepLoop net statusError cep left i).
Proof.
  revert i. induction left as [|left IH]; intros i; cbn [Geocode.viaCepLoop].
  - apply frames_ret.
  - repeat (first [apply frames_axiosGet | apply IH | frame_step]).
Qed.

Lemma frames_nominatimAttempts (base query : jsstring) (left : nat) (i : Z) :
  frames (Geocode.nominatimAttempts net statusError base query left i).
Proof.
  revert i. induction left as [|left IH]; intros i;
    cbn [Geocode.nominatimAttempts].
  - apply frames_ret.
  - repeat (first [apply frames_axiosGet | apply IH | frame_step]).
Qed.

Lemma frames_nominatimHosts (hosts : list jsstring) (query : jsstring)
    (tries : nat) :
  frames (Geocode.nominatimHosts net statusError hosts query tries).
Proof.
  induction hosts as [|base hosts IH]; cbn [Geocode.nominatimHosts].
  - apply frames_ret.
  - repeat (first [apply frames_nominatimAttempts | apply IH | frame_step]).
Qed.

Lemma frames_geocode (endereco cep : jsstring) :
  frames (Geocode.geocode net statusError GOOGLE_KEY endereco cep).
Proof.
  unfold Geocode.geocode, Geocode.geocodeBody, Geocode.viaCepBranch,
    Geocode.viaCepGet, Geocode.nominatimSearch.
  repeat (first [apply frames_axiosGet | apply frames_viaCepLoop
                | apply frames_nominatimHosts | frame_step]).
Qed.

(** [geocode] never throws: its catch turns every error into null. *)
Lemma geocode_returns (endereco cep : jsstring) (w : world) :
  exists g w',
    Geocode.geocode net statusError GOOGLE_KEY endereco cep w = (Return g, w').
Proof.
  unfold Geocode.geocode, tryCatch.
  destruct (Geocode.geocodeBody net statusError GOOGLE_KEY endereco cep w)
    as [[g|e] w1]; eexists; eexists; reflexivity.
Qed.

End GeocodeEffects.

(** ** C1: the provider that cannot be reached *)

(** Every request to the public geocoding provider fails: on every host and
    at every attempt the reply is HTTP 429 or 503, or a transport fault
    that is retryable. *)
Definition providerUnreachable {U : Unicode} (net : network) : Prop :=
  forall n base query,
    match net n (GetNominatim base query) with
    | Response r => status r = 429%Z \/ status r = 503%Z
    | Failure e => Geocode.isRetryableNetworkError e = true
    end.

Lemma bind_Return {A B} (m : M A) (f : A -> M B) (w : world) (b : B) (w' : world) :
  bind m f w = (Return b, w') ->
  exists a w1, m w = (Return a, w1) /\ f a w1 = (Return b, w').
Proof.
  unfold bind. destruct (m w) as [[a|e] w1]; [|discriminate].
  intros H. exists a, w1. auto.
Qed.

Section Unreachable.

Context {U : Unicode}.
Variable net : network.
Variable statusError : response -> error.
Hypothesis Hnet : providerUnreachable net.

Lemma nominatimAttempts_unreachable (base query : jsstring) (left : nat)
    (i : Z) (w : world) :
  fst (Geocode.nominatimAttempts net statusError base query left i w)
  = Return None.
Proof.
  revert i w. induction left as [|left IH]; intros i w; [reflexivity|].
  cbn [Geocode.nominatimAttempts].
  unfold bind at 1, sleep at 1. unfold bind at 1, tryCatch at 1.
  unfold bind at 1, Geocode.axiosGet at 1. cbn [requests set_clock].
  pose proof (Hnet (requests w) base query) as H.
  destruct (net (requests w) (GetNominatim base query)) as [r|e].
  - destruct (Geocode.validateNominatim (status r)).
    + assert (E200 : Z.eqb (status r) 200 = false)
        by (apply Z.eqb_neq; lia).
      assert (Eretry : Z.eqb (status r) 429 || Z.eqb (status r) 503 = true).
      { destruct H as [H|H]; rewrite H; reflexivity. }
      rewrite E200, Eretry. cbn [andb]. unfold bind at 1, sleep at 1, ret at 1.
      apply IH.
    + destruct (Geocode.isRetryableNetworkError (statusError r)).
      * unfold bind at 1, sleep at 1, ret at 1. apply IH.
      * reflexivity.
  - rewrite H. unfold bind at 1, sleep at 1, ret at 1. apply IH.
Qed.

Lemma nominatimSearch_unreachable (query : jsstring) (w : world) :
  fst (Geocode.nominatimSearch net statusError query w) = Return None.
Proof.
  unfold Geocode.nominatimSearch.
  generalize 4%nat as tries. generalize Geocode.NOMINATIM_HOSTS as hosts.
  intros hosts. revert w. induction hosts as [|base hosts IH]; intros w tries;
    [reflexivity|].
  cbn [Geocode.nominatimHosts]. unfold bind.
  pose proof (nominatimAttempts_unreachable base query tries 0 w) as H.
  destruct (Geocode.nominatimAttempts net statusError base query tries 0 w)
    as [r w1]. simpl in H. subst r. apply IH.
Qed.

Lemma viaCepBranch_unreachable (cep : jsstring) (w : world) (g : option Geocode.geo)
    (w' : world) :
  Geocode.viaCepBranch net statusError None cep w = (Return g, w') -> g = None.
Proof.
  unfold Geocode.viaCepBranch.
  destruct (truthy cep && _); [|intros H; injection H as <- _; reflexivity].
  intros H. apply bind_Return in H. destruct H as [via [w1 [_ H]]].
  destruct via as [v|]; [|injection H as <- _; reflexivity].
  destruct (Geocode.hasData (data v) && negb (Geocode.v_erro (data v)));
    [|injection H as <- _; reflexivity].
  unfold bind at 1, ret at 1 in H.
  apply bind_Return in H. destruct H as [nRes [w2 [Hn H]]].
  pose proof (nominatimSearch_unreachable (Geocode.enderecoViaCep (data v)) w1) as E.
  rewrite Hn in E. simpl in E. injection E as ->.
  simpl in H. injection H as <- _. reflexivity.
Qed.

(** With the provider out of reach and no key for the precise provider,
    [geocode] returns null: it raises nothing. *)
Lemma geocode_unreachable (endereco cep : jsstring) (w : world) :
  fst (Geocode.geocode net statusError None endereco cep w) = Return None.
Proof.
  unfold Geocode.geocode, tryCatch.
  destruct (Geocode.geocodeBody net statusError None endereco cep w)
    as [[g|e] w'] eqn:E; [|reflexivity].
  simpl. f_equal.
  unfold Geocode.geocodeBody in E.
  apply bind_Return in E. destruct E as [[] [w1 [_ E]]].
  apply bind_Return in E. destruct E as [early [w2 [Hv E]]].
  apply viaCepBranch_unreachable in Hv. subst early.
  destruct (negb (truthy endereco) || _);
    [injection E as <- _; reflexivity|].
  apply bind_Return in E. destruct E as [[] [w3 [_ E]]].
  apply bind_Return in E. destruct E as [fRes [w4 [Hn E]]].
  pose proof (nominatimSearch_unreachable endereco w3) as E'.
  rewrite Hn in E'. simpl in E'. injection E' as ->.
  simpl in E. injection E as <- _. reflexivity.
Qed.

End Unreachable.

(** ** C4: the equipment of a customer is replaced *)

(** The local id of the customer with this CRM id, if it has a row. *)
Definition localId (id_odoo : Z) (w : world) : option Z :=
  option_map c_id (find (fun x => Z.eqb (c_id_odoo x) id_odoo) (clientes w)).

(** The ids of the rows of [clientes] come from AUTO_INCREMENT: they are
    positive, and so is the next one. *)
Definition storeOk (w : world) : Prop :=
  (forall x, In x (clientes w) -> (0 < c_id x)%Z) /\ (0 < next_cliente_id w)%Z.

Definition rowOf (clienteId : Z) (it : Sync.item) : equipamento :=
  {| e_cliente_id := clienteId; e_nome := Sync.i_name it;
     e_quantidade := Sync.i_qty it |}.

(** The items that reach the table: an item whose name equals, under the
    collation of the unique key, the name of an item kept before it is
    dropped. *)
Fixpoint keepFirst (sameNome : jsstring -> jsstring -> bool)
    (kept items : list Sync.item) : list Sync.item :=
  match items with
  | [] => []
  | it :: t =>
      if existsb (fun k => sameNome (Sync.i_name k) (Sync.i_name it)) kept
      then keepFirst sameNome kept t
      else it :: keepFirst sameNome (kept ++ [it]) t
  end.

(** The rows of [equipamentos] that belong to other customers. *)
Definition othersOf (clienteId : Z) (rows : list equipamento) : list equipamento :=
  filter (fun e => negb (Z.eqb (e_cliente_id e) clienteId)) rows.


Lemma find_none_existsb {A} (p : A -> bool) (l : list A) :
  existsb p l = false -> find p l = None.
Proof.
  induction l as [|x l IH]; simpl; [reflexivity|].
  destruct (p x); simpl; [discriminate | exact IH].
Qed.

Lemma existsb_find_some {A} (p : A -> bool) (l : list A) :
  existsb p l = true -> exists x, find p l = Some x.
Proof.
  induction l as [|x l IH]; simpl; [discriminate|].
  destruct (p x); simpl; [intros _; eauto | exact IH].
Qed.

Lemma find_map_key {A} (p : A -> bool) (f : A -> A) (l : list A) :
  (forall x, p (f x) = p x) ->
  find p (map f l) = option_map f (find p l).
Proof.
  intros H. induction l as [|x l IH]; simpl; [reflexivity|].
  rewrite H. destruct (p x); [reflexivity | exact IH].
Qed.

Section Store.

Context {U : Unicode}.
Variable sameNome : jsstring -> jsstring -> bool.

(** After the upsert the customer has a row, under the id it had, or under
    the next id when it had none; nothing else of the world changes. *)
Lemma upsertCliente_spec (r : cliente) (w : world) :
  exists w',
    Sync.upsertCliente r w = (Return tt, w')
    /\ localId (c_id_odoo r) w'
       = Some (match localId (c_id_odoo r) w with
               | Some i => i
               | None => next_cliente_id w
               end)
    /\ equipamentos w' = equipamentos w
    /\ sync_state w' = sync_state w
    /\ clearedPauseOnStartup w' = clearedPauseOnStartup w
    /\ (storeOk w -> storeOk w').
Proof.
  unfold Sync.upsertCliente, localId.
  destruct (existsb (fun x => Z.eqb (c_id_odoo x) (c_id_odoo r)) (clientes w))
    eqn:Ex.
  - eexists. split; [reflexivity|]. cbn [clientes set_clientes equipamentos
      sync_state clearedPauseOnStartup next_cliente_id].
    split; [|split; [reflexivity|split; [reflexivity|split; [reflexivity|]]]].
    + apply existsb_find_some in Ex. destruct Ex as [x0 Ex].
      rewrite Ex. simpl.
      pose proof (find_some _ _ Ex) as [_ Hx0].
      induction (clientes w) as [|x l IH]; [discriminate|].
      simpl in Ex |- *.
      destruct (Z.eqb (c_id_odoo x) (c_id_odoo r)) eqn:E.
      * simpl. rewrite Z.eqb_refl. simpl. injection Ex as <-. reflexivity.
      * rewrite E. apply IH. exact Ex.
    + intros [Hids Hnext]. split; [|exact Hnext].
      cbn [clientes set_clientes]. intros x Hx. apply in_map_iff in Hx.
      destruct Hx as [y [<- Hy]].
      destruct (Z.eqb (c_id_odoo y) (c_id_odoo r)); simpl; apply Hids; exact Hy.
  - eexists. split; [reflexivity|]. cbn [clientes set_clientes equipamentos
      sync_state clearedPauseOnStartup next_cliente_id].
    split; [|split; [reflexivity|split; [reflexivity|split; [reflexivity|]]]].
    + rewrite (find_none_existsb Ex). simpl.
      induction (clientes w) as [|x l IH]; simpl.
      * rewrite Z.eqb_refl. reflexivity.
      * simpl in Ex. apply orb_false_iff in Ex. destruct Ex as [E1 E2].
        rewrite E1. apply IH. exact E2.
    + intros [Hids Hnext]. split.
      * cbn [clientes set_clientes]. intros x Hx. apply in_app_iff in Hx.
        destruct Hx as [Hx|[<-|[]]]; [apply Hids; exact Hx | exact Hnext].
      * cbn [next_cliente_id set_clientes]. lia.
Qed.

(** The test of the unique key on a table made of the rows of other
    customers and of the rows of the items [kept]. *)
Lemma duplicate_test (clienteId : Z) (nome : jsstring)
    (others : list equipamento) (kept : list Sync.item) :
  (forall e, In e others -> e_cliente_id e <> clienteId) ->
  existsb (fun e => Z.eqb (e_cliente_id e) clienteId && sameNome (e_nome e) nome)
    (others ++ map (rowOf clienteId) kept)
  = existsb (fun k => sameNome (Sync.i_name k) nome) kept.
Proof.
  intros Hothers. rewrite existsb_app.
  assert (E : existsb (fun e => Z.eqb (e_cliente_id e) clienteId
                                && sameNome (e_nome e) nome) others = false).
  { induction others as [|e others IH]; [reflexivity|]. simpl.
    assert (Hne : Z.eqb (e_cliente_id e) clienteId = false)
      by (apply Z.eqb_neq; apply Hothers; left; reflexivity).
    rewrite Hne. simpl. apply IH. intros x Hx. apply Hothers. right. exact Hx. }
  rewrite E. simpl.
  induction kept as [|k kept IH]; [reflexivity|]. simpl.
  rewrite Z.eqb_refl, IH. reflexivity.
Qed.

Lemma insertParts_spec (clienteId : Z) (parts : list jsstring) (w : world)
    (others : list equipamento) (kept : list Sync.item) :
  equipamentos w = others ++ map (rowOf clienteId) kept ->
  (forall e, In e others -> e_cliente_id e <> clienteId) ->
  exists w',
    Sync.insertParts sameNome clienteId parts w = (Return tt, w')
    /\ equipamentos w'
       = others ++ map (rowOf clienteId)
                     (kept ++ keepFirst sameNome kept (map Sync.parsePart parts))
    /\ clientes w' = clientes w
    /\ next_cliente_id w' = next_cliente_id w
    /\ sync_state w' = sync_state w
    /\ clearedPauseOnStartup w' = clearedPauseOnStartup w.
Proof.
  revert w kept. induction parts as [|part parts IH]; intros w kept Heq Hothers.
  - exists w. split; [reflexivity|]. simpl. rewrite app_nil_r. auto.
  - cbn [Sync.insertParts map keepFirst].
    unfold bind, tryCatch, Sync.insertEquipamento.
    rewrite Heq, (duplicate_test _ _ Hothers).
    destruct (existsb (fun k => sameNome (Sync.i_name k)
                                  (Sync.i_name (Sync.parsePart part))) kept).
    + simpl. apply IH; assumption.
    + simpl.
      destruct (IH (set_equipamentos
                      ((others ++ map (rowOf clienteId) kept)
                       ++ [{| e_cliente_id := clienteId;
                              e_nome := Sync.i_name (Sync.parsePart part);
                              e_quantidade := Sync.i_qty (Sync.parsePart part) |}]) w)
                   (kept ++ [Sync.parsePart part]))
        as [w' [E [He [H1 [H2 [H3 H4]]]]]].
      * simpl. rewrite map_app, app_assoc. reflexivity.
      * exact Hothers.
      * exists w'. split; [exact E|]. rewrite He, <- app_assoc. simpl. auto.
Qed.

Lemma othersOf_other (clienteId : Z) (rows : list equipamento) :
  forall e, In e (othersOf clienteId rows) -> e_cliente_id e <> clienteId.
Proof.
  intros e He. unfold othersOf in He. apply filter_In in He.
  destruct He as [_ He]. apply negb_true_iff in He. apply Z.eqb_neq. exact He.
Qed.

(** The equipment block, for a customer that has a row under the id
    [clienteId] and an entry whose equipment text is not blank. *)
Lemma persistEquipment_spec (c : partner) (e : Odoo.entry) (w : world)
    (clienteId : Z) :
  truthy (trim (Odoo.equipment e)) = true ->
  localId (p_id c) w = Some clienteId ->
  (0 < clienteId)%Z ->
  exists w',
    Sync.persistEquipment sameNome c (Some e) w = (Return tt, w')
    /\ equipamentos w'
       = othersOf clienteId (equipamentos w)
         ++ map (rowOf clienteId)
              (keepFirst sameNome []
                 (Sync.parseEquipment (trim (Odoo.equipment e))))
    /\ clientes w' = clientes w
    /\ next_cliente_id w' = next_cliente_id w
    /\ sync_state w' = sync_state w
    /\ clearedPauseOnStartup w' = clearedPauseOnStartup w.
Proof.
  intros Ht Hid Hpos. unfold Sync.persistEquipment. rewrite Ht.
  unfold bind at 1, Sync.selectClienteId.
  unfold localId in Hid. rewrite Hid.
  assert (Hz : Z.eqb clienteId 0 = false) by (apply Z.eqb_neq; lia).
  rewrite Hz. cbn [negb]. unfold bind, Sync.deleteEquipamentos.
  destruct (@insertParts_spec clienteId
              (Sync.splitParts (trim (Odoo.equipment e)))
              (set_equipamentos (othersOf clienteId (equipamentos w)) w)
              (othersOf clienteId (equipamentos w)) [])
    as [w' [E [He [H1 [H2 [H3 H4]]]]]].
  - simpl. rewrite app_nil_r. reflexivity.
  - apply othersOf_other.
  - exists w'. split; [exact E|]. split; [exact He|]. auto.
Qed.

Variable net : network.
Variable statusError : response -> error.
Variable GOOGLE_KEY : option jsstring.

(** The geocoding step of [processarCliente] returns and leaves the store
    alone. *)
Lemma geocodeStep_returns (q : option jsstring) (cep : jsstring) (w : world) :
  exists g w1,
    match q with
    | Some e => App.geocode net statusError GOOGLE_KEY e cep
    | None => ret None
    end w = (Return g, w1)
    /\ sameStore w w1.
Proof.
  destruct q as [e|].
  - destruct (geocode_returns net statusError GOOGLE_KEY e cep w) as [g [w1 E]].
    exists g, w1. split; [exact E|].
    pose proof (frames_geocode net statusError GOOGLE_KEY e cep w) as H.
    unfold App.geocode in *. rewrite E in H. exact H.
  - exists None, w. split; [reflexivity | apply sameStore_refl].
Qed.

(** Processing a customer whose entry has equipment text. *)
Lemma processarCliente_equipment (c : partner) (e : Odoo.entry) (w : world) :
  truthy (trim (Odoo.equipment e)) = true ->
  storeOk w ->
  let clienteId := match localId (p_id c) w with
                   | Some i => i
                   | None => next_cliente_id w
                   end in
  exists w',
    App.processarCliente net statusError GOOGLE_KEY sameNome c (Some e) w
    = (Return true, w')
    /\ localId (p_id c) w' = Some clienteId
    /\ equipamentos w'
       = othersOf clienteId (equipamentos w)
         ++ map (rowOf clienteId)
              (keepFirst sameNome []
                 (Sync.parseEquipment (trim (Odoo.equipment e))))
    /\ sync_state w' = sync_state w
    /\ storeOk w'.
Proof.
  intros Ht Hok clienteId.
  unfold App.processarCliente, Sync.processarCliente, tryCatch,
    Sync.processarBody.
  unfold bind at 1.
  match goal with
  | |- context [match ?q with
                | Some e0 => App.geocode _ _ _ e0 ?cp
                | None => ret None
                end w] =>
      destruct (geocodeStep_returns q cp w) as [g [w1 [EG Hs]]]
  end.
  fold (App.geocode net statusError GOOGLE_KEY).
  rewrite EG.
  destruct Hs as [S1 [S2 [S3 [S4 S5]]]].
  unfold bind at 1.
  match goal with
  | |- context [Sync.upsertCliente ?r w1] =>
      destruct (upsertCliente_spec r w1) as [w2 [EU [Hid [E1 [E2 [E3 Hok2]]]]]];
      rewrite EU
  end.
  cbn [c_id_odoo] in Hid.
  assert (Hid1 : localId (p_id c) w1 = localId (p_id c) w)
    by (unfold localId; rewrite S1; reflexivity).
  rewrite Hid1, S2 in Hid. fold clienteId in Hid.
  assert (Hok1 : storeOk w1).
  { destruct Hok as [Ha Hb]. split; [rewrite S1; exact Ha | rewrite S2; exact Hb]. }
  specialize (Hok2 Hok1).
  assert (Hpos : (0 < clienteId)%Z).
  { destruct Hok2 as [Hids _]. unfold localId in Hid.
    destruct (find (fun x => Z.eqb (c_id_odoo x) (p_id c)) (clientes w2))
      as [x|] eqn:Ef; [|discriminate].
    simpl in Hid. injection Hid as <-. apply Hids.
    apply find_some in Ef. tauto. }
  destruct (@persistEquipment_spec c e w2 clienteId Ht Hid Hpos)
    as [w3 [EP [He [P1 [P2 [P3 P4]]]]]].
  unfold bind. rewrite EP. unfold ret.
  exists w3. split; [reflexivity|].
  split; [unfold localId; rewrite P1; exact Hid|].
  split; [rewrite He, E1, S3; reflexivity|].
  split; [rewrite P3, E2, S4; reflexivity|].
  destruct Hok2 as [Ha Hb]. split; [rewrite P1; exact Ha | rewrite P2; exact Hb].
Qed.

End Store.





Definition acme : partner :=
  {| p_id := 7; p_name := Some (lit "ACME"); p_display_name := Some (lit "ACME");
     p_street := Some (lit "Rua A"); p_street2 := None; p_zip := None;
     p_city := Some (lit "Maceio"); p_bairro := Some (lit "Centro");
     p_numero := Some (lit "10"); p_state_id := None; p_country_id := None;
     p_state_code := None; p_l10n_br_state_code := None; p_phone := None;
     p_mobile := None; p_email := None; p_website := None |}.


(** ** C1: what the driver sees of the unreachable provider *)

Section Linked.

Context {U : Unicode}.
Variable net : network.
Variable statusError : response -> error.
Variable GOOGLE_KEY : option jsstring.
Variable sameNome : jsstring -> jsstring -> bool.

Lemma insertParts_returns (clienteId : Z) (parts : list jsstring) (w : world) :
  exists w',
    Sync.insertParts sameNome clienteId parts w = (Return tt, w')
    /\ sync_state w' = sync_state w.
Proof.
  revert w. induction parts as [|part parts IH]; intros w.
  - exists w. split; reflexivity.
  - cbn [Sync.insertParts]. unfold bind, tryCatch, Sync.insertEquipamento.
    destruct (existsb _ (equipamentos w)); simpl.
    + apply IH.
    + match goal with
      | |- context [Sync.insertParts _ _ _ ?w0] =>
          destruct (IH w0) as [w' [E Hs]]
      end.
      exists w'. split; [exact E | exact Hs].
Qed.

Lemma persistEquipment_returns (c : partner) (e : option Odoo.entry) (w : world) :
  exists w',
    Sync.persistEquipment sameNome c e w = (Return tt, w')
    /\ sync_state w' = sync_state w.
Proof.
  unfold Sync.persistEquipment.
  destruct (truthy _); [|exists w; split; reflexivity].
  unfold bind at 1, Sync.selectClienteId.
  destruct (option_map c_id _) as [cid|]; [|exists w; split; reflexivity].
  destruct (negb (Z.eqb cid 0)); [|exists w; split; reflexivity].
  unfold bind, Sync.deleteEquipamentos.
  match goal with
  | |- context [Sync.insertParts _ _ _ ?w0] =>
      destruct (insertParts_returns cid (Sync.splitParts
                  (trim match e with
                        | Some e0 => Odoo.equipment e0
                        | None => []
                        end)) w0) as [w' [E Hs]]
  end.
  exists w'. split; [exact E | exact Hs].
Qed.

(** Linked with the [geocode] of geocode.js, [processarCliente] returns
    true, whatever the network does, and leaves the row of [sync_state]
    alone. *)
Lemma processarCliente_returns (c : partner) (e : option Odoo.entry) (w : world) :
  exists w',
    App.processarCliente net statusError GOOGLE_KEY sameNome c e w
    = (Return true, w')
    /\ sync_state w' = sync_state w.
Proof.
  unfold App.processarCliente, Sync.processarCliente, tryCatch,
    Sync.processarBody.
  unfold bind at 1.
  match goal with
  | |- context [match ?q with
                | Some e0 => App.geocode _ _ _ e0 ?cp
                | None => ret None
                end w] =>
      destruct (geocodeStep_returns net statusError GOOGLE_KEY q cp w)
        as [g [w1 [EG Hs]]]
  end.
  fold (App.geocode net statusError GOOGLE_KEY).
  rewrite EG.
  destruct Hs as [S1 [S2 [S3 [S4 S5]]]].
  unfold bind at 1.
  match goal with
  | |- context [Sync.upsertCliente ?r w1] =>
      destruct (upsertCliente_spec r w1) as [w2 [EU [_ [_ [E2 _]]]]];
      rewrite EU
  end.
  destruct (persistEquipment_returns c e w2) as [w3 [EP P3]].
  unfold bind. rewrite EP. unfold ret.
  exists w3. split; [reflexivity|]. rewrite P3, E2, S4. reflexivity.
Qed.

(** So the loop of the driver never meets the fatal network condition: the
    pass completes and the pause state stays as it was. *)
Lemma mainLoop_completes (l : list Sync.matched) (w : world) :
  exists log w',
    Sync.mainLoop (App.geocode net statusError GOOGLE_KEY) sameNome l w
    = (Return (false, log), w')
    /\ pausedSince w' = pausedSince w.
Proof.
  revert w. induction l as [|it rest IH]; intros w.
  - exists [], w. split; reflexivity.
  - cbn [Sync.mainLoop]. destruct (Sync.m_partner it) as [p|].
    + unfold bind at 1, Sync.processEntry, tryCatch, bind at 1.
      destruct (processarCliente_returns p (Some (Sync.m_entry it)) w)
        as [w1 [E Hs]].
      unfold App.processarCliente in E. rewrite E.
      unfold bind at 1, Sync.setSyncCursor, ret at 1. unfold bind.
      match goal with
      | |- context [Sync.mainLoop _ _ rest ?w0] =>
          destruct (IH w0) as [log [w' [E2 Hp]]]
      end.
      rewrite E2. simpl.
      eexists; eexists. split; [reflexivity|].
      rewrite Hp. unfold pausedSince. simpl. rewrite Hs.
      destruct (sync_state w); reflexivity.
    + destruct (IH w) as [log [w' [E2 Hp]]].
      unfold bind. rewrite E2. simpl.
      eexists; eexists. split; [reflexivity | exact Hp].
Qed.

Lemma reconcile_completes (requested : list Odoo.entry)
    (customers : list partner) (w : world) :
  exists log w',
    App.reconcile net statusError GOOGLE_KEY sameNome requested customers w
    = (Return (Sync.Completed log), w')
    /\ pausedSince w' = pausedSince w.
Proof.
  unfold App.reconcile, Sync.reconcile, bind at 1, Sync.getSyncCursor.
  unfold bind.
  match goal with
  | |- context [Sync.mainLoop _ _ ?l w] =>
      destruct (mainLoop_completes l w) as [log [w' [E Hp]]]
  end.
  rewrite E. simpl.
  exists log, w'. split; [reflexivity | exact Hp].
Qed.

End Linked.

(** The part of C1 that the driver does fulfil, for any [geocode]: when
    processing an entry raises the fatal network condition, the pause is
    persisted with the detail of the error, and the loop stops there. *)
Lemma mainLoop_halts_on_fatal (U : Unicode)
    (geocode : jsstring -> jsstring -> M (option Geocode.geo))
    (sameNome : jsstring -> jsstring -> bool)
    (it : Sync.matched) (rest : list Sync.matched) (p : partner)
    (w w1 : world) (err : error) :
  Sync.m_partner it = Some p ->
  Sync.processarCliente geocode sameNome p (Some (Sync.m_entry it)) w
  = (Throw err, w1) ->
  Sync.isFatal err = true ->
  let reason := orElse (err_code err) (orElse (err_message err) []) in
  Sync.mainLoop geocode sameNome (it :: rest) w
  = (Return (true, [Sync.Halted (Sync.idx it) reason]),
     snd (Sync.setPause (Some reason) w1))
  /\ pausedSince (snd (Sync.setPause (Some reason) w1)) = Some (now w1).
Proof.
  intros Hp E Hf reason. split.
  - cbn [Sync.mainLoop]. rewrite Hp.
    unfold bind at 1, Sync.processEntry, tryCatch, bind at 1.
    rewrite E, Hf. reflexivity.
  - reflexivity.
Qed.

(** A network on which the public provider answers every request with
    HTTP 429. *)
Definition always429 : network :=
  fun _ _ => Response {| status := 429; data := OtherData |}.

(** A [geocode] that does raise the error the driver looks for. *)
Definition raisingGeocode : jsstring -> jsstring -> M (option Geocode.geo) :=
  fun _ _ =>
    throw {| err_name := Some (lit "NominatimNetworkError");
             err_code := Some (lit "ETIMEDOUT");
             err_message := Some (lit "Falha de rede no Nominatim") |}.

(** With such a [geocode] the driver pauses and stops at the first entry. *)
Example driver_halts_when_geocode_raises :
  exists w',
    Sync.reconcile (U := asciiUnicode) raisingGeocode str_eqb
      (entryNamed "ACME" "" :: threeEntries) (acme :: threePartners) freshWorld
    = (Return (Sync.Interrupted [Sync.Halted 0 (lit "ETIMEDOUT")]), w')
    /\ pausedSince w' = Some 0%Z
    /\ clientes w' = [].
Proof. eexists. vm_compute. repeat split; reflexivity. Qed.

(** C1, on the code. When every request to the public provider fails at
    every attempt on every host, [geocode] (without a key for the precise
    provider) returns null: it signals nothing. Linked with it, the pass of
    the driver always completes, and the pause state is what it was: no
    pause is recorded and no entry is left out. *)
Theorem C1_unreachable_provider_returns_null (U : Unicode) (net : network)
    (statusError : response -> error)
    (sameNome : jsstring -> jsstring -> bool) :
  providerUnreachable net ->
  (forall endereco cep w,
     fst (Geocode.geocode net statusError None endereco cep w) = Return None)
  /\ (forall requested customers w,
        exists log w',
          App.reconcile net statusError None sameNome requested customers w
          = (Return (Sync.Completed log), w')
          /\ pausedSince w' = pausedSince w).
Proof.
  intros Hnet. split.
  - intros endereco cep w. apply geocode_unreachable. exact Hnet.
  - intros requested customers w. apply reconcile_completes.
Qed.

(** C1, witness: HTTP 429 on every request; the customer is processed, the
    cursor advances and the pass completes without a pause. *)
Lemma C1_unreachable_provider_returns_null_witness :
  fst (Geocode.geocode (U := asciiUnicode) always429 axiosError None
         (lit "Rua A, 10, Centro, Maceio, Brasil") (lit "") freshWorld)
  = Return None
  /\ exists w',
       App.syncClientes (U := asciiUnicode) always429 axiosError None
         (ret ([entryNamed "ACME" ""], [acme])) str_eqb freshWorld
       = (Return (Sync.Completed [Sync.Processed 0 true]), w')
       /\ pausedSince w' = None
       /\ requests w' = 4%nat.
Proof.
  assert (H429 : providerUnreachable (U := asciiUnicode) always429)
    by (intros n base query; left; reflexivity).
  split.
  - apply (proj1 (@C1_unreachable_provider_returns_null asciiUnicode always429
                    axiosError str_eqb H429)).
  - eexists. vm_compute. repeat split; reflexivity.
Defined.

(** * Further properties of the code *)

Unset Implicit Arguments.

(** ** geocode.js: what a call costs and what it leaves alone *)

(** The result of [geocode] carries coordinates only, never a normalized
    address block. *)
Lemma geocode_no_normalized (U : Unicode) (net : network)
    (statusError : response -> error) (GOOGLE_KEY : option jsstring)
    (endereco cep : jsstring) (w w' : world) (g : option Geocode.geo) :
  Geocode.geocode net statusError GOOGLE_KEY endereco cep w = (Return g, w') ->
  match g with
  | Some x => Geocode.normalized x = None
  | None => True
  end.
Proof.
  intros E.
  - unfold Geocode.geocode, tryCatch in E.
    destruct (Geocode.geocodeBody net statusError GOOGLE_KEY endereco cep w)
      as [[g0|e] w0] eqn:Eb.
    + injection E as <- <-.
      unfold Geocode.geocodeBody in Eb.
      apply bind_Return in Eb. destruct Eb as [[] [w1 [_ Eb]]].
      apply bind_Return in Eb. destruct Eb as [early [w2 [Hv Eb]]].
      destruct early as [x|].
      * injection Eb as <- _.
        unfold Geocode.viaCepBranch in Hv.
        destruct (truthy cep && _); [|discriminate].
        apply bind_Return in Hv. destruct Hv as [via [w3 [_ Hv]]].
        destruct via as [v|]; [|discriminate].
        destruct (Geocode.hasData (data v) && negb (Geocode.v_erro (data v))); [|discriminate].
        apply bind_Return in Hv. destruct Hv as [gg [w4 [_ Hv]]].
        destruct gg as [loc|].
        -- injection Hv as <- _. reflexivity.
        -- apply bind_Return in Hv. destruct Hv as [nRes [w5 [_ Hv]]].
           destruct (Geocode.firstPlace nRes);
             [injection Hv as <- _; reflexivity | discriminate].
      * destruct (negb (truthy endereco) || _);
          [injection Eb as <- _; exact I|].
        apply bind_Return in Eb. destruct Eb as [[] [w3 [_ Eb]]].
        apply bind_Return in Eb. destruct Eb as [fRes [w4 [_ Eb]]].
        destruct (Geocode.firstPlace fRes);
          injection Eb as <- _; [reflexivity | exact I].
    + injection E as <- _. exact I.
Qed.

(** X1. Whatever the network answers and whether or not a key of the
    precise provider is configured, [geocode] raises nothing: it returns
    null or a pair of coordinates. It changes neither the tables, nor the
    cursor and pause state, nor the start-up flag. *)
Theorem X1_geocode_never_raises (U : Unicode) (net : network)
    (statusError : response -> error) (GOOGLE_KEY : option jsstring)
    (endereco cep : jsstring) (w : world) :
  exists g w',
    Geocode.geocode net statusError GOOGLE_KEY endereco cep w = (Return g, w')
    /\ sameStore w w'
    /\ match g with
       | Some x => Geocode.normalized x = None
       | None => True
       end.
Proof.
  destruct (geocode_returns net statusError GOOGLE_KEY endereco cep w)
    as [g [w' E]].
  exists g, w'. split; [exact E|]. split.
  - pose proof (frames_geocode net statusError GOOGLE_KEY endereco cep w) as H.
    rewrite E in H. exact H.
  - exact (geocode_no_normalized U net statusError GOOGLE_KEY endereco cep
             w w' g E).
Qed.

(** A computation that issues at most [n] HTTP requests. *)
Definition atMost {A} (n : nat) (m : M A) : Prop :=
  forall w, (requests w <= requests (snd (m w)) <= requests w + n)%nat.

Lemma atMost_le {A} (n n' : nat) (m : M A) :
  (n <= n')%nat -> atMost n m -> atMost n' m.
Proof. intros Hle H w. specialize (H w). lia. Qed.

Lemma atMost_ret {A} (a : A) : atMost 0 (ret a).
Proof. intros w. simpl. lia. Qed.

Lemma atMost_throw {A} (e : error) : atMost 0 (throw (A := A) e).
Proof. intros w. simpl. lia. Qed.

Lemma atMost_sleep (ms : Z) : atMost 0 (sleep ms).
Proof. intros w. simpl. lia. Qed.

Lemma atMost_bind {A B} (n k : nat) (m : M A) (f : A -> M B) :
  atMost n m -> (forall a, atMost k (f a)) -> atMost (n + k) (bind m f).
Proof.
  intros Hm Hf w. unfold bind. specialize (Hm w).
  destruct (m w) as [[a|e] w1]; simpl in *; [|lia].
  specialize (Hf a w1). lia.
Qed.

Lemma atMost_tryCatch {A} (n k : nat) (m : M A) (h : error -> M A) :
  atMost n m -> (forall e, atMost k (h e)) -> atMost (n + k) (tryCatch m h).
Proof.
  intros Hm Hh w. unfold tryCatch. specialize (Hm w).
  destruct (m w) as [[a|e] w1]; simpl in *; [lia|].
  specialize (Hh e w1). lia.
Qed.

Ltac by_bind a b x :=
  refine (@atMost_le _ (a + b)%nat _ _ _ (@atMost_bind _ _ a b _ _ _ _));
  [simpl; lia | | intros x].
Ltac by_try a b x :=
  refine (@atMost_le _ (a + b)%nat _ _ _ (@atMost_tryCatch _ a b _ _ _ _));
  [simpl; lia | | intros x].
Ltac by_zero :=
  refine (@atMost_le _ 0%nat _ _ _ _);
  [lia | first [apply atMost_ret | apply atMost_throw | apply atMost_sleep]].

Section GeocodeCost.

Context {U : Unicode}.
Variable net : network.
Variable statusError : response -> error.
Variable GOOGLE_KEY : option jsstring.

Lemma atMost_axiosGet (v : Z -> bool) (req : request) :
  atMost 1 (Geocode.axiosGet net statusError v req).
Proof.
  intros w. unfold Geocode.axiosGet.
  destruct (net (requests w) req) as [r|e]; [destruct (v (status r))|];
    simpl; lia.
Qed.

Lemma atMost_viaCepLoop (cep : jsstring) (left : nat) (i : Z) :
  atMost left (Geocode.viaCepLoop net statusError cep left i).
Proof.
  revert i. induction left as [|left IH]; intros i; cbn [Geocode.viaCepLoop].
  - apply atMost_ret.
  - by_bind 1%nat left st.
    + by_try 1%nat 0%nat e.
      * by_bind 0%nat 1%nat u; [apply atMost_sleep|].
        by_bind 1%nat 0%nat res; [apply atMost_axiosGet | by_zero].
      * destruct (Geocode.isRetryableNetworkError e); [|by_zero].
        by_bind 0%nat 0%nat u; by_zero.
    + destruct st as [res| |]; [by_zero | apply IH | apply IH].
Qed.

Lemma atMost_nominatimAttempts (base query : jsstring) (left : nat) (i : Z) :
  atMost left (Geocode.nominatimAttempts net statusError base query left i).
Proof.
  revert i. induction left as [|left IH]; intros i;
    cbn [Geocode.nominatimAttempts].
  - apply atMost_ret.
  - by_bind 0%nat (S left) u; [apply atMost_sleep|].
    by_bind 1%nat left st.
    + by_try 1%nat 0%nat e.
      * by_bind 1%nat 0%nat res; [apply atMost_axiosGet|].
        destruct (Z.eqb (status res) 200 && Geocode.isArray (data res));
          [by_zero|].
        destruct (Z.eqb (status res) 429 || Z.eqb (status res) 503); [|by_zero].
        by_bind 0%nat 0%nat u'; by_zero.
      * destruct (Geocode.isRetryableNetworkError e); [|by_zero].
        by_bind 0%nat 0%nat u'; by_zero.
    + destruct st as [res| |]; [by_zero | apply IH | by_zero].
Qed.

Lemma atMost_nominatimHosts (hosts : list jsstring) (query : jsstring)
    (tries : nat) :
  atMost (List.length hosts * tries)
    (Geocode.nominatimHosts net statusError hosts query tries).
Proof.
  induction hosts as [|base hosts IH]; cbn [Geocode.nominatimHosts].
  - apply atMost_ret.
  - by_bind tries (List.length hosts * tries)%nat r;
      [apply atMost_nominatimAttempts|].
    destruct r as [res|]; [by_zero | exact IH].
Qed.

Lemma atMost_nominatimSearch (query : jsstring) :
  atMost 4 (Geocode.nominatimSearch net statusError query).
Proof. apply (atMost_nominatimHosts Geocode.NOMINATIM_HOSTS query 4). Qed.

Lemma atMost_viaCepBranch (cep : jsstring) :
  atMost 8 (Geocode.viaCepBranch net statusError GOOGLE_KEY cep).
Proof.
  unfold Geocode.viaCepBranch.
  destruct (truthy cep && _); [|by_zero].
  by_bind 3%nat 5%nat via; [apply atMost_viaCepLoop|].
  destruct via as [v|]; [|by_zero].
  destruct (Geocode.hasData (data v) && negb (Geocode.v_erro (data v))); [|by_zero].
  by_bind 1%nat 4%nat g.
  - destruct GOOGLE_KEY as [key|]; [|by_zero].
    destruct (truthy key); [|by_zero].
    by_bind 1%nat 0%nat gRes; [apply atMost_axiosGet|].
    destruct (data gRes) as [| [|loc t] | |]; by_zero.
  - destruct g as [loc|]; [by_zero|].
    by_bind 4%nat 0%nat nRes; [apply atMost_nominatimSearch|].
    destruct (Geocode.firstPlace nRes); by_zero.
Qed.

Lemma atMost_geocode (endereco cep : jsstring) :
  atMost 12 (Geocode.geocode net statusError GOOGLE_KEY endereco cep).
Proof.
  unfold Geocode.geocode, Geocode.geocodeBody.
  by_try 12%nat 0%nat e; [|by_zero].
  by_bind 0%nat 12%nat u; [apply atMost_sleep|].
  by_bind 8%nat 4%nat early; [apply atMost_viaCepBranch|].
  destruct early as [g|]; [by_zero|].
  destruct (negb (truthy endereco) || _); [by_zero|].
  by_bind 0%nat 4%nat u'; [apply atMost_sleep|].
  by_bind 4%nat 0%nat fRes; [apply atMost_nominatimSearch|].
  destruct (Geocode.firstPlace fRes); by_zero.
Qed.

End GeocodeCost.

(** X2. One call of [geocode] issues at most 12 HTTP requests (3 to the
    postal registry, 1 to the precise provider, 4 and 4 to the public
    provider), whatever the replies; [viaCepGet] issues at most 3 and
    [nominatimSearch] at most 4. The request counter never decreases. *)
Theorem X2_geocode_request_budget (U : Unicode) (net : network)
    (statusError : response -> error) (GOOGLE_KEY : option jsstring)
    (endereco cep query : jsstring) (w : world) :
  (requests w
   <= requests (snd (Geocode.geocode net statusError GOOGLE_KEY endereco cep w))
   <= requests w + 12)%nat
  /\ (requests w
      <= requests (snd (Geocode.viaCepGet net statusError cep w))
      <= requests w + 3)%nat
  /\ (requests w
      <= requests (snd (Geocode.nominatimSearch net statusError query w))
      <= requests w + 4)%nat.
Proof.
  split; [|split].
  - apply atMost_geocode.
  - apply (atMost_viaCepLoop net statusError cep 3 0 w).
  - apply atMost_nominatimSearch.
Qed.

(** ** geocode.js: the paths of one call *)

(** The digits of a postal code, [cep.replace(/\D/g, empty)]. *)
Definition digitsOf (cep : jsstring) : jsstring :=
  removeAll (fun c => negb (isDigit c)) cep.

(** The error that [axios.get] raises for a reply, if it raises one. *)
Definition raisedFor (statusError : response -> error) (validate : Z -> bool)
    (r : reply) : option error :=
  match r with
  | Failure e => Some e
  | Response x => if validate (status x) then None else Some (statusError x)
  end.

Section GeocodePaths.

Context {U : Unicode}.
Variable net : network.
Variable statusError : response -> error.

Lemma axiosGet_raised (v : Z -> bool) (req : request) (w : world) (e : error) :
  raisedFor statusError v (net (requests w) req) = Some e ->
  Geocode.axiosGet net statusError v req w = (Throw e, set_requests S w).
Proof.
  unfold raisedFor, Geocode.axiosGet.
  destruct (net (requests w) req) as [r|e0].
  - destruct (v (status r)); [discriminate|]. intros H. injection H as <-.
    reflexivity.
  - intros H. injection H as <-. reflexivity.
Qed.

(** The registry answers the first request with a status that axios
    accepts. *)
Lemma viaCepGet_first_response (cepLimpo : jsstring) (w : world) (r : response) :
  net (requests w) (GetViaCep cepLimpo) = Response r ->
  Geocode.validateDefault (status r) = true ->
  Geocode.viaCepGet net statusError cepLimpo w
  = (Return (Some r), set_requests S (set_clock (fun t => (t + 800)%Z) w)).
Proof.
  intros Hr Hv. unfold Geocode.viaCepGet. simpl.
  unfold tryCatch, bind, sleep, Geocode.axiosGet. simpl.
  rewrite Hr, Hv. reflexivity.
Qed.

Lemma viaCepBranch_key_irrelevant (key : option jsstring) (cep : jsstring)
    (w : world) :
  (truthy cep && Nat.eqb (List.length (digitsOf cep)) 8 = false
   \/ exists r, net (requests w) (GetViaCep (digitsOf cep)) = Response r
                /\ Geocode.validateDefault (status r) = true
                /\ Geocode.v_erro (data r) = true) ->
  Geocode.viaCepBranch net statusError key cep w
  = Geocode.viaCepBranch net statusError None cep w.
Proof.
  intros [H|[r [Hr [Hv He]]]]; unfold Geocode.viaCepBranch; fold (digitsOf cep).
  - rewrite H. reflexivity.
  - destruct (truthy cep && Nat.eqb (List.length (digitsOf cep)) 8);
      [|reflexivity].
    unfold bind at 1.
    rewrite (viaCepGet_first_response _ _ _ Hr Hv). rewrite He.
    cbn [negb]. rewrite andb_false_r.
    unfold bind at 1.
    rewrite (viaCepGet_first_response _ _ _ Hr Hv). rewrite He.
    cbn [negb]. rewrite andb_false_r. reflexivity.
Qed.

End GeocodePaths.

(** X3. When the postal code handed to [geocode] is empty or has not
    exactly 8 digits, or when the postal registry answers the first request
    with [erro], the key of the precise provider plays no part: the call
    behaves exactly as it does without a key, so the precise provider is
    not queried. *)
Theorem X3_precise_provider_skipped (U : Unicode) (net : network)
    (statusError : response -> error) (key : option jsstring)
    (endereco cep : jsstring) (w : world) :
  (truthy cep && Nat.eqb (List.length (digitsOf cep)) 8 = false
   \/ exists r, net (requests w) (GetViaCep (digitsOf cep)) = Response r
                /\ Geocode.validateDefault (status r) = true
                /\ Geocode.v_erro (data r) = true) ->
  Geocode.geocode net statusError key endereco cep w
  = Geocode.geocode net statusError None endereco cep w.
Proof.
  intros H.
  unfold Geocode.geocode, tryCatch, Geocode.geocodeBody.
  unfold bind at 1, sleep at 1. unfold bind at 1.
  unfold bind at 3, sleep at 3. unfold bind at 3.
  rewrite (@viaCepBranch_key_irrelevant U net statusError key cep
             (set_clock (fun t => (t + 1500)%Z) w) H).
  reflexivity.
Qed.

Definition viaCepErro : network :=
  fun _ req =>
    match req with
    | GetViaCep _ =>
        Response {| status := 200;
                    data := ViaCepData true None None None None |}
    | _ => Response {| status := 200; data := ArrayData [(1%Z, 2%Z)] |}
    end.

(** X3, witness: the registry does not know the postal code; with or
    without a key the coordinates come from the free-text fallback. *)
Lemma X3_precise_provider_skipped_witness :
  Geocode.geocode (U := asciiUnicode) viaCepErro axiosError (Some (lit "key"))
    (lit "Rua A, 10, Maceio") (lit "57000000") freshWorld
  = Geocode.geocode (U := asciiUnicode) viaCepErro axiosError None
      (lit "Rua A, 10, Maceio") (lit "57000000") freshWorld.
Proof.
  apply (@X3_precise_provider_skipped asciiUnicode viaCepErro axiosError).
  right. eexists. split; [reflexivity|]. split; reflexivity.
Defined.








(** X6. A failure of the postal registry that is not retryable ends the
    whole call. For a postal code of 8 digits, when the first request to
    the registry raises an error (a transport fault, or a status outside
    200 to 299) that is not retryable, [geocode] returns null after that
    single request: neither the precise nor the public provider is
    queried, and the free-text fallback is not tried. *)
Theorem X6_registry_failure_ends_call (U : Unicode) (net : network)
    (statusError : response -> error) (key : option jsstring)
    (endereco cep : jsstring) (w : world) (e : error) :
  truthy cep && Nat.eqb (List.length (digitsOf cep)) 8 = true ->
  raisedFor statusError Geocode.validateDefault
    (net (requests w) (GetViaCep (digitsOf cep))) = Some e ->
  Geocode.isRetryableNetworkError e = false ->
  Geocode.geocode net statusError key endereco cep w
  = (Return None, set_requests S (set_clock (fun t => (t + 800)%Z)
                                   (set_clock (fun t => (t + 1500)%Z) w))).
Proof.
  intros Hcep Hraised Hret.
  unfold Geocode.geocode, tryCatch, Geocode.geocodeBody, Geocode.viaCepBranch.
  fold (digitsOf cep). rewrite Hcep.
  unfold Geocode.viaCepGet. cbn [Geocode.viaCepLoop].
  unfold bind at 1, sleep at 1. unfold bind at 1. unfold bind at 1.
  unfold bind at 1, tryCatch at 1. unfold bind at 1, sleep at 1.
  unfold bind at 1.
  match goal with
  | |- context [Geocode.axiosGet _ _ _ _ ?w0] =>
      rewrite (axiosGet_raised net statusError _ _ w0 e Hraised)
  end.
  rewrite Hret. reflexivity.
Qed.

Definition registryDown : network :=
  fun _ req =>
    match req with
    | GetViaCep _ => Response {| status := 500; data := OtherData |}
    | _ => Response {| status := 200; data := ArrayData [(1%Z, 2%Z)] |}
    end.

(** X6, witness: the registry answers HTTP 500 while the public provider
    would have answered. *)
Lemma X6_registry_failure_ends_call_witness :
  fst (Geocode.geocode (U := asciiUnicode) registryDown axiosError None
         (lit "Rua A, 10, Maceio") (lit "57000-000") freshWorld)
  = Return None
  /\ requests (snd (Geocode.geocode (U := asciiUnicode) registryDown axiosError
                      None (lit "Rua A, 10, Maceio") (lit "57000-000")
                      freshWorld)) = 1%nat.
Proof.
  rewrite (@X6_registry_failure_ends_call asciiUnicode registryDown axiosError
             None (lit "Rua A, 10, Maceio") (lit "57000-000") freshWorld
             (axiosError {| status := 500; data := OtherData |})).
  - split; reflexivity.
  - reflexivity.
  - reflexivity.
  - vm_compute. reflexivity.
Defined.

(** One failed attempt of [viaCepGet] whose error is retryable. *)
Lemma viaCepLoop_retry (U : Unicode) (net : network)
    (statusError : response -> error) (cepLimpo : jsstring) (left : nat)
    (i : Z) (w : world) (e : error) :
  raisedFor statusError Geocode.validateDefault
    (net (requests w) (GetViaCep cepLimpo)) = Some e ->
  Geocode.isRetryableNetworkError e = true ->
  Geocode.viaCepLoop net statusError cepLimpo (S left) i w
  = Geocode.viaCepLoop net statusError cepLimpo left (i + 1)
      (set_clock (fun t => (t + 2000 * (i + 1))%Z)
         (set_requests S (set_clock (fun t => (t + 800 * (i + 1))%Z) w))).
Proof.
  intros Hraised Hret. cbn [Geocode.viaCepLoop].
  unfold bind at 1, tryCatch at 1. unfold bind at 1, sleep at 1.
  unfold bind at 1.
  match goal with
  | |- context [Geocode.axiosGet _ _ _ _ ?w0] =>
      rewrite (axiosGet_raised net statusError _ _ w0 e Hraised)
  end.
  rewrite Hret. reflexivity.
Qed.

(** X7. When every request to the postal registry raises a retryable
    error, [viaCepGet] gives up after exactly 3 requests and returns null
    instead of raising; the waits before and after the three attempts add
    up to 16.8 seconds. *)
Theorem X7_registry_retries_are_bounded (U : Unicode) (net : network)
    (statusError : response -> error) (cepLimpo : jsstring) (w : world) :
  (forall n, exists e,
     raisedFor statusError Geocode.validateDefault (net n (GetViaCep cepLimpo))
     = Some e
     /\ Geocode.isRetryableNetworkError e = true) ->
  exists w',
    Geocode.viaCepGet net statusError cepLimpo w = (Return None, w')
    /\ requests w' = (requests w + 3)%nat
    /\ clock w' = (clock w + 16800)%Z
    /\ sameStore w w'.
Proof.
  intros H. unfold Geocode.viaCepGet.
  destruct (H (requests w)) as [e1 [R1 T1]].
  rewrite (viaCepLoop_retry U net statusError cepLimpo 2 0 w e1 R1 T1).
  match goal with
  | |- context [Geocode.viaCepLoop _ _ _ 2 _ ?w1] =>
      destruct (H (requests w1)) as [e2 [R2 T2]];
      rewrite (viaCepLoop_retry U net statusError cepLimpo 1 _ w1 e2 R2 T2)
  end.
  match goal with
  | |- context [Geocode.viaCepLoop _ _ _ 1 _ ?w2] =>
      destruct (H (requests w2)) as [e3 [R3 T3]];
      rewrite (viaCepLoop_retry U net statusError cepLimpo 0 _ w2 e3 R3 T3)
  end.
  eexists. split; [reflexivity|]. cbn. split; [lia|]. split; [lia|].
  repeat split.
Qed.

Definition timingOut : network :=
  fun _ _ =>
    Failure {| err_name := Some (lit "AxiosError");
               err_code := Some (lit "ECONNABORTED");
               err_message := Some (lit "timeout of 20000ms exceeded") |}.

(** X7, witness: every request times out. *)
Lemma X7_registry_retries_are_bounded_witness :
  exists w',
    Geocode.viaCepGet (U := asciiUnicode) timingOut axiosError
      (lit "57000000") freshWorld = (Return None, w')
    /\ requests w' = 3%nat
    /\ clock w' = 16800%Z
    /\ sameStore freshWorld w'.
Proof.
  apply (@X7_registry_retries_are_bounded asciiUnicode timingOut axiosError
           (lit "57000000") freshWorld).
  intros n. eexists. split; [reflexivity | vm_compute; reflexivity].
Defined.

(** ** sync.js: the driver as a whole *)

Lemma checkPause_returns (w : world) :
  exists go w0, Sync.checkPause w = (Return go, w0).
Proof.
  unfold Sync.checkPause.
  destruct (negb (clearedPauseOnStartup w)).
  - eexists; eexists; reflexivity.
  - unfold bind at 1, Sync.getPauseState.
    destruct (paused_since _) as [since|]; [|eexists; eexists; reflexivity].
    unfold bind at 1, Sync.hoursSince.
    destruct (Z.ltb _ 7); eexists; eexists; reflexivity.
Qed.

(** The cursor held by the store: the CRM id and the entry name. *)
Definition cursorOf (w : world) : option Z * option jsstring :=
  match sync_state w with
  | Some r => (last_odoo_id r, last_entry_name r)
  | None => (None, None)
  end.

(** X9. The cursor and the pause state share one row but do not disturb
    each other. [getSyncCursor] reads back what [setSyncCursor] wrote, and
    writing the cursor keeps the pause; [setPause] records the current
    time and keeps the cursor; [clearPause] erases the pause and keeps the
    cursor, also right after [setPause]. *)
Theorem X9_cursor_and_pause_independent (id : option Z) (nm reason : option jsstring)
    (w : world) :
  (exists row,
     fst (Sync.getSyncCursor (snd (Sync.setSyncCursor id nm w))) = Return row
     /\ last_odoo_id row = id /\ last_entry_name row = nm)
  /\ cursorOf (snd (Sync.setSyncCursor id nm w)) = (id, nm)
  /\ pausedSince (snd (Sync.setSyncCursor id nm w)) = pausedSince w
  /\ pausedSince (snd (Sync.setPause reason w)) = Some (now w)
  /\ cursorOf (snd (Sync.setPause reason w)) = cursorOf w
  /\ cursorOf (snd (Sync.clearPause w)) = cursorOf w
  /\ pausedSince (snd (Sync.clearPause (snd (Sync.setPause reason w)))) = None
  /\ cursorOf (snd (Sync.clearPause (snd (Sync.setPause reason w)))) = cursorOf w.
Proof.
  unfold cursorOf, pausedSince, Sync.getSyncCursor, Sync.setSyncCursor,
    Sync.setPause, Sync.clearPause. simpl.
  split; [eexists; split; [reflexivity|]; split; reflexivity|].
  destruct (sync_state w) as [r|]; simpl; repeat split.
Qed.

(** ** sync.js: the cursor after a completed pass *)

(** The CRM ids of the partners matched to the entries of [l]. *)
Definition matchedIds (l : list Sync.matched) : list Z :=
  flat_map (fun it => match Sync.m_partner it with
                      | Some p => [p_id p]
                      | None => []
                      end) l.

Definition unmatched (l : list Sync.matched) : Prop :=
  forall it, In it l -> Sync.m_partner it = None.

(** The event of an entry in a pass that nothing interrupts. *)
Definition eventOf (it : Sync.matched) : Sync.event :=
  match Sync.m_partner it with
  | Some _ => Sync.Processed (Sync.idx it) true
  | None => Sync.NotInOdoo (Sync.idx it)
  end.

Definition rowOfState (s : option sync_row) : sync_row :=
  match s with Some r => r | None => Sync.emptySyncRow end.

(** The row of [sync_state] after the cursor was written for every matched
    entry of [l], in order. *)
Definition cursorAfter (l : list Sync.matched) (s : option sync_row)
    : option sync_row :=
  fold_left (fun s it =>
    match Sync.m_partner it with
    | Some p =>
        Some {| last_odoo_id := Some (p_id p);
                last_entry_name := Some (Odoo.name (Sync.m_entry it));
                paused_since := paused_since (rowOfState s);
                paused_reason := paused_reason (rowOfState s) |}
    | None => s
    end) l s.

Lemma cursorAfter_unmatched (l : list Sync.matched) (s : option sync_row) :
  unmatched l -> cursorAfter l s = s.
Proof.
  revert s. induction l as [|it l IH]; intros s H; [reflexivity|].
  unfold cursorAfter. simpl. rewrite (H it (or_introl eq_refl)).
  apply IH. intros x Hx. apply H. right. exact Hx.
Qed.

Lemma cursorAfter_last (a b : list Sync.matched) (x : Sync.matched)
    (p : partner) (s : option sync_row) :
  Sync.m_partner x = Some p -> unmatched b ->
  last_odoo_id (rowOfState (cursorAfter (a ++ x :: b) s)) = Some (p_id p).
Proof.
  intros Hp Hb. unfold cursorAfter. rewrite fold_left_app. simpl.
  rewrite Hp.
  match goal with
  | |- context [fold_left ?f b ?s0] =>
      change (fold_left f b s0) with (cursorAfter b s0)
  end.
  rewrite (cursorAfter_unmatched b _ Hb). reflexivity.
Qed.

(** A list of entries has no matched entry, or it has a last one. *)
Lemma last_matched (l : list Sync.matched) :
  unmatched l
  \/ exists a x p b, l = a ++ x :: b /\ Sync.m_partner x = Some p /\ unmatched b.
Proof.
  induction l as [|it l IH].
  - left. intros x [].
  - destruct IH as [Hu|[a [x [p [b [-> [Hp Hb]]]]]]].
    + destruct (Sync.m_partner it) as [p|] eqn:Ep.
      * right. exists [], it, p, l. auto.
      * left. intros x [<-|Hx]; [exact Ep | apply Hu; exact Hx].
    + right. exists (it :: a), x, p, b. auto.
Qed.

Lemma findIndex_at (f : Sync.matched -> bool) (pre b : list Sync.matched)
    (x : Sync.matched) :
  (forall y, In y pre -> f y = false) -> f x = true ->
  Sync.findIndex f (pre ++ x :: b) = Some (List.length pre).
Proof.
  intros Hpre Hx. induction pre as [|y pre IH]; simpl.
  - rewrite Hx. reflexivity.
  - rewrite (Hpre y (or_introl eq_refl)). rewrite IH; [reflexivity|].
    intros z Hz. apply Hpre. right. exact Hz.
Qed.

Lemma matchedIds_app (a b : list Sync.matched) :
  matchedIds (a ++ b) = matchedIds a ++ matchedIds b.
Proof. unfold matchedIds. apply flat_map_app. Qed.

Lemma distinct_ids_before (pre b : list Sync.matched) (x : Sync.matched)
    (p : partner) :
  NoDup (matchedIds (pre ++ x :: b)) -> Sync.m_partner x = Some p ->
  forall y, In y pre -> Sync.hasPartnerId (p_id p) y = false.
Proof.
  intros Hnd Hp y Hy. rewrite matchedIds_app in Hnd.
  change (x :: b) with ([x] ++ b) in Hnd. rewrite matchedIds_app in Hnd.
  unfold matchedIds at 2 in Hnd. simpl in Hnd. rewrite Hp in Hnd.
  simpl in Hnd. apply NoDup_remove_2 in Hnd.
  unfold Sync.hasPartnerId. destruct (Sync.m_partner y) as [q|] eqn:Eq;
    [|reflexivity].
  apply Z.eqb_neq. intros E. apply Hnd. apply in_or_app. left.
  unfold matchedIds. apply in_flat_map. exists y. split; [exact Hy|].
  rewrite Eq. left. exact E.
Qed.

Lemma skipn_past (pre b : list Sync.matched) (x : Sync.matched) :
  skipn (S (List.length pre)) (pre ++ x :: b) = b.
Proof. induction pre as [|y pre IH]; [reflexivity | exact IH]. Qed.

(** After a pass from [start], the entries that the next pass would run
    on are all without partner. *)
Lemma next_pass_range {U : Unicode} (itens : list Sync.matched)
    (s : option sync_row) (start : nat) :
  NoDup (matchedIds itens) ->
  (forall id, In id (matchedIds itens) -> id <> 0%Z) ->
  start = Sync.startIndex (rowOfState s) itens ->
  unmatched
    (skipn (Sync.startIndex
              (rowOfState (cursorAfter (skipn start itens) s)) itens) itens).
Proof.
  intros Hnd Hnz Hstart.
  destruct (last_matched (skipn start itens))
    as [Hu|[a [x [p [b [Hl [Hp Hb]]]]]]].
  - rewrite (cursorAfter_unmatched _ _ Hu), <- Hstart. exact Hu.
  - pose proof (firstn_skipn start itens) as Hsplit.
    rewrite Hl in Hsplit. rewrite Hl.
    pose proof (cursorAfter_last a b x p s Hp Hb) as Hid.
    assert (Hin : In (p_id p) (matchedIds itens)).
    { rewrite <- Hsplit, !matchedIds_app. apply in_or_app. right.
      apply in_or_app. right. change (x :: b) with ([x] ++ b).
      rewrite matchedIds_app. apply in_or_app. left.
      unfold matchedIds. simpl. rewrite Hp. left. reflexivity. }
    assert (Hz : Z.eqb (p_id p) 0 = false)
      by (apply Z.eqb_neq; apply Hnz; exact Hin).
    unfold Sync.startIndex at 1. rewrite Hid. unfold Sync.truthyId.
    rewrite Hz. cbn [negb].
    assert (Hfind : Sync.findIndex (Sync.hasPartnerId (p_id p)) itens
                    = Some (List.length (firstn start itens ++ a))).
    { rewrite <- Hsplit at 1. rewrite app_assoc.
      apply findIndex_at.
      - apply (distinct_ids_before (firstn start itens ++ a) b x p).
        + rewrite <- app_assoc, Hsplit. exact Hnd.
        + exact Hp.
      - unfold Sync.hasPartnerId. rewrite Hp. apply Z.eqb_refl. }
    rewrite Hfind. rewrite <- Hsplit at 2. rewrite app_assoc.
    rewrite skipn_past. exact Hb.
Qed.

(** A range without matched entries: the loop warns and changes nothing. *)
Lemma mainLoop_unmatched {U : Unicode}
    (geocode : jsstring -> jsstring -> M (option Geocode.geo))
    (sameNome : jsstring -> jsstring -> bool)
    (l : list Sync.matched) (w : world) :
  unmatched l ->
  Sync.mainLoop geocode sameNome l w
  = (Return (false, map (fun it => Sync.NotInOdoo (Sync.idx it)) l), w).
Proof.
  induction l as [|it l IH]; intros Hu; [reflexivity|].
  cbn [Sync.mainLoop]. rewrite (Hu it (or_introl eq_refl)).
  unfold bind. rewrite IH; [reflexivity|].
  intros x Hx. apply Hu. right. exact Hx.
Qed.

Section LinkedPass.

Context {U : Unicode}.
Variable net : network.
Variable statusError : response -> error.
Variable GOOGLE_KEY : option jsstring.
Variable sameNome : jsstring -> jsstring -> bool.

(** Linked with geocode.js, the loop runs to its end, and the cursor is
    written for every matched entry. *)
Lemma mainLoop_linked (l : list Sync.matched) (w : world) :
  exists w',
    Sync.mainLoop (App.geocode net statusError GOOGLE_KEY) sameNome l w
    = (Return (false, map eventOf l), w')
    /\ sync_state w' = cursorAfter l (sync_state w).
Proof.
  revert w. induction l as [|it rest IH]; intros w.
  - exists w. split; reflexivity.
  - cbn [Sync.mainLoop]. unfold eventOf at 1. unfold cursorAfter. simpl.
    destruct (Sync.m_partner it) as [p|].
    + unfold bind at 1, Sync.processEntry, tryCatch, bind at 1.
      destruct (processarCliente_returns net statusError GOOGLE_KEY sameNome
                  p (Some (Sync.m_entry it)) w) as [w1 [E Hs]].
      unfold App.processarCliente in E. rewrite E.
      unfold bind at 1, Sync.setSyncCursor, ret at 1. unfold bind.
      match goal with
      | |- context [Sync.mainLoop _ _ rest ?w0] =>
          destruct (IH w0) as [w' [E2 Hc]]
      end.
      rewrite E2. simpl. exists w'. split; [reflexivity|].
      rewrite Hc. simpl. rewrite Hs. reflexivity.
    + destruct (IH w) as [w' [E2 Hc]].
      unfold bind. rewrite E2. simpl. exists w'. split; [reflexivity|].
      exact Hc.
Qed.

End LinkedPass.

(** X10. The cursor is never reset when a pass completes. So, for the
    program linked with geocode.js and a roster whose matched partners have
    distinct, non-zero CRM ids: after a pass, a further pass over the same
    roster and partners resumes behind the last customer processed; it
    processes no customer at all (each of its events is the warning for an
    entry without partner) and leaves the whole world as it was. *)
Theorem X10_second_pass_processes_nothing (U : Unicode) (net : network)
    (statusError : response -> error) (GOOGLE_KEY : option jsstring)
    (sameNome : jsstring -> jsstring -> bool)
    (requested : list Odoo.entry) (customers : list partner) (w : world) :
  let itens := Sync.buildItens 0 requested customers in
  NoDup (matchedIds itens) ->
  (forall id, In id (matchedIds itens) -> id <> 0%Z) ->
  exists log1 w1 log2,
    App.reconcile net statusError GOOGLE_KEY sameNome requested customers w
    = (Return (Sync.Completed log1), w1)
    /\ App.reconcile net statusError GOOGLE_KEY sameNome requested customers w1
       = (Return (Sync.Completed log2), w1)
    /\ forall ev, In ev log2 -> exists i, ev = Sync.NotInOdoo i.
Proof.
  intros itens Hnd Hnz.
  unfold App.reconcile, Sync.reconcile. fold itens.
  unfold bind at 1, Sync.getSyncCursor. unfold bind at 1.
  fold (rowOfState (sync_state w)).
  set (start := Sync.startIndex (rowOfState (sync_state w)) itens).
  destruct (mainLoop_linked net statusError GOOGLE_KEY sameNome
              (skipn start itens) w) as [w1 [E1 Hc]].
  fold (App.geocode net statusError GOOGLE_KEY). rewrite E1. simpl.
  exists (map eventOf (skipn start itens)), w1.
  pose proof (next_pass_range itens (sync_state w) start Hnd Hnz eq_refl) as Hu.
  rewrite <- Hc in Hu.
  exists (map (fun it => Sync.NotInOdoo (Sync.idx it))
            (skipn (Sync.startIndex (rowOfState (sync_state w1)) itens) itens)).
  split; [reflexivity|]. split.
  - unfold bind at 1. unfold bind at 1. fold (rowOfState (sync_state w1)).
    rewrite (mainLoop_unmatched _ _ _ w1 Hu). reflexivity.
  - intros ev Hev. apply in_map_iff in Hev. destruct Hev as [it [<- _]].
    eexists. reflexivity.
Qed.

(** X10, witness: three customers; the first pass processes them, the
    second processes none. *)
Lemma X10_second_pass_processes_nothing_witness :
  exists log1 w1 log2,
    App.reconcile (U := asciiUnicode) refusingNet axiosError None str_eqb
      threeEntries threePartners freshWorld
    = (Return (Sync.Completed log1), w1)
    /\ App.reconcile (U := asciiUnicode) refusingNet axiosError None str_eqb
         threeEntries threePartners w1
       = (Return (Sync.Completed log2), w1)
    /\ forall ev, In ev log2 -> exists i, ev = Sync.NotInOdoo i.
Proof.
  apply (@X10_second_pass_processes_nothing asciiUnicode refusingNet axiosError
           None str_eqb threeEntries threePartners freshWorld).
  - vm_compute. repeat constructor; simpl; intuition discriminate.
  - vm_compute. intros id [<-|[<-|[<-|[]]]]; discriminate.
Defined.

(** ** sync.js: the row stored for a customer *)

(** The row [r] under the id [i]. *)
Definition withId (i : Z) (r : cliente) : cliente :=
  {| c_id := i; c_id_odoo := c_id_odoo r; c_nome := c_nome r;
     c_telefone := c_telefone r; c_celular := c_celular r;
     c_email := c_email r; c_site := c_site r;
     c_logradouro := c_logradouro r; c_numero := c_numero r;
     c_complemento := c_complemento r; c_bairro := c_bairro r;
     c_cidade := c_cidade r; c_estado := c_estado r; c_cep := c_cep r;
     c_pais := c_pais r; c_endereco_completo := c_endereco_completo r;
     c_latitude := c_latitude r; c_longitude := c_longitude r |}.

(** The rows of the customers other than the one with this CRM id. *)
Definition otherClientes (id_odoo : Z) (rows : list cliente) : list cliente :=
  filter (fun x => negb (Z.eqb (c_id_odoo x) id_odoo)) rows.

Lemma upsertCliente_row (r : cliente) (w : world) :
  let w' := snd (Sync.upsertCliente r w) in
  let cid := match localId (c_id_odoo r) w with
             | Some i => i
             | None => next_cliente_id w
             end in
  find (fun x => Z.eqb (c_id_odoo x) (c_id_odoo r)) (clientes w')
  = Some (withId cid r)
  /\ otherClientes (c_id_odoo r) (clientes w')
     = otherClientes (c_id_odoo r) (clientes w)
  /\ List.length (clientes w')
     = (List.length (clientes w)
        + match localId (c_id_odoo r) w with Some _ => 0 | None => 1 end)%nat.
Proof.
  unfold Sync.upsertCliente, localId, otherClientes.
  destruct (existsb (fun x => Z.eqb (c_id_odoo x) (c_id_odoo r)) (clientes w))
    eqn:Ex; cbn [snd clientes set_clientes].
  - split; [|split].
    + induction (clientes w) as [|x l IH]; [discriminate|].
      simpl in Ex |- *.
      destruct (Z.eqb (c_id_odoo x) (c_id_odoo r)) eqn:E.
      * simpl. rewrite Z.eqb_refl. reflexivity.
      * rewrite E. simpl in Ex. apply IH. exact Ex.
    + clear Ex. induction (clientes w) as [|x l IH]; [reflexivity|]. simpl.
      destruct (Z.eqb (c_id_odoo x) (c_id_odoo r)) eqn:E; simpl.
      * rewrite Z.eqb_refl. simpl. exact IH.
      * rewrite E. simpl. rewrite IH. reflexivity.
    + rewrite length_map.
      destruct (existsb_find_some Ex) as [x0 Ef]. rewrite Ef. simpl. lia.
  - rewrite (find_none_existsb Ex). simpl. split; [|split].
    + induction (clientes w) as [|x l IH]; simpl.
      * rewrite Z.eqb_refl. reflexivity.
      * simpl in Ex. apply orb_false_iff in Ex. destruct Ex as [E1 E2].
        rewrite E1. apply IH. exact E2.
    + rewrite filter_app. simpl. rewrite Z.eqb_refl. simpl.
      apply app_nil_r.
    + rewrite length_app. reflexivity.
Qed.

Lemma upsertCliente_same_store (r : cliente) (w w1 : world) :
  sameStore w w1 ->
  clientes (snd (Sync.upsertCliente r w1)) = clientes (snd (Sync.upsertCliente r w))
  /\ next_cliente_id (snd (Sync.upsertCliente r w1))
     = next_cliente_id (snd (Sync.upsertCliente r w)).
Proof.
  intros [S1 [S2 _]]. unfold Sync.upsertCliente. rewrite S1, S2.
  destruct (existsb _ (clientes w)); split; reflexivity.
Qed.

Lemma insertParts_keeps (sameNome : jsstring -> jsstring -> bool)
    (clienteId : Z) (parts : list jsstring) (w : world) :
  clientes (snd (Sync.insertParts sameNome clienteId parts w)) = clientes w
  /\ next_cliente_id (snd (Sync.insertParts sameNome clienteId parts w))
     = next_cliente_id w.
Proof.
  revert w. induction parts as [|part parts IH]; intros w; [split; reflexivity|].
  cbn [Sync.insertParts]. unfold bind, tryCatch, Sync.insertEquipamento.
  destruct (existsb _ (equipamentos w)); simpl.
  - apply IH.
  - match goal with
    | |- context [Sync.insertParts _ _ _ ?w0] =>
        destruct (IH w0) as [H1 H2]
    end.
    rewrite H1, H2. split; reflexivity.
Qed.

Lemma persistEquipment_keeps (sameNome : jsstring -> jsstring -> bool)
    (c : partner) (e : option Odoo.entry) (w : world) :
  clientes (snd (Sync.persistEquipment sameNome c e w)) = clientes w
  /\ next_cliente_id (snd (Sync.persistEquipment sameNome c e w))
     = next_cliente_id w.
Proof.
  unfold Sync.persistEquipment.
  destruct (truthy _); [|split; reflexivity].
  unfold bind at 1 3, Sync.selectClienteId.
  destruct (option_map c_id _) as [cid|]; [|split; reflexivity].
  destruct (negb (Z.eqb cid 0)); [|split; reflexivity].
  unfold bind, Sync.deleteEquipamentos.
  match goal with
  | |- context [Sync.insertParts _ ?i ?ps ?w0] =>
      destruct (insertParts_keeps sameNome i ps w0) as [H1 H2]
  end.
  rewrite H1, H2. split; reflexivity.
Qed.





(** The row that [processarCliente] hands to the INSERT for the partner
    [c] when [geocode] gave [g]. *)
Definition rowFor {U : Unicode} (c : partner) (g : option Geocode.geo) : cliente :=
  let estadoSiglaOdoo :=
    Sync.orUF (Sync.cleanUF (p_state_code c))
      (Sync.cleanUF (p_l10n_br_state_code c)) in
  let pais := match p_country_id c with
              | Some cid => snd cid
              | None => lit "Brasil"
              end in
  {| c_id := 0; c_id_odoo := p_id c; c_nome := p_name c;
     c_telefone := orElse (p_phone c) [];
     c_celular := orElse (p_mobile c) [];
     c_email := orElse (p_email c) [];
     c_site := orElse (p_website c) [];
     c_logradouro := orElse (p_street c) [];
     c_numero := orElse (p_numero c) [];
     c_complemento := orElse (p_street2 c) [];
     c_bairro := orElse (p_bairro c) [];
     c_cidade := orElse (p_city c) [];
     c_estado :=
       Sync.orUF estadoSiglaOdoo
         (Sync.orUF (Sync.cleanUF (Sync.geoField g Geocode.n_uf))
            (Sync.orUF (Sync.cleanUF (Sync.geoField g Geocode.n_estado))
               (Sync.orUF (Sync.cleanUF (Sync.geoField g Geocode.n_state))
                  (Sync.cleanUF (Sync.geoField g Geocode.n_state_code)))));
     c_cep := Sync.normalizeCep (Some (orElse (p_zip c) []));
     c_pais := pais;
     c_endereco_completo :=
       Sync.buildEnderecoCompleto
         {| Sync.logradouro := Some (orElse (p_street c) []);
            Sync.numero := Some (orElse (p_numero c) []);
            Sync.bairro := Some (orElse (p_bairro c) []);
            Sync.cidade := Some (orElse (p_city c) []);
            Sync.uf := estadoSiglaOdoo;
            Sync.cep := Some (orElse (p_zip c) []);
            Sync.pais := Some pais |};
     c_latitude := Sync.coordOrNull g Geocode.lat;
     c_longitude := Sync.coordOrNull g Geocode.lng |}.

Lemma processarCliente_stores (U : Unicode) (net : network)
    (statusError : response -> error) (GOOGLE_KEY : option jsstring)
    (sameNome : jsstring -> jsstring -> bool)
    (c : partner) (e : option Odoo.entry) (w : world) :
  exists w' g,
    App.processarCliente net statusError GOOGLE_KEY sameNome c e w
    = (Return true, w')
    /\ (forall f, Sync.geoField g f = None)
    /\ (c_endereco_completo (rowFor c g) = None -> g = None)
    /\ find (fun x => Z.eqb (c_id_odoo x) (p_id c)) (clientes w')
       = Some (withId match localId (p_id c) w with
                      | Some i => i
                      | None => next_cliente_id w
                      end (rowFor c g))
    /\ List.length (clientes w')
       = (List.length (clientes w)
          + match localId (p_id c) w with Some _ => 0 | None => 1 end)%nat
    /\ otherClientes (p_id c) (clientes w') = otherClientes (p_id c) (clientes w)
    /\ match c_endereco_completo (rowFor c None) with
       | Some q =>
           fst (Geocode.geocode net statusError GOOGLE_KEY q
                  (c_cep (rowFor c None)) w) = Return g
       | None => g = None
       end.
Proof.
  unfold App.processarCliente, Sync.processarCliente, tryCatch,
    Sync.processarBody.
  unfold bind at 1.
  match goal with
  | |- context [match ?q with
                | Some e0 => App.geocode _ _ _ e0 ?cp
                | None => ret None
                end w] =>
      destruct (geocodeStep_returns net statusError GOOGLE_KEY q cp w)
        as [g [w1 [EG Hs]]]
  end.
  fold (App.geocode net statusError GOOGLE_KEY).
  rewrite EG.
  unfold bind at 1.
  match goal with
  | |- context [Sync.upsertCliente ?r w1] =>
      change r with (rowFor c g);
      destruct (upsertCliente_spec (rowFor c g) w1) as [w2 [EU _]];
      pose proof (upsertCliente_row (rowFor c g) w) as [Hfind [Hothers Hlen]];
      pose proof (upsertCliente_same_store (rowFor c g) w w1 Hs) as [Hc1 Hn1];
      rewrite EU; rewrite EU in Hc1, Hn1
  end.
  cbn [snd] in Hfind, Hothers, Hlen, Hc1, Hn1.
  change (c_id_odoo (rowFor c g)) with (p_id c) in Hfind, Hothers, Hlen.
  pose proof (persistEquipment_keeps sameNome c e w2) as [Hk1 Hk2].
  destruct (persistEquipment_returns sameNome c e w2) as [w3 [EP _]].
  rewrite EP in Hk1, Hk2. cbn [snd] in Hk1, Hk2.
  unfold bind. rewrite EP. unfold ret.
  exists w3, g. split; [reflexivity|].
  rewrite Hk1, Hc1.
  split; [|split; [|split; [exact Hfind|split; [exact Hlen|split; [exact Hothers|]]]]].
  - intros f. unfold Sync.geoField.
    destruct g as [x|]; [|reflexivity].
    destruct (Sync.buildEnderecoCompleto _) as [q|]; [|discriminate EG].
    pose proof (geocode_no_normalized U net statusError GOOGLE_KEY _ _ _ _ _ EG)
      as Hn.
    simpl in Hn. rewrite Hn. reflexivity.
  - cbn [rowFor c_endereco_completo]. intros Hnone.
    rewrite Hnone in EG. injection EG as <- _. reflexivity.
  - cbn [rowFor c_endereco_completo c_cep].
    destruct (Sync.buildEnderecoCompleto _) as [q|].
    + change (fst (App.geocode net statusError GOOGLE_KEY q
                     (Sync.normalizeCep (Some (orElse (p_zip c) []))) w)
              = Return g).
      rewrite EG. reflexivity.
    + injection EG as <- _. reflexivity.
Qed.

(** X12. In the linked program the estado and the coordinates stored for a
    customer have one source each. The estado is the cleaned region code
    of the CRM partner ([state_code], else [l10n_br_state_code]) or null:
    the fallback to a region reported by the geocoder never contributes,
    as [geocode] returns coordinates only. When the partner has no usable
    address the coordinates stored are null. (Upper-casing the empty
    string is assumed to give the empty string.) *)
Theorem X12_region_comes_from_crm_only (U : Unicode) (net : network)
    (statusError : response -> error) (GOOGLE_KEY : option jsstring)
    (sameNome : jsstring -> jsstring -> bool)
    (c : partner) (e : option Odoo.entry) (w : world) :
  toUpperCase [] = [] ->
  exists w' row,
    App.processarCliente net statusError GOOGLE_KEY sameNome c e w
    = (Return true, w')
    /\ find (fun x => Z.eqb (c_id_odoo x) (p_id c)) (clientes w') = Some row
    /\ c_estado row
       = Sync.orUF (Sync.cleanUF (p_state_code c))
           (Sync.cleanUF (p_l10n_br_state_code c))
    /\ (c_endereco_completo row = None ->
        c_latitude row = None /\ c_longitude row = None).
Proof.
  intros Hup.
  destruct (processarCliente_stores U net statusError GOOGLE_KEY sameNome c e w)
    as [w' [g [E [Hg [Hnone [Hfind _]]]]]].
  eexists. eexists. split; [exact E|]. split; [exact Hfind|].
  split.
  - cbn [withId rowFor c_estado]. rewrite !Hg.
    assert (Hn : Sync.cleanUF None = None).
    { unfold Sync.cleanUF. simpl.
      replace (trim []) with (@nil cu) by reflexivity.
      rewrite Hup. reflexivity. }
    rewrite Hn.
    destruct (Sync.orUF (Sync.cleanUF (p_state_code c)) _); reflexivity.
  - intros Hq. rewrite (Hnone Hq). split; reflexivity.
Qed.

(** A partner of Sao Paulo without any address line. *)
Definition paulista : partner :=
  {| p_id := 9; p_name := Some (lit "Paulista"); p_display_name := None;
     p_street := None; p_street2 := None; p_zip := None; p_city := None;
     p_bairro := None; p_numero := None; p_state_id := None;
     p_country_id := None; p_state_code := Some (lit "sp");
     p_l10n_br_state_code := None; p_phone := None; p_mobile := None;
     p_email := None; p_website := None |}.

Lemma X12_region_comes_from_crm_only_witness :
  toUpperCase (Unicode := asciiUnicode) [] = []
  /\ exists w' row,
       App.processarCliente (U := asciiUnicode) always429 axiosError None
         str_eqb paulista None freshWorld
       = (Return true, w')
       /\ find (fun x => Z.eqb (c_id_odoo x) (p_id paulista)) (clientes w')
          = Some row
       /\ c_estado row
          = Sync.orUF (Sync.cleanUF (U := asciiUnicode) (p_state_code paulista))
              (Sync.cleanUF (U := asciiUnicode) (p_l10n_br_state_code paulista))
       /\ (c_endereco_completo row = None ->
           c_latitude row = None /\ c_longitude row = None).
Proof.
  split; [reflexivity|].
  apply (X12_region_comes_from_crm_only asciiUnicode always429 axiosError None
           str_eqb paulista None freshWorld).
  reflexivity.
Defined.

(** ** sync.js: how a customer can fail *)

(** A [geocode] that raises an error the driver does not look for. *)
Definition failingGeocode : jsstring -> jsstring -> M (option Geocode.geo) :=
  fun _ _ =>
    throw {| err_name := Some (lit "TypeError");
             err_code := None;
             err_message := Some (lit "fetch failed") |}.

(** X13. When [geocode] raises, for a customer, an error that is not the
    fatal network error, the pass goes on with the next entry from the
    world [geocode] left: the customer is reported as processed without
    success, no row is written for it and the cursor does not move. This
    holds for any [geocode]. *)
Theorem X13_failed_customer_is_skipped (U : Unicode)
    (geocode : jsstring -> jsstring -> M (option Geocode.geo))
    (sameNome : jsstring -> jsstring -> bool)
    (it : Sync.matched) (rest : list Sync.matched) (p : partner)
    (endereco : jsstring) (err : error) (w w1 : world) :
  Sync.m_partner it = Some p ->
  c_endereco_completo (rowFor p None) = Some endereco ->
  geocode endereco (c_cep (rowFor p None)) w = (Throw err, w1) ->
  Sync.isFatal err = false ->
  exists b log w2,
    Sync.mainLoop geocode sameNome rest w1 = (Return (b, log), w2)
    /\ Sync.mainLoop geocode sameNome (it :: rest) w
       = (Return (b, Sync.Processed (Sync.idx it) false :: log), w2).
Proof.
  intros Hp Hq EG Hf.
  destruct (@mainLoop_visits U geocode sameNome rest w1) as [b [log [w2 [E2 _]]]].
  exists b, log, w2. split; [exact E2|].
  cbn [Sync.mainLoop]. rewrite Hp.
  unfold bind at 1, Sync.processEntry, tryCatch, bind at 1.
  assert (E : Sync.processarCliente geocode sameNome p (Some (Sync.m_entry it)) w
              = (Return false, w1)).
  { unfold Sync.processarCliente, tryCatch, Sync.processarBody.
    cbn [rowFor c_endereco_completo c_cep] in Hq, EG.
    unfold bind at 1. rewrite Hq, EG, Hf. reflexivity. }
  rewrite E. simpl. unfold bind. rewrite E2. reflexivity.
Qed.

Lemma X13_failed_customer_is_skipped_witness :
  exists b log w2,
    Sync.mainLoop (U := asciiUnicode) failingGeocode str_eqb [] freshWorld
    = (Return (b, log), w2)
    /\ Sync.mainLoop (U := asciiUnicode) failingGeocode str_eqb
         [{| Sync.idx := 0; Sync.m_entry := entryNamed "ACME" "Gerador x2";
             Sync.m_partner := Some acme |}] freshWorld
       = (Return (b, Sync.Processed 0 false :: log), w2).
Proof.
  apply (X13_failed_customer_is_skipped asciiUnicode failingGeocode str_eqb
           {| Sync.idx := 0; Sync.m_entry := entryNamed "ACME" "Gerador x2";
              Sync.m_partner := Some acme |} [] acme
           (lit "Rua A, 10, Centro, Maceio, Brasil")
           {| err_name := Some (lit "TypeError"); err_code := None;
              err_message := Some (lit "fetch failed") |}
           freshWorld freshWorld);
    reflexivity.
Defined.


(** ** odoo.js and sync.js: the two matchers *)

Lemma normalizeName_local {U : Unicode} (s : jsstring) :
  Odoo.normalizeName (Some s) = Sync.normalizeNameLocal s.
Proof. reflexivity. Qed.

Lemma nameCandidates_local {U : Unicode} (r : jsstring) :
  Odoo.nameCandidates (Some r) = Sync.nameCandidatesLocal r.
Proof. reflexivity. Qed.

Lemma partnerKey_found {U : Unicode} (p : partner) :
  truthy (Sync.partnerKey p) = true ->
  In (Sync.partnerKey p) (OdooClient.foundKeysOf p).
Proof.
  unfold Sync.partnerKey, OdooClient.foundKeysOf. rewrite !normalizeName_local.
  intros Ht. apply in_or_app.
  destruct (p_display_name p) as [[|x dn]|]; cbn [orOpt orEmpty orElse truthy] in *.
  - right. destruct (p_name p) as [[|y nm]|]; cbn [orEmpty orElse truthy] in *;
      rewrite Ht; left; reflexivity.
  - left. rewrite Ht. left. reflexivity.
  - right. destruct (p_name p) as [[|y nm]|]; cbn [orEmpty orElse truthy] in *;
      rewrite Ht; left; reflexivity.
Qed.

Lemma isRequestedFound_candidate {U : Unicode} (r : jsstring)
    (partners : list partner) (p : partner) :
  In p partners ->
  memStr (Sync.partnerKey p) (Sync.candidatesOf r) = true ->
  OdooClient.isRequestedFound r (OdooClient.buildFoundKeySet partners) = true.
Proof.
  intros Hin Hm. apply memStr_In in Hm.
  unfold OdooClient.isRequestedFound. apply existsb_exists.
  exists (Sync.partnerKey p). split; [exact Hm|].
  apply memStr_In. unfold OdooClient.buildFoundKeySet. apply uniq_In.
  apply in_flat_map. exists p. split; [exact Hin|].
  apply partnerKey_found.
  unfold Sync.candidatesOf in Hm. apply filter_In in Hm. exact (proj2 Hm).
Qed.

(** X15. The matcher of sync.js and the report of odoo.js agree on exact
    matches. When some partner's key (its normalized display name, or its
    normalized name when it has no display name) equals a candidate of a
    requested name, [findMatchingPartner] returns the first such partner
    and [isRequestedFound] holds for that name against the keys of the
    same partners: the name is never listed in [notFound]. *)
Theorem X15_exact_match_is_reported_found (U : Unicode) (r : jsstring)
    (partners : list partner) (p : partner) (names : list jsstring) :
  find (fun p => memStr (Sync.partnerKey p) (Sync.candidatesOf r)) partners
  = Some p ->
  Sync.findMatchingPartner r partners = Some p
  /\ OdooClient.isRequestedFound r (OdooClient.buildFoundKeySet partners) = true
  /\ ~ In r (OdooClient.notFoundIn partners names).
Proof.
  intros Hf. pose proof (find_some _ _ Hf) as [Hin Hm].
  assert (Hfound : OdooClient.isRequestedFound r
                     (OdooClient.buildFoundKeySet partners) = true)
    by exact (isRequestedFound_candidate r partners p Hin Hm).
  split; [|split; [exact Hfound|]].
  - unfold Sync.findMatchingPartner.
    destruct (Sync.candidatesOf r) as [|c cs] eqn:Ec; [discriminate Hm|].
    rewrite Hf. reflexivity.
  - unfold OdooClient.notFoundIn. intros Hn. apply filter_In in Hn.
    rewrite Hfound in Hn. destruct Hn as [_ Hn]. discriminate Hn.
Qed.

Lemma X15_exact_match_is_reported_found_witness :
  Sync.findMatchingPartner (U := asciiUnicode) (lit "ACME, John")
    [partnerSmith; partnerJohn] = Some partnerJohn
  /\ OdooClient.isRequestedFound (U := asciiUnicode) (lit "ACME, John")
       (OdooClient.buildFoundKeySet (U := asciiUnicode)
          [partnerSmith; partnerJohn]) = true
  /\ ~ In (lit "ACME, John")
         (OdooClient.notFoundIn (U := asciiUnicode) [partnerSmith; partnerJohn]
            [lit "ACME, John"; lit "Nobody"]).
Proof.
  apply (X15_exact_match_is_reported_found asciiUnicode (lit "ACME, John")
           [partnerSmith; partnerJohn] partnerJohn
           [lit "ACME, John"; lit "Nobody"]).
  reflexivity.
Defined.

(** ** odoo.js: the lookup of the roster in the CRM *)

(** The CRM gave the partner [p] in one of its answers. *)
Definition answered (odoo : nat -> OdooClient.call -> outcome OdooClient.result)
    (p : partner) : Prop :=
  exists n c l, odoo n c = Return (OdooClient.Records l) /\ In p l.

(** A call to the CRM raised [e]. *)
Definition raisedBy (odoo : nat -> OdooClient.call -> outcome OdooClient.result)
    (e : error) : Prop :=
  exists n c, odoo n c = Throw e.

(** The two worlds differ at most in the number of requests made. *)
Definition onlyRequests (w w' : world) : Prop :=
  w' = set_requests (fun _ => requests w') w.

Lemma onlyRequests_refl (w : world) : onlyRequests w w.
Proof. unfold onlyRequests. destruct w; reflexivity. Qed.

Lemma onlyRequests_trans (w w1 w2 : world) :
  onlyRequests w w1 -> onlyRequests w1 w2 -> onlyRequests w w2.
Proof.
  unfold onlyRequests. intros H1 H2. rewrite H2. rewrite H1. reflexivity.
Qed.

Lemma onlyRequests_step (w : world) : onlyRequests w (set_requests S w).
Proof. reflexivity. Qed.

Lemma mapSet_In (k : Z) (v : partner) (m : list (Z * partner)) (x : Z * partner) :
  In x (OdooClient.mapSet k v m) -> x = (k, v) \/ In x m.
Proof.
  induction m as [|[k' v'] t IH]; simpl.
  - intros [H|[]]. left. symmetry. exact H.
  - destruct (Z.eqb k k'); simpl.
    + intros [H|H]; [left; symmetry; exact H | right; right; exact H].
    + intros [H|H]; [right; left; exact H|].
      destruct (IH H) as [H1|H1]; [left; exact H1 | right; right; exact H1].
Qed.

Lemma mapSet_keys (k : Z) (v : partner) (m : list (Z * partner)) :
  map fst (OdooClient.mapSet k v m)
  = if existsb (Z.eqb k) (map fst m) then map fst m else map fst m ++ [k].
Proof.
  induction m as [|[k' v'] t IH]; simpl; [reflexivity|].
  destruct (Z.eqb k k') eqn:E; simpl.
  - apply Z.eqb_eq in E. subst. reflexivity.
  - rewrite IH. destruct (existsb (Z.eqb k) (map fst t)); reflexivity.
Qed.

Lemma existsb_Zeqb_In (k : Z) (l : list Z) :
  existsb (Z.eqb k) l = true <-> In k l.
Proof.
  rewrite existsb_exists. split.
  - intros [x [Hx E]]. apply Z.eqb_eq in E. subst. exact Hx.
  - intros H. exists k. split; [exact H | apply Z.eqb_refl].
Qed.

(** The Map [byId] after the records of [l] were set on [m]. *)
Definition setAll (l : list partner) (m : list (Z * partner))
    : list (Z * partner) :=
  fold_left (fun m r => OdooClient.mapSet (p_id r) r m) l m.

Lemma setAll_spec (l : list partner) : forall m,
  NoDup (map fst m) ->
  (forall x, In x m -> p_id (snd x) = fst x) ->
  NoDup (map fst (setAll l m))
  /\ (forall x, In x (setAll l m) -> p_id (snd x) = fst x)
  /\ (forall x, In x (setAll l m) -> In x m \/ In (snd x) l)
  /\ (forall k, In k (map fst (setAll l m)) <-> In k (map fst m) \/ In k (map p_id l)).
Proof.
  induction l as [|r l IH]; intros m Hnd Hid; cbn [setAll fold_left].
  - split; [exact Hnd|]. split; [exact Hid|]. split; [intros x H; left; exact H|].
    intros k. simpl. tauto.
  - fold (setAll l (OdooClient.mapSet (p_id r) r m)).
    assert (Hnd' : NoDup (map fst (OdooClient.mapSet (p_id r) r m))).
    { rewrite mapSet_keys.
      destruct (existsb (Z.eqb (p_id r)) (map fst m)) eqn:Ex; [exact Hnd|].
      apply NoDup_app; [exact Hnd | constructor; [intros [] | constructor] |].
      intros k Hk [Hk'|[]]. subst k.
      apply existsb_Zeqb_In in Hk. rewrite Hk in Ex. discriminate Ex. }
    assert (Hid' : forall x, In x (OdooClient.mapSet (p_id r) r m) ->
                             p_id (snd x) = fst x).
    { intros x Hx. destruct (mapSet_In _ _ _ _ Hx) as [->|H];
        [reflexivity | exact (Hid x H)]. }
    destruct (IH _ Hnd' Hid') as [I1 [I2 [I3 I4]]].
    split; [exact I1|]. split; [exact I2|]. split.
    + intros x Hx. destruct (I3 x Hx) as [H|H].
      * destruct (mapSet_In _ _ _ _ H) as [->|H'];
          [right; left; reflexivity | left; exact H'].
      * right. right. exact H.
    + intros k. rewrite I4, mapSet_keys. simpl.
      destruct (existsb (Z.eqb (p_id r)) (map fst m)) eqn:Ex.
      * apply existsb_Zeqb_In in Ex. split; [tauto|].
        intros [H|[H|H]]; [tauto | subst k; tauto | tauto].
      * rewrite in_app_iff. simpl. tauto.
Qed.

Lemma mergeById_spec (results fuzzyFound : list partner) :
  NoDup (map p_id (OdooClient.mergeById results fuzzyFound))
  /\ (forall p, In p (OdooClient.mergeById results fuzzyFound) ->
                In p (results ++ fuzzyFound))
  /\ (forall k, In k (map p_id (OdooClient.mergeById results fuzzyFound))
                <-> In k (map p_id (results ++ fuzzyFound))).
Proof.
  unfold OdooClient.mergeById.
  fold (setAll (results ++ fuzzyFound) []).
  destruct (setAll_spec (results ++ fuzzyFound) [] (NoDup_nil _))
    as [I1 [I2 [I3 I4]]]; [intros x []|].
  assert (Hk : map p_id (map snd (setAll (results ++ fuzzyFound) []))
               = map fst (setAll (results ++ fuzzyFound) [])).
  { rewrite map_map. apply map_ext_in. intros x Hx. exact (I2 x Hx). }
  rewrite Hk. split; [exact I1|]. split.
  - intros p Hp. apply in_map_iff in Hp. destruct Hp as [x [<- Hx]].
    destruct (I3 x Hx) as [[]|H]. exact H.
  - intros k. rewrite I4. simpl. tauto.
Qed.

Lemma mapSet_sets (k : Z) (v : partner) (m : list (Z * partner)) :
  In (k, v) (OdooClient.mapSet k v m).
Proof.
  induction m as [|[k' v'] t IH]; simpl; [left; reflexivity|].
  destruct (Z.eqb k k'); simpl; [left; reflexivity | right; exact IH].
Qed.

Lemma mapSet_keeps (k : Z) (v : partner) (m : list (Z * partner))
    (x : Z * partner) :
  In x m -> fst x <> k -> In x (OdooClient.mapSet k v m).
Proof.
  induction m as [|[k' v'] t IH]; simpl; [intros []|].
  intros [H|H] Hne.
  - subst x. simpl in Hne. destruct (Z.eqb k k') eqn:E.
    + apply Z.eqb_eq in E. congruence.
    + left. reflexivity.
  - destruct (Z.eqb k k'); simpl; right; [exact H | exact (IH H Hne)].
Qed.

Lemma setAll_keeps (l : list partner) : forall m x,
  In x m -> ~ In (fst x) (map p_id l) -> In x (setAll l m).
Proof.
  induction l as [|r l IH]; intros m x Hx Hn; cbn [setAll fold_left];
    [exact Hx|].
  fold (setAll l (OdooClient.mapSet (p_id r) r m)).
  apply IH.
  - apply mapSet_keeps; [exact Hx|]. intros E. apply Hn. left. symmetry. exact E.
  - intros H. apply Hn. right. exact H.
Qed.

Lemma mergeById_last (results fuzzyFound l1 l2 : list partner) (p : partner) :
  results ++ fuzzyFound = l1 ++ p :: l2 ->
  ~ In (p_id p) (map p_id l2) ->
  In p (OdooClient.mergeById results fuzzyFound).
Proof.
  intros E Hn. unfold OdooClient.mergeById. rewrite E.
  rewrite fold_left_app. cbn [fold_left].
  apply in_map_iff. exists (p_id p, p). split; [reflexivity|].
  apply (setAll_keeps l2); [apply mapSet_sets | exact Hn].
Qed.

(** X16. [byId] merges the exact and the fuzzy answers by CRM id: the
    merged list has no two records with the same id, its ids are exactly
    those of the two lists, every record of it comes from one of them, and
    of the records with one id the last one set is kept, so that a fuzzy
    answer replaces an exact one with the same id. *)
Theorem X16_merge_by_id (results fuzzyFound : list partner) :
  NoDup (map p_id (OdooClient.mergeById results fuzzyFound))
  /\ (forall k, In k (map p_id (OdooClient.mergeById results fuzzyFound))
                <-> In k (map p_id results) \/ In k (map p_id fuzzyFound))
  /\ (forall p, In p (OdooClient.mergeById results fuzzyFound) ->
                In p results \/ In p fuzzyFound)
  /\ (forall l1 p l2,
        results ++ fuzzyFound = l1 ++ p :: l2 ->
        ~ In (p_id p) (map p_id l2) ->
        In p (OdooClient.mergeById results fuzzyFound)).
Proof.
  destruct (mergeById_spec results fuzzyFound) as [H1 [H2 H3]].
  split; [exact H1|]. split; [|split].
  - intros k. rewrite H3, map_app, in_app_iff. tauto.
  - intros p Hp. apply in_app_or. exact (H2 p Hp).
  - intros l1 p l2. apply mergeById_last.
Qed.

Section Lookup.

Context {U : Unicode}.
Variable odoo : nat -> OdooClient.call -> outcome OdooClient.result.

Lemma exactLoop_spec (uid : OdooClient.result) (cs : list (list jsstring)) :
  forall (results : list partner) (w : world),
  match OdooClient.exactLoop odoo uid cs results w with
  | (Return r, w') =>
      requests w' = (requests w + List.length cs)%nat
      /\ onlyRequests w w'
      /\ (forall p, In p r -> In p results \/ answered odoo p)
  | (Throw e, w') =>
      raisedBy odoo e
      /\ (requests w < requests w' <= requests w + List.length cs)%nat
      /\ onlyRequests w w'
  end.
Proof.
  induction cs as [|chunk rest IH]; intros results w.
  - simpl. split; [lia|]. split; [apply onlyRequests_refl|].
    intros p Hp. left. exact Hp.
  - cbn [OdooClient.exactLoop]. unfold bind, OdooClient.odooRPC.
    destruct (odoo (requests w) _) as [data|e] eqn:Eo.
    + match goal with
      | |- context [OdooClient.exactLoop odoo uid rest ?rs ?w1] =>
          specialize (IH rs w1);
          destruct (OdooClient.exactLoop odoo uid rest rs w1) as [[r|e] w']
      end.
      * destruct IH as [Hr [Hf Hp]]. simpl in Hr.
        split; [simpl; lia|].
        split; [exact (onlyRequests_trans _ _ _ (onlyRequests_step w) Hf)|].
        intros p Hin. destruct (Hp p Hin) as [H|H]; [|right; exact H].
        destruct data as [[|x l]|v]; try (left; exact H).
        apply in_app_or in H. destruct H as [H|H]; [left; exact H|].
        right. unfold answered. eexists. eexists. exists (x :: l).
        split; [exact Eo | exact H].
      * destruct IH as [Hr [Hb Hf]]. simpl in Hb.
        split; [exact Hr|]. split; [simpl; lia|].
        exact (onlyRequests_trans _ _ _ (onlyRequests_step w) Hf).
    + split; [unfold raisedBy; eexists; eexists; exact Eo|].
      split; [simpl; lia | apply onlyRequests_step].
Qed.

Lemma fuzzyLoop_spec (uid : OdooClient.result) (missing : list jsstring) :
  forall (fuzzyFound : list partner) (w : world),
  match OdooClient.fuzzyLoop odoo uid missing fuzzyFound w with
  | (Return r, w') =>
      (requests w <= requests w' <= requests w + List.length missing)%nat
      /\ onlyRequests w w'
      /\ (forall p, In p r -> In p fuzzyFound \/ answered odoo p)
  | (Throw e, w') =>
      raisedBy odoo e
      /\ (requests w < requests w' <= requests w + List.length missing)%nat
      /\ onlyRequests w w'
  end.
Proof.
  induction missing as [|m rest IH]; intros fuzzyFound w.
  - simpl. split; [lia|]. split; [apply onlyRequests_refl|].
    intros p Hp. left. exact Hp.
  - cbn [OdooClient.fuzzyLoop].
    destruct (OdooClient.condsOf _) as [|c0 cs].
    + specialize (IH fuzzyFound w).
      destruct (OdooClient.fuzzyLoop odoo uid rest fuzzyFound w) as [[r|e] w'].
      * destruct IH as [Hr [Hf Hp]].
        split; [simpl; lia|]. split; [exact Hf | exact Hp].
      * destruct IH as [Hr [Hb Hf]].
        split; [exact Hr|]. split; [simpl; lia | exact Hf].
    + unfold bind, OdooClient.odooRPC.
      destruct (odoo (requests w) _) as [guess|e] eqn:Eo.
      * match goal with
        | |- context [OdooClient.fuzzyLoop odoo uid rest ?rs ?w1] =>
            specialize (IH rs w1);
            destruct (OdooClient.fuzzyLoop odoo uid rest rs w1) as [[r|e] w']
        end.
        -- destruct IH as [Hr [Hf Hp]]. simpl in Hr.
           split; [simpl; lia|].
           split; [exact (onlyRequests_trans _ _ _ (onlyRequests_step w) Hf)|].
           intros p Hin. destruct (Hp p Hin) as [H|H]; [|right; exact H].
           destruct guess as [[|x l]|v]; try (left; exact H).
           apply in_app_or in H. destruct H as [H|[H|[]]]; [left; exact H|].
           right. unfold answered. eexists. eexists. exists (x :: l).
           split; [exact Eo|].
           subst p.
           match goal with
           | |- In (hd x ?s) _ =>
               assert (Hs : forall y, In y s -> In y (x :: l))
                 by (intros y Hy; apply sortBy_In in Hy; exact Hy);
               destruct s as [|y s']; [left; reflexivity|];
               apply Hs; left; reflexivity
           end.
        -- destruct IH as [Hr [Hb Hf]]. simpl in Hb.
           split; [exact Hr|]. split; [simpl; lia|].
           exact (onlyRequests_trans _ _ _ (onlyRequests_step w) Hf).
      * split; [unfold raisedBy; eexists; eexists; exact Eo|].
        split; [simpl; lia | apply onlyRequests_step].
Qed.

Lemma notFoundIn_length (partners : list partner) (names : list jsstring) :
  (List.length (OdooClient.notFoundIn partners names) <= List.length names)%nat.
Proof. unfold OdooClient.notFoundIn. apply filter_length_le. Qed.

Lemma getCustomersFromSheet_spec (worksheet : option (list Odoo.row))
    (customerColumn equipmentColumn : jsstring) (w : world) :
  match OdooClient.getCustomersFromSheet odoo worksheet customerColumn
          equipmentColumn w with
  | (Return s, w') =>
      Odoo.readCustomersFromXlsx worksheet customerColumn equipmentColumn
      = Return (OdooClient.requested s)
      /\ OdooClient.notFound s
         = OdooClient.notFoundIn (OdooClient.customers s)
             (map Odoo.name (OdooClient.requested s))
      /\ (forall p, In p (OdooClient.customers s) -> answered odoo p)
      /\ (OdooClient.notFound s <> [] ->
          NoDup (map p_id (OdooClient.customers s)))
      /\ (requests w < requests w'
          <= requests w + 1
             + List.length (OdooClient.chunks
                              (map Odoo.name (OdooClient.requested s)))
             + List.length (OdooClient.requested s))%nat
      /\ onlyRequests w w'
  | (Throw e, w') =>
      (raisedBy odoo e
       \/ Odoo.readCustomersFromXlsx worksheet customerColumn equipmentColumn
          = Throw e)
      /\ (requests w < requests w')%nat
      /\ onlyRequests w w'
  end.
Proof.
  unfold OdooClient.getCustomersFromSheet, OdooClient.odooLogin.
  unfold bind at 1. unfold OdooClient.odooRPC at 1.
  destruct (odoo (requests w) OdooClient.Login) as [uid|e] eqn:El.
  2:{ split; [left; exists (requests w), OdooClient.Login; exact El|].
      split; [simpl; lia | apply onlyRequests_step]. }
  unfold bind at 1.
  destruct (Odoo.readCustomersFromXlsx worksheet customerColumn equipmentColumn)
    as [entries|e] eqn:Er.
  2:{ split; [right; reflexivity|].
      split; [simpl; lia | apply onlyRequests_step]. }
  destruct (map Odoo.name entries) as [|n0 ns] eqn:En.
  - simpl. destruct entries; [|discriminate En].
    split; [reflexivity|]. split; [reflexivity|].
    split; [intros p []|]. split; [intros H; contradiction H; reflexivity|].
    split; [lia | apply onlyRequests_step].
  - rewrite <- En. unfold bind at 1.
    pose proof (exactLoop_spec uid (OdooClient.chunks (map Odoo.name entries)) []
                  (set_requests S w)) as He.
    destruct (OdooClient.exactLoop odoo uid _ [] (set_requests S w))
      as [[results|e] w1].
    2:{ destruct He as [Hr [Hb Hf]]. simpl in Hb.
        split; [left; exact Hr|]. split; [lia|].
        exact (onlyRequests_trans _ _ _ (onlyRequests_step w) Hf). }
    destruct He as [Hr [Hf Hp]]. simpl in Hr.
    destruct (OdooClient.notFoundIn results (map Odoo.name entries))
      as [|m0 ms] eqn:Enf.
    + cbn [ret OdooClient.requested OdooClient.customers OdooClient.notFound].
      split; [reflexivity|]. split; [symmetry; exact Enf|].
      split; [intros p H; destruct (Hp p H) as [[]|Ha]; exact Ha|].
      split; [intros H; contradiction H; reflexivity|].
      split; [lia|].
      exact (onlyRequests_trans _ _ _ (onlyRequests_step w) Hf).
    + unfold bind.
      pose proof (fuzzyLoop_spec uid (m0 :: ms) [] w1) as Hz.
      pose proof (notFoundIn_length results (map Odoo.name entries)) as Hlen.
      rewrite Enf, length_map in Hlen.
      destruct (OdooClient.fuzzyLoop odoo uid (m0 :: ms) [] w1)
        as [[fuzzyFound|e] w2].
      2:{ destruct Hz as [Hzr [Hzb Hzf]].
          split; [left; exact Hzr|]. split; [lia|].
          exact (onlyRequests_trans _ _ _
                   (onlyRequests_trans _ _ _ (onlyRequests_step w) Hf) Hzf). }
      destruct Hz as [Hzb [Hzf Hzp]].
      cbn [ret OdooClient.requested OdooClient.customers OdooClient.notFound].
      destruct (mergeById_spec results fuzzyFound) as [M1 [M2 _]].
      split; [reflexivity|]. split; [reflexivity|].
      split.
      { intros p H. apply M2 in H. apply in_app_or in H.
        destruct H as [H|H].
        - destruct (Hp p H) as [[]|Ha]; exact Ha.
        - destruct (Hzp p H) as [[]|Ha]; exact Ha. }
      split; [intros _; exact M1|].
      split; [lia|].
      exact (onlyRequests_trans _ _ _
               (onlyRequests_trans _ _ _ (onlyRequests_step w) Hf) Hzf).
Qed.

End Lookup.

Lemma chunksFrom_spec (fuel : nat) : forall l : list jsstring,
  (List.length l <= fuel)%nat ->
  List.concat (OdooClient.chunksFrom fuel l) = l
  /\ Forall (fun c => (1 <= List.length c <= OdooClient.CHUNK_SIZE)%nat)
            (OdooClient.chunksFrom fuel l)
  /\ (List.length l
      <= OdooClient.CHUNK_SIZE * List.length (OdooClient.chunksFrom fuel l)
      < List.length l + OdooClient.CHUNK_SIZE)%nat.
Proof.
  assert (Hk : (0 < OdooClient.CHUNK_SIZE)%nat)
    by (unfold OdooClient.CHUNK_SIZE; lia).
  induction fuel as [|fuel IH]; intros l Hl.
  - destruct l; [|simpl in Hl; lia]. cbn [OdooClient.chunksFrom List.concat List.length].
    split; [reflexivity|]. split; [constructor | lia].
  - destruct l as [|a t].
    + cbn [OdooClient.chunksFrom List.concat List.length].
      split; [reflexivity|]. split; [constructor | lia].
    + cbn [OdooClient.chunksFrom].
      remember (a :: t) as l0 eqn:El0.
      assert (Hpos : (0 < List.length l0)%nat) by (subst l0; simpl; lia).
      assert (Hs : (List.length (skipn OdooClient.CHUNK_SIZE l0) <= fuel)%nat)
        by (rewrite length_skipn; lia).
      destruct (IH (skipn OdooClient.CHUNK_SIZE l0) Hs) as [I1 [I2 I3]].
      rewrite length_skipn in I3.
      cbn [List.concat List.length].
      split; [rewrite I1; apply firstn_skipn|].
      split.
      * constructor; [|exact I2]. rewrite length_firstn. lia.
      * destruct (List.length (OdooClient.chunksFrom fuel _)) as [|c'].
        -- rewrite Nat.mul_1_r. rewrite Nat.mul_0_r in I3. lia.
        -- rewrite !Nat.mul_succ_r in *. lia.
Qed.

Lemma chunks_spec (l : list jsstring) :
  List.concat (OdooClient.chunks l) = l
  /\ Forall (fun c => (1 <= List.length c <= OdooClient.CHUNK_SIZE)%nat)
            (OdooClient.chunks l)
  /\ (List.length l
      <= OdooClient.CHUNK_SIZE * List.length (OdooClient.chunks l)
      < List.length l + OdooClient.CHUNK_SIZE)%nat.
Proof. apply chunksFrom_spec. lia. Qed.

(** X17. What [getCustomersFromSheet] returns is consistent. Its
    [requested] is the roster read from the workbook; its [notFound] lists
    exactly the requested names that [isRequestedFound] does not find among
    the keys of the [customers] it returns, whether the fuzzy step ran or
    not; every customer returned was given by the CRM in one of its
    answers; and when some name is still reported as not found, no two
    customers returned share a CRM id. When it raises, the error is one
    that a call to the CRM raised, or the one of reading the roster. *)
Theorem X17_lookup_result_is_consistent (U : Unicode)
    (odoo : nat -> OdooClient.call -> outcome OdooClient.result)
    (worksheet : option (list Odoo.row))
    (customerColumn equipmentColumn : jsstring) (w : world) :
  match OdooClient.getCustomersFromSheet odoo worksheet customerColumn
          equipmentColumn w with
  | (Return s, _) =>
      Odoo.readCustomersFromXlsx worksheet customerColumn equipmentColumn
      = Return (OdooClient.requested s)
      /\ OdooClient.notFound s
         = OdooClient.notFoundIn (OdooClient.customers s)
             (map Odoo.name (OdooClient.requested s))
      /\ (forall p, In p (OdooClient.customers s) -> answered odoo p)
      /\ (OdooClient.notFound s <> [] ->
          NoDup (map p_id (OdooClient.customers s)))
  | (Throw e, _) =>
      raisedBy odoo e
      \/ Odoo.readCustomersFromXlsx worksheet customerColumn equipmentColumn
         = Throw e
  end.
Proof.
  pose proof (getCustomersFromSheet_spec odoo worksheet customerColumn
                equipmentColumn w) as H.
  destruct (OdooClient.getCustomersFromSheet odoo worksheet customerColumn
              equipmentColumn w) as [[s|e] w'].
  - destruct H as [H1 [H2 [H3 [H4 _]]]]. repeat split; assumption.
  - exact (proj1 H).
Qed.

(** X18. What a lookup costs. [getCustomersFromSheet] always makes at
    least one call, the login, and changes nothing in the world but the
    number of requests made. When it returns, it has made at most one
    login, one exact lookup per chunk and one fuzzy lookup per name; the
    chunks hold between 1 and [CHUNK_SIZE] names each and, put end to end,
    are the names of the roster in order, so that there are as few chunks
    as can hold the names. *)
Theorem X18_lookup_request_budget (U : Unicode)
    (odoo : nat -> OdooClient.call -> outcome OdooClient.result)
    (worksheet : option (list Odoo.row))
    (customerColumn equipmentColumn : jsstring) (w : world) :
  let r := OdooClient.getCustomersFromSheet odoo worksheet customerColumn
             equipmentColumn w in
  onlyRequests w (snd r)
  /\ (requests w < requests (snd r))%nat
  /\ forall s, fst r = Return s ->
       let names := map Odoo.name (OdooClient.requested s) in
       (requests (snd r)
        <= requests w + 1 + List.length (OdooClient.chunks names)
           + List.length names)%nat
       /\ List.concat (OdooClient.chunks names) = names
       /\ Forall (fun c => (1 <= List.length c <= OdooClient.CHUNK_SIZE)%nat)
                 (OdooClient.chunks names)
       /\ (List.length names
           <= OdooClient.CHUNK_SIZE * List.length (OdooClient.chunks names)
           < List.length names + OdooClient.CHUNK_SIZE)%nat.
Proof.
  intros r. subst r.
  pose proof (getCustomersFromSheet_spec odoo worksheet customerColumn
                equipmentColumn w) as H.
  destruct (OdooClient.getCustomersFromSheet odoo worksheet customerColumn
              equipmentColumn w) as [[s|e] w']; cbn [fst snd].
  - destruct H as [_ [_ [_ [_ [Hb Hf]]]]].
    split; [exact Hf|]. split; [lia|].
    intros s0 E. injection E as <-. cbv zeta.
    destruct (chunks_spec (map Odoo.name (OdooClient.requested s)))
      as [C1 [C2 C3]].
    rewrite length_map in *.
    split; [lia|]. split; [exact C1|]. split; [exact C2 | exact C3].
  - destruct H as [_ [Hb Hf]].
    split; [exact Hf|]. split; [exact Hb|]. intros s0 E. discriminate E.
Qed.

(** ** The whole program: a pass that cannot read its roster *)

Lemma checkPause_frame (w : world) :
  exists go w0,
    Sync.checkPause w = (Return go, w0)
    /\ requests w0 = requests w
    /\ clientes w0 = clientes w
    /\ equipamentos w0 = equipamentos w
    /\ cursorOf w0 = cursorOf w
    /\ (go = false -> w0 = w)
    /\ (go = true -> pausedSince w0 = None).
Proof.
  unfold Sync.checkPause.
  destruct (negb (clearedPauseOnStartup w)).
  - eexists; eexists. split; [reflexivity|].
    unfold cursorOf, pausedSince, Sync.clearPause; simpl.
    repeat split; try discriminate; destruct (sync_state w); reflexivity.
  - unfold bind at 1, Sync.getPauseState.
    destruct (paused_since _) as [since|] eqn:Ep.
    + unfold bind at 1, Sync.hoursSince.
      destruct (Z.ltb _ 7).
      * eexists; eexists. split; [reflexivity|].
        repeat split; discriminate.
      * eexists; eexists. split; [reflexivity|].
        unfold cursorOf, pausedSince, Sync.clearPause; simpl.
        repeat split; try discriminate; destruct (sync_state w); reflexivity.
    + eexists; eexists. split; [reflexivity|].
      repeat split; try discriminate.
      intros _. unfold pausedSince. destruct (sync_state w); exact Ep.
Qed.

(** X19. When the login to the CRM fails, or the roster cannot be read,
    the pass of the whole program ends at once with that error as the
    main error (unless the pass is still paused and does nothing): one
    request was made, no customer and no equipment row was written, the
    cursor did not move and no pause was recorded. *)
Theorem X19_unreadable_roster_aborts_the_pass (U : Unicode) (net : network)
    (statusError : response -> error) (GOOGLE_KEY : option jsstring)
    (odoo : nat -> OdooClient.call -> outcome OdooClient.result)
    (worksheet : option (list Odoo.row))
    (sameNome : jsstring -> jsstring -> bool) (e : error) (w : world) :
  odoo (requests w) OdooClient.Login = Throw e
  \/ ((exists uid, odoo (requests w) OdooClient.Login = Return uid)
      /\ Odoo.readCustomersFromXlsx worksheet (lit "Cliente")
           (lit "Itens do pedido") = Throw e) ->
  exists r w',
    Program.syncClientes net statusError GOOGLE_KEY odoo worksheet sameNome w
    = (Return r, w')
    /\ (r = Sync.StillPaused /\ w' = w
        \/ r = Sync.MainError e
           /\ requests w' = S (requests w)
           /\ pausedSince w' = None)
    /\ clientes w' = clientes w
    /\ equipamentos w' = equipamentos w
    /\ cursorOf w' = cursorOf w.
Proof.
  intros Hfail.
  unfold Program.syncClientes, App.syncClientes, Sync.syncClientes, tryCatch.
  unfold bind at 1.
  destruct (checkPause_frame w) as [go [w0 [E [Hr [Hc [He [Hcur [Hno Hyes]]]]]]]].
  rewrite E. destruct go.
  - unfold Sync.proceed, bind at 1, Program.getCustomersFromSheet, bind at 1.
    unfold OdooClient.getCustomersFromSheet, OdooClient.odooLogin.
    unfold bind at 1. unfold OdooClient.odooRPC at 1. rewrite Hr.
    destruct Hfail as [Hl | [[uid Hl] Hread]]; rewrite Hl.
    + eexists; eexists. split; [reflexivity|].
      split; [right; split; [reflexivity|]|].
      * split; [simpl; rewrite Hr; reflexivity|].
        unfold pausedSince in *. simpl. exact (Hyes eq_refl).
      * simpl. unfold cursorOf in *. simpl. auto.
    + unfold bind at 1. rewrite Hread.
      eexists; eexists. split; [reflexivity|].
      split; [right; split; [reflexivity|]|].
      * split; [simpl; rewrite Hr; reflexivity|].
        unfold pausedSince in *. simpl. exact (Hyes eq_refl).
      * simpl. unfold cursorOf in *. simpl. auto.
  - exists Sync.StillPaused, w0. split; [reflexivity|].
    rewrite (Hno eq_refl). split; [left; split; reflexivity|].
    repeat split; reflexivity.
Qed.

(** A CRM that refuses every connection. *)
Definition crmDown : nat -> OdooClient.call -> outcome OdooClient.result :=
  fun _ _ => Throw refusedError.

Lemma X19_unreadable_roster_aborts_the_pass_witness :
  exists r w',
    Program.syncClientes (U := asciiUnicode) always429 axiosError None crmDown
      None str_eqb freshWorld
    = (Return r, w')
    /\ (r = Sync.StillPaused /\ w' = freshWorld
        \/ r = Sync.MainError refusedError
           /\ requests w' = S (requests freshWorld)
           /\ pausedSince w' = None)
    /\ clientes w' = clientes freshWorld
    /\ equipamentos w' = equipamentos freshWorld
    /\ cursorOf w' = cursorOf freshWorld.
Proof.
  apply (X19_unreadable_roster_aborts_the_pass asciiUnicode always429 axiosError
           None crmDown None str_eqb refusedError freshWorld).
  left. reflexivity.
Defined.

(** ** Strings: what is stored is normalised *)

Lemma dropWhile_idem (p : cu -> bool) (s : jsstring) :
  dropWhile p (dropWhile p s) = dropWhile p s.
Proof.
  induction s as [|c t IH]; simpl; [reflexivity|].
  destruct (p c) eqn:E; [exact IH|]. simpl. rewrite E. reflexivity.
Qed.

Lemma dropWhile_head (p : cu -> bool) (s r : jsstring) (c : cu) :
  dropWhile p s = c :: r -> p c = false.
Proof.
  induction s as [|d t IH]; simpl; [discriminate|].
  destruct (p d) eqn:E; [exact IH|].
  intros H. injection H as <- _. exact E.
Qed.

Lemma dropWhile_split (p : cu -> bool) (s : jsstring) :
  exists pre, s = pre ++ dropWhile p s /\ forallb p pre = true.
Proof.
  induction s as [|c t [pre [IH Hp]]]; simpl.
  - exists []. split; reflexivity.
  - destruct (p c) eqn:E.
    + exists (c :: pre). simpl. rewrite E, Hp. split; [f_equal; exact IH|reflexivity].
    + exists []. split; reflexivity.
Qed.

Lemma trimEnd_prefix (s : jsstring) :
  exists suf, s = trimEnd s ++ suf /\ forallb isSpace suf = true.
Proof.
  unfold trimEnd.
  destruct (dropWhile_split isSpace (rev s)) as [pre [E Hp]].
  exists (rev pre). split.
  - rewrite <- rev_app_distr, <- E. symmetry. apply rev_involutive.
  - rewrite forallb_forall in *. intros x Hx. apply Hp.
    apply in_rev. exact Hx.
Qed.

Lemma trimStart_trimEnd (s : jsstring) :
  trimStart (trimEnd (trimStart s)) = trimEnd (trimStart s).
Proof.
  destruct (trimEnd (trimStart s)) as [|c r] eqn:E; [reflexivity|].
  destruct (trimEnd_prefix (trimStart s)) as [suf [Hs _]].
  rewrite E in Hs. unfold trimStart in Hs. simpl in Hs.
  apply dropWhile_head in Hs. unfold trimStart. simpl. rewrite Hs. reflexivity.
Qed.

Lemma trim_idem (s : jsstring) : trim (trim s) = trim s.
Proof.
  unfold trim. rewrite trimStart_trimEnd.
  unfold trimEnd. rewrite rev_involutive, dropWhile_idem. reflexivity.
Qed.

(** No white space but single U+0020, none of them next to another;
    [prev] tells that the code unit before was white space. *)
Fixpoint spacedOk (prev : bool) (s : jsstring) : bool :=
  match s with
  | [] => true
  | c :: t =>
      if isSpace c then negb prev && cu_eqb c 32%N && spacedOk true t
      else spacedOk false t
  end.

Lemma collapseFrom_spacedOk (s : jsstring) : forall b,
  spacedOk b (collapseFrom b s) = true.
Proof.
  induction s as [|c t IH]; intros b; simpl; [reflexivity|].
  destruct (isSpace c) eqn:E.
  - destruct b; [apply IH|].
    change (spacedOk false (32%N :: collapseFrom true t))
      with (spacedOk true (collapseFrom true t)).
    apply IH.
  - simpl. rewrite E. apply IH.
Qed.

Lemma spacedOk_fixed (s : jsstring) : forall b,
  spacedOk b s = true -> collapseFrom b s = s.
Proof.
  induction s as [|c t IH]; intros b; simpl; [reflexivity|].
  destruct (isSpace c) eqn:E.
  - intros H. apply andb_true_iff in H. destruct H as [H H3].
    apply andb_true_iff in H. destruct H as [H1 H2].
    apply negb_true_iff in H1. subst b.
    apply cu_eqb_eq in H2. subst c. rewrite (IH true H3). reflexivity.
  - intros H. rewrite (IH false H). reflexivity.
Qed.

Lemma spacedOk_prefix (s1 s2 : jsstring) : forall b,
  spacedOk b (s1 ++ s2) = true -> spacedOk b s1 = true.
Proof.
  induction s1 as [|c t IH]; intros b; simpl; [reflexivity|].
  destruct (isSpace c).
  - intros H. apply andb_true_iff in H. destruct H as [H H3].
    rewrite H. simpl. exact (IH true H3).
  - apply IH.
Qed.

Lemma spacedOk_dropWhile (s : jsstring) : forall b,
  spacedOk b s = true -> spacedOk false (dropWhile isSpace s) = true.
Proof.
  induction s as [|c t IH]; intros b; simpl; [reflexivity|].
  destruct (isSpace c) eqn:E.
  - intros H. apply andb_true_iff in H. exact (IH true (proj2 H)).
  - intros H. simpl. rewrite E. exact H.
Qed.

Lemma tidy_trim_collapse (s : jsstring) :
  trim (trim (collapseSpaces s)) = trim (collapseSpaces s)
  /\ collapseSpaces (trim (collapseSpaces s)) = trim (collapseSpaces s).
Proof.
  split; [apply trim_idem|].
  unfold collapseSpaces at 1. apply spacedOk_fixed.
  unfold trim.
  destruct (trimEnd_prefix (trimStart (collapseSpaces s))) as [suf [E _]].
  apply (spacedOk_prefix _ suf). rewrite <- E.
  unfold trimStart. apply (spacedOk_dropWhile _ false).
  apply collapseFrom_spacedOk.
Qed.

(** X20. What the program stores as text is normalised: trimming it or
    collapsing its white space once more changes nothing. This holds for
    the name that [sanitizeEquipmentName] returns and so for the name of
    every item that [parsePart] yields, and for the canonical address that
    [buildEnderecoCompleto] returns, which is moreover never empty.
    [parsePart] never yields the quantity 0: a quantity written as 0 is
    stored as null. *)
Theorem X20_stored_text_is_normalised (U : Unicode) :
  (forall raw,
     trim (Sync.sanitizeEquipmentName raw) = Sync.sanitizeEquipmentName raw
     /\ collapseSpaces (Sync.sanitizeEquipmentName raw)
        = Sync.sanitizeEquipmentName raw)
  /\ (forall part,
        trim (Sync.i_name (Sync.parsePart part)) = Sync.i_name (Sync.parsePart part)
        /\ collapseSpaces (Sync.i_name (Sync.parsePart part))
           = Sync.i_name (Sync.parsePart part)
        /\ Sync.i_qty (Sync.parsePart part) <> Some 0%Z)
  /\ (forall a q,
        Sync.buildEnderecoCompleto a = Some q ->
        q <> [] /\ trim q = q /\ collapseSpaces q = q).
Proof.
  split; [|split].
  - intros raw. unfold Sync.sanitizeEquipmentName. apply tidy_trim_collapse.
  - intros part. unfold Sync.parsePart. cbn [Sync.i_name Sync.i_qty].
    split; [|split].
    + unfold Sync.sanitizeEquipmentName. apply tidy_trim_collapse.
    + unfold Sync.sanitizeEquipmentName. apply tidy_trim_collapse.
    + destruct (Regex.exec Sync.partRegex part) as [m|]; [|discriminate].
      destruct (Regex.group 2 m) as [d|]; [|discriminate].
      destruct (truthy d); [|discriminate].
      destruct (Z.eqb (parseDigits d) 0) eqn:E; [discriminate|].
      apply Z.eqb_neq in E. congruence.
  - intros a q. unfold Sync.buildEnderecoCompleto.
    destruct (negb (truthy (Sync.joined a)) || _) eqn:E; [discriminate|].
    intros H. injection H as <-.
    apply orb_false_iff in E. destruct E as [E _].
    apply negb_false_iff in E.
    split; [intros H; rewrite H in E; discriminate E|].
    unfold Sync.joined. apply tidy_trim_collapse.
Qed.

(** ** odoo.js and sync.js: the candidates of a requested name *)

Lemma firstn_In {A} (n : nat) (l : list A) (x : A) :
  In x (firstn n l) -> In x l.
Proof.
  intros H. rewrite <- (firstn_skipn n l). apply in_or_app. left. exact H.
Qed.

Lemma uniqFrom_length (l : list jsstring) : forall seen,
  (List.length (uniqFrom seen l) <= List.length l)%nat.
Proof.
  induction l as [|x t IH]; intros seen; simpl; [lia|].
  destruct (memStr x seen); simpl.
  - specialize (IH seen). lia.
  - specialize (IH (x :: seen)). lia.
Qed.

(** X21. The candidates of a requested name, which odoo.js and sync.js
    compute with two copies of one function. Both copies give the same
    list. It holds at most three candidates, no candidate twice, none
    empty, each one trimmed; it is empty exactly when the name is blank,
    and otherwise starts with the trimmed name itself, which is the only
    candidate when the name has no comma. *)
Theorem X21_name_candidates (U : Unicode) (r : jsstring) :
  Sync.nameCandidatesLocal r = Odoo.nameCandidates (Some r)
  /\ (List.length (Odoo.nameCandidates (Some r)) <= 3)%nat
  /\ NoDup (Odoo.nameCandidates (Some r))
  /\ (forall c, In c (Odoo.nameCandidates (Some r)) -> c <> [] /\ trim c = c)
  /\ (Odoo.nameCandidates (Some r) = [] <-> trim r = [])
  /\ (trim r <> [] -> hd [] (Odoo.nameCandidates (Some r)) = trim r)
  /\ (trim r <> [] -> includesCu (trim r) 44%N = false ->
      Odoo.nameCandidates (Some r) = [trim r]).
Proof.
  split; [reflexivity|].
  unfold Odoo.nameCandidates. cbn [orEmpty].
  destruct (trim r) as [|c0 raw] eqn:Er.
  - cbn [truthy negb].
    split; [simpl; lia|]. split; [constructor|].
    split; [intros c []|]. split; [tauto|].
    split; intros H; contradiction H; reflexivity.
  - cbn [truthy negb].
    set (rest := if includesCu (c0 :: raw) 44%N
                 then firstn 2 (filter truthy (map trim (splitCu 44%N (c0 :: raw))))
                 else []).
    assert (Hrest : (List.length rest <= 2)%nat).
    { subst rest. destruct (includesCu _ _); [apply firstn_le_length | simpl; lia]. }
    split.
    { pose proof (uniqFrom_length ((c0 :: raw) :: rest) []) as H.
      unfold uniq. simpl in H |- *. lia. }
    split; [apply uniq_NoDup|].
    split.
    { intros c Hc. apply (proj1 (uniq_In _ _)) in Hc. destruct Hc as [<-|Hc].
      - split; [discriminate|]. rewrite <- Er. apply trim_idem.
      - subst rest. destruct (includesCu _ _); [|destruct Hc].
        apply firstn_In in Hc. apply filter_In in Hc. destruct Hc as [Hc Ht].
        split; [intros ->; discriminate Ht|].
        apply in_map_iff in Hc. destruct Hc as [x [<- _]]. apply trim_idem. }
    split; [split; [intros H|intros H; discriminate H]|].
    { apply (f_equal (@List.length _)) in H. unfold uniq in H.
      cbn [uniqFrom memStr existsb] in H. simpl in H. discriminate H. }
    split; [intros _; reflexivity|].
    intros _ Hc. subst rest. rewrite Hc. reflexivity.
Qed.

(** ** odoo.js and sync.js: merging equipment texts and splitting them *)

Lemma memStr_ext (x : jsstring) (s s' : list jsstring) :
  (forall y, In y s <-> In y s') -> memStr x s = memStr x s'.
Proof.
  intros H. destruct (memStr x s) eqn:E1, (memStr x s') eqn:E2; try reflexivity.
  - apply memStr_In in E1. apply H in E1. apply memStr_In in E1. congruence.
  - apply memStr_In in E2. apply H in E2. apply memStr_In in E2. congruence.
Qed.

Lemma uniqFrom_ext (l : list jsstring) : forall s s',
  (forall y, In y s <-> In y s') -> uniqFrom s l = uniqFrom s' l.
Proof.
  induction l as [|x t IH]; intros s s' H; simpl; [reflexivity|].
  rewrite (memStr_ext x s s' H).
  destruct (memStr x s'); [apply IH; exact H|].
  f_equal. apply IH. intros y. simpl. rewrite H. tauto.
Qed.

Lemma uniqFrom_app (l m : list jsstring) : forall seen,
  uniqFrom seen (l ++ m) = uniqFrom seen l ++ uniqFrom (l ++ seen) m.
Proof.
  induction l as [|x t IH]; intros seen; simpl; [reflexivity|].
  destruct (memStr x seen) eqn:E.
  - rewrite IH. f_equal. apply uniqFrom_ext. intros y. simpl.
    rewrite !in_app_iff. apply memStr_In in E.
    split; [tauto|]. intros [->|[H|H]]; tauto.
  - simpl. rewrite IH. f_equal. f_equal. apply uniqFrom_ext. intros y.
    simpl. rewrite !in_app_iff. simpl. tauto.
Qed.

Lemma uniqFrom_absorbed (m : list jsstring) : forall seen,
  (forall x, In x m -> In x seen) -> uniqFrom seen m = [].
Proof.
  induction m as [|x t IH]; intros seen H; simpl; [reflexivity|].
  assert (E : memStr x seen = true) by (apply memStr_In, H; left; reflexivity).
  rewrite E. apply IH. intros y Hy. apply H. right. exact Hy.
Qed.

Lemma uniqFrom_uniqFrom (m : list jsstring) : forall s s',
  (forall x, In x s' -> In x s) ->
  uniqFrom s (uniqFrom s' m) = uniqFrom s m.
Proof.
  induction m as [|x t IH]; intros s s' H; simpl; [reflexivity|].
  destruct (memStr x s') eqn:E'.
  - apply memStr_In in E'. apply H in E'. apply memStr_In in E'.
    rewrite E'. apply IH. exact H.
  - simpl. destruct (memStr x s) eqn:E.
    + apply IH. intros y [<-|Hy]; [apply memStr_In; exact E | apply H; exact Hy].
    + f_equal. apply IH. intros y [<-|Hy]; [left; reflexivity | right; apply H; exact Hy].
Qed.

Lemma uniq_app_uniq_l (l m : list jsstring) : uniq (uniq l ++ m) = uniq (l ++ m).
Proof.
  unfold uniq. rewrite !uniqFrom_app. f_equal.
  - apply uniqFrom_uniqFrom. intros x H. exact H.
  - apply uniqFrom_ext. intros y. rewrite !in_app_iff.
    fold (uniq l). rewrite uniq_In. tauto.
Qed.

Lemma uniq_app_uniq_r (l m : list jsstring) : uniq (l ++ uniq m) = uniq (l ++ m).
Proof.
  unfold uniq. rewrite !uniqFrom_app. f_equal.
  apply uniqFrom_uniqFrom. intros x [].
Qed.

Lemma uniq_app_absorbed (l m : list jsstring) :
  (forall x, In x m -> In x l) -> uniq (l ++ m) = uniq l.
Proof.
  intros H. unfold uniq. rewrite uniqFrom_app.
  rewrite (uniqFrom_absorbed m).
  - apply app_nil_r.
  - intros x Hx. apply in_or_app. left. apply H. exact Hx.
Qed.

(** A piece as [splitParts] yields them: not empty, trimmed, without a
    separator. *)
Definition isPiece (p : jsstring) : Prop :=
  p <> [] /\ trim p = p /\ forallb (fun c => negb (Odoo.isSep c)) p = true.

Lemma splitRunsFrom_pieces (p : cu -> bool) (s : jsstring) :
  forall inSep cur piece,
  forallb (fun c => negb (p c)) cur = true ->
  In piece (splitRunsFrom p inSep cur s) ->
  forallb (fun c => negb (p c)) piece = true.
Proof.
  induction s as [|c t IH]; intros inSep cur piece Hcur; simpl.
  - intros [<-|[]]. rewrite forallb_forall in *. intros x Hx.
    apply Hcur. apply in_rev. exact Hx.
  - destruct (p c) eqn:E.
    + destruct inSep.
      * apply IH. exact Hcur.
      * intros [<-|H].
        -- rewrite forallb_forall in *. intros x Hx.
           apply Hcur. apply in_rev. exact Hx.
        -- exact (IH true [] piece eq_refl H).
    + apply IH. simpl. rewrite E, Hcur. reflexivity.
Qed.

Lemma dropWhile_In (p : cu -> bool) (s : jsstring) (c : cu) :
  In c (dropWhile p s) -> In c s.
Proof.
  destruct (dropWhile_split p s) as [pre [E _]]. intros H.
  rewrite E. apply in_or_app. right. exact H.
Qed.

Lemma trim_In (s : jsstring) (c : cu) : In c (trim s) -> In c s.
Proof.
  unfold trim, trimStart. intros H.
  apply (dropWhile_In isSpace).
  destruct (trimEnd_prefix (dropWhile isSpace s)) as [suf [E _]].
  rewrite E. apply in_or_app. left. exact H.
Qed.

Lemma splitParts_pieces (s : jsstring) : Forall isPiece (Sync.splitParts s).
Proof.
  apply Forall_forall. intros p Hp. unfold Sync.splitParts in Hp.
  apply filter_In in Hp. destruct Hp as [Hp Ht].
  apply in_map_iff in Hp. destruct Hp as [x [<- Hx]].
  split; [intros E; rewrite E in Ht; discriminate Ht|].
  split; [apply trim_idem|].
  pose proof (splitRunsFrom_pieces Odoo.isSep s false [] x eq_refl Hx) as Hs.
  rewrite forallb_forall in *. intros c Hc. apply Hs. apply trim_In. exact Hc.
Qed.

Lemma splitRunsFrom_piece (p : cu -> bool) (s : jsstring) :
  forall inSep cur rest,
  s <> [] ->
  forallb (fun c => negb (p c)) s = true ->
  splitRunsFrom p inSep cur (s ++ rest)
  = splitRunsFrom p false (rev s ++ cur) rest.
Proof.
  induction s as [|c t IH]; intros inSep cur rest Hne Hs; [contradiction Hne; reflexivity|].
  simpl in Hs. apply andb_true_iff in Hs. destruct Hs as [Hc Ht].
  apply negb_true_iff in Hc. cbn [app splitRunsFrom]. rewrite Hc.
  destruct t as [|d t'].
  - reflexivity.
  - rewrite (IH false (c :: cur) rest); [|discriminate|exact Ht].
    cbn [rev]. rewrite <- !app_assoc. reflexivity.
Qed.

Lemma dropWhile_spaces (pre x : jsstring) :
  forallb isSpace pre = true ->
  dropWhile isSpace (pre ++ x) = dropWhile isSpace x.
Proof.
  induction pre as [|c t IH]; simpl; [reflexivity|].
  intros H. apply andb_true_iff in H. destruct H as [Hc Ht].
  rewrite Hc. exact (IH Ht).
Qed.

Lemma trim_spaces (pre x : jsstring) :
  forallb isSpace pre = true -> trim (pre ++ x) = trim x.
Proof.
  intros H. unfold trim, trimStart. rewrite (dropWhile_spaces pre x H).
  reflexivity.
Qed.

Lemma split_join_from (l : list jsstring) : forall inSep cur,
  l <> [] ->
  Forall isPiece l ->
  forallb isSpace cur = true ->
  map trim (splitRunsFrom Odoo.isSep inSep cur (join (lit "; ") l)) = l.
Proof.
  induction l as [|p1 l IH]; intros inSep cur Hne Hl Hcur;
    [contradiction Hne; reflexivity|].
  inversion Hl as [|? ? [Hp1 [Htrim Hsep]] Hl']; subst.
  assert (Hrev : forallb isSpace (rev cur) = true).
  { apply forallb_forall. intros x Hx. rewrite forallb_forall in Hcur.
    apply Hcur, in_rev. exact Hx. }
  destruct l as [|p2 l'].
  - cbn [join]. rewrite <- (app_nil_r p1) at 1.
    rewrite (splitRunsFrom_piece Odoo.isSep p1 inSep cur [] Hp1 Hsep).
    cbn [splitRunsFrom map]. rewrite rev_app_distr, rev_involutive.
    rewrite (trim_spaces _ _ Hrev), Htrim. reflexivity.
  - change (join (lit "; ") (p1 :: p2 :: l'))
      with (p1 ++ 59%N :: 32%N :: join (lit "; ") (p2 :: l')).
    rewrite (splitRunsFrom_piece Odoo.isSep p1 inSep cur _ Hp1 Hsep).
    cbn [splitRunsFrom].
    change (Odoo.isSep 59%N) with true. change (Odoo.isSep 32%N) with false.
    cbn [map]. rewrite rev_app_distr, rev_involutive.
    rewrite (trim_spaces _ _ Hrev), Htrim. f_equal.
    apply (IH false [32%N]); [discriminate | exact Hl' | reflexivity].
Qed.

Lemma splitParts_join (l : list jsstring) :
  Forall isPiece l -> Sync.splitParts (join (lit "; ") l) = l.
Proof.
  intros Hl. unfold Sync.splitParts, splitRuns.
  destruct l as [|p l'] eqn:El; [reflexivity|].
  rewrite (split_join_from (p :: l') false []); [|discriminate|exact Hl|reflexivity].
  apply forallb_filter_id. apply forallb_forall. intros x Hx.
  rewrite Forall_forall in Hl. destruct (Hl x Hx) as [Hne _].
  destruct x; [contradiction Hne; reflexivity | reflexivity].
Qed.

Lemma mergeEquipment_parts (a b : jsstring) :
  Odoo.mergeEquipment a b
  = join (lit "; ") (uniq (Sync.splitParts a ++ Sync.splitParts b)).
Proof.
  rewrite mergeEquipment_formula. unfold Sync.splitParts.
  rewrite map_app, filter_app. reflexivity.
Qed.

Lemma uniq_pieces (l : list jsstring) : Forall isPiece l -> Forall isPiece (uniq l).
Proof.
  rewrite !Forall_forall. intros H x Hx. apply H.
  apply (proj1 (uniq_In _ _)). exact Hx.
Qed.

(** X22. Merging equipment texts in odoo.js and splitting them in sync.js
    fit together. The parts that [splitParts] takes of a merged text are
    exactly the distinct parts of the two texts, in the order of their
    first occurrence. Hence merging the same text in again changes
    nothing, and merging three texts gives the same text whichever two
    are merged first. *)
Theorem X22_merge_then_split (a b c : jsstring) :
  Sync.splitParts (Odoo.mergeEquipment a b)
  = uniq (Sync.splitParts a ++ Sync.splitParts b)
  /\ Odoo.mergeEquipment (Odoo.mergeEquipment a b) b = Odoo.mergeEquipment a b
  /\ Odoo.mergeEquipment (Odoo.mergeEquipment a b) c
     = Odoo.mergeEquipment a (Odoo.mergeEquipment b c).
Proof.
  assert (Hsplit : forall x y,
            Sync.splitParts (Odoo.mergeEquipment x y)
            = uniq (Sync.splitParts x ++ Sync.splitParts y)).
  { intros x y. rewrite mergeEquipment_parts. apply splitParts_join.
    apply uniq_pieces. apply Forall_app.
    split; apply splitParts_pieces. }
  split; [apply Hsplit|]. split.
  - rewrite (mergeEquipment_parts (Odoo.mergeEquipment a b) b), Hsplit.
    rewrite uniq_app_uniq_l, uniq_app_absorbed.
    + symmetry. apply mergeEquipment_parts.
    + intros x Hx. apply in_or_app. right. exact Hx.
  - rewrite (mergeEquipment_parts (Odoo.mergeEquipment a b) c), Hsplit.
    rewrite (mergeEquipment_parts a (Odoo.mergeEquipment b c)), Hsplit.
    rewrite uniq_app_uniq_l, uniq_app_uniq_r, app_assoc. reflexivity.
Qed.

(** ** server.js and sync.js: who is on the map *)

(** X23. The customer that the linked program has just processed is among
    the rows that [GET /clientes] sends exactly when the customer has a
    usable address and [geocode] found, for that address, coordinates that
    are both different from 0: a coordinate 0 is stored as null, like a
    missing one. The handler changes nothing. *)
Theorem X23_on_the_map_only_with_coordinates (U : Unicode) (net : network)
    (statusError : response -> error) (GOOGLE_KEY : option jsstring)
    (sameNome : jsstring -> jsstring -> bool)
    (c : partner) (e : option Odoo.entry) (w : world) :
  exists w' row sent,
    App.processarCliente net statusError GOOGLE_KEY sameNome c e w
    = (Return true, w')
    /\ find (fun x => Z.eqb (c_id_odoo x) (p_id c)) (clientes w') = Some row
    /\ Server.getClientes w' = (Return sent, w')
    /\ (In row sent <->
        exists q x,
          c_endereco_completo row = Some q
          /\ fst (Geocode.geocode net statusError GOOGLE_KEY q (c_cep row) w)
             = Return (Some x)
          /\ Geocode.lat x <> 0%Z /\ Geocode.lng x <> 0%Z).
Proof.
  destruct (processarCliente_stores U net statusError GOOGLE_KEY sameNome c e w)
    as [w' [g [E [_ [_ [Hfind [_ [_ Hg]]]]]]]].
  eexists. eexists. eexists. split; [exact E|]. split; [exact Hfind|].
  split; [reflexivity|].
  pose proof (find_some _ _ Hfind) as [Hin _].
  rewrite filter_In. unfold Server.hasCoordinates.
  cbn [withId rowFor c_endereco_completo c_cep c_latitude c_longitude] in *.
  unfold Sync.coordOrNull.
  destruct (Sync.buildEnderecoCompleto _) as [q|].
  - destruct g as [x|].
    + destruct (Z.eqb_spec (Geocode.lat x) 0) as [E1|E1];
        destruct (Z.eqb_spec (Geocode.lng x) 0) as [E2|E2].
      * split; [intros [_ H]; discriminate H|].
        intros [q' [x' [Hq [Hx [H1 _]]]]]. injection Hq as <-.
        rewrite Hg in Hx. injection Hx as <-. contradiction.
      * split; [intros [_ H]; discriminate H|].
        intros [q' [x' [Hq [Hx [H1 _]]]]]. injection Hq as <-.
        rewrite Hg in Hx. injection Hx as <-. contradiction.
      * split; [intros [_ H]; discriminate H|].
        intros [q' [x' [Hq [Hx [_ H2]]]]]. injection Hq as <-.
        rewrite Hg in Hx. injection Hx as <-. contradiction.
      * split; [|intros _; split; [exact Hin | reflexivity]].
        intros _. exists q, x. repeat split; assumption.
    + split; [intros [_ H]; discriminate H|].
      intros [q' [x' [Hq [Hx _]]]]. injection Hq as <-.
      rewrite Hg in Hx. discriminate Hx.
  - subst g. split; [intros [_ H]; discriminate H|].
    intros [q' [x' [Hq _]]]. discriminate Hq.
Qed.

(** ** The linked program: what a pass leaves in the store *)

Lemma find_filter_other (id pid : Z) (l : list cliente) :
  id <> pid ->
  find (fun x => Z.eqb (c_id_odoo x) id)
       (filter (fun x => negb (Z.eqb (c_id_odoo x) pid)) l)
  = find (fun x => Z.eqb (c_id_odoo x) id) l.
Proof.
  intros Hne. induction l as [|x t IH]; simpl; [reflexivity|].
  destruct (Z.eqb_spec (c_id_odoo x) pid) as [E|E]; simpl.
  - destruct (Z.eqb_spec (c_id_odoo x) id) as [E'|E']; [congruence | exact IH].
  - rewrite IH. reflexivity.
Qed.

Lemma atMost_upsertCliente (r : cliente) : atMost 0 (Sync.upsertCliente r).
Proof.
  intros w. unfold Sync.upsertCliente. destruct (existsb _ _); simpl; lia.
Qed.

Lemma atMost_insertParts (sameNome : jsstring -> jsstring -> bool)
    (cid : Z) (parts : list jsstring) :
  atMost 0 (Sync.insertParts sameNome cid parts).
Proof.
  induction parts as [|part parts IH]; cbn [Sync.insertParts];
    [apply atMost_ret|].
  by_bind 0%nat 0%nat u; [|exact IH].
  by_try 0%nat 0%nat e; [|by_zero].
  intros w. unfold Sync.insertEquipamento. destruct (existsb _ _); simpl; lia.
Qed.

Lemma atMost_persistEquipment (sameNome : jsstring -> jsstring -> bool)
    (c : partner) (e : option Odoo.entry) :
  atMost 0 (Sync.persistEquipment sameNome c e).
Proof.
  unfold Sync.persistEquipment. destruct (truthy _); [|by_zero].
  by_bind 0%nat 0%nat sel; [intros w; simpl; lia|].
  destruct sel as [cid|]; [|by_zero].
  destruct (negb _); [|by_zero].
  by_bind 0%nat 0%nat u; [intros w; simpl; lia|].
  apply atMost_insertParts.
Qed.

Section LinkedStore.

Context {U : Unicode}.
Variable net : network.
Variable statusError : response -> error.
Variable GOOGLE_KEY : option jsstring.
Variable sameNome : jsstring -> jsstring -> bool.

Lemma atMost_processarCliente (c : partner) (e : option Odoo.entry) :
  atMost 12 (App.processarCliente net statusError GOOGLE_KEY sameNome c e).
Proof.
  unfold App.processarCliente, Sync.processarCliente, Sync.processarBody.
  by_try 12%nat 0%nat err; [|destruct (Sync.isFatal err); by_zero].
  by_bind 12%nat 0%nat g.
  - destruct (Sync.buildEnderecoCompleto _) as [q|]; [|by_zero].
    apply atMost_geocode.
  - by_bind 0%nat 0%nat u; [apply atMost_upsertCliente|].
    by_bind 0%nat 0%nat u2; [apply atMost_persistEquipment | by_zero].
Qed.

Lemma processarCliente_ids (c : partner) (e : option Odoo.entry) (w : world) :
  exists w',
    App.processarCliente net statusError GOOGLE_KEY sameNome c e w
    = (Return true, w')
    /\ localId (p_id c) w'
       = Some match localId (p_id c) w with
              | Some i => i
              | None => next_cliente_id w
              end
    /\ (forall id, id <> p_id c -> localId id w' = localId id w)
    /\ (requests w <= requests w' <= requests w + 12)%nat
    /\ sync_state w' = sync_state w.
Proof.
  destruct (processarCliente_stores U net statusError GOOGLE_KEY sameNome c e w)
    as [w' [g [E [_ [_ [Hfind [_ [Hothers _]]]]]]]].
  exists w'. split; [exact E|].
  split; [unfold localId at 1; rewrite Hfind; reflexivity|].
  split.
  - intros id Hne. unfold localId.
    rewrite <- (find_filter_other id (p_id c) (clientes w') Hne).
    rewrite <- (find_filter_other id (p_id c) (clientes w) Hne).
    unfold otherClientes in Hothers. rewrite Hothers. reflexivity.
  - pose proof (atMost_processarCliente c e w) as Hb. rewrite E in Hb.
    split; [exact Hb|].
    destruct (processarCliente_returns net statusError GOOGLE_KEY sameNome c e w)
      as [w1 [E1 Hs]].
    rewrite E in E1. injection E1 as <-. exact Hs.
Qed.

Lemma mainLoop_linked_stores (l : list Sync.matched) (w : world) :
  exists w',
    Sync.mainLoop (App.geocode net statusError GOOGLE_KEY) sameNome l w
    = (Return (false, map eventOf l), w')
    /\ (forall id i, localId id w = Some i -> localId id w' = Some i)
    /\ (forall id, In id (matchedIds l) -> localId id w' <> None)
    /\ (requests w <= requests w'
        <= requests w + 12 * List.length (matchedIds l))%nat.
Proof.
  revert w. induction l as [|it rest IH]; intros w.
  - exists w. split; [reflexivity|]. split; [auto|].
    split; [intros id []|simpl; lia].
  - cbn [Sync.mainLoop map]. unfold eventOf at 1. unfold matchedIds.
    cbn [flat_map]. fold (matchedIds rest).
    destruct (Sync.m_partner it) as [p|].
    + unfold bind at 1, Sync.processEntry, tryCatch, bind at 1.
      destruct (processarCliente_ids p (Some (Sync.m_entry it)) w)
        as [w1 [E [Hid [Hoth [Hreq _]]]]].
      unfold App.processarCliente in E. rewrite E.
      unfold bind at 1, Sync.setSyncCursor, ret at 1. unfold bind.
      match goal with
      | |- context [Sync.mainLoop _ _ rest ?w0] =>
          destruct (IH w0) as [w' [E2 [Hst [Hin Hb]]]];
          change (requests w0) with (requests w1) in Hb;
          assert (Hl : forall id, localId id w0 = localId id w1)
            by (intros id; reflexivity)
      end.
      rewrite E2. simpl. exists w'. split; [reflexivity|].
      assert (Hkeep : forall id i, localId id w = Some i -> localId id w1 = Some i).
      { intros id i Hi. destruct (Z.eq_dec id (p_id p)) as [->|Hne].
        - rewrite Hid, Hi. reflexivity.
        - rewrite (Hoth id Hne). exact Hi. }
      split; [|split].
      * intros id i Hi. apply Hst. rewrite Hl. exact (Hkeep id i Hi).
      * intros id [<-|H]; [|exact (Hin id H)].
        rewrite (Hst (p_id p) _ (eq_trans (Hl _) Hid)). discriminate.
      * cbn [app List.length]. lia.
    + destruct (IH w) as [w' [E2 [Hst [Hin Hb]]]].
      unfold bind. rewrite E2. simpl. exists w'. split; [reflexivity|].
      split; [exact Hst|]. split; [exact Hin | exact Hb].
Qed.

End LinkedStore.

Lemma matchedIds_length (l : list Sync.matched) :
  (List.length (matchedIds l) <= List.length l)%nat.
Proof.
  induction l as [|it t IH]; simpl; [lia|].
  unfold matchedIds in *. cbn [flat_map]. rewrite length_app.
  destruct (Sync.m_partner it); simpl; lia.
Qed.

Lemma buildItens_length (requested : list Odoo.entry) (customers : list partner) :
  forall {U : Unicode} i,
  List.length (Sync.buildItens i requested customers) = List.length requested.
Proof.
  intros U. induction requested as [|e t IH]; intros i; simpl; [reflexivity|].
  rewrite IH. reflexivity.
Qed.

(** ** odoo.js: the names of the roster and their lookups *)

Lemma fillDown_trimmed (key : jsstring) (ekey : option jsstring)
    (rows : list Odoo.row) : forall lastC lastE nm,
  trim lastC = lastC ->
  In nm (map fst (fillDown key ekey lastC lastE rows)) ->
  trim nm = nm.
Proof.
  induction rows as [|r rows IH]; intros lastC lastE nm Hl; simpl; [intros []|].
  assert (Hf : trim (filledName key lastC r) = filledName key lastC r).
  { unfold filledName. destruct (truthy _); [apply trim_idem | exact Hl]. }
  intros [<-|H]; [exact Hf|].
  exact (IH _ _ nm Hf H).
Qed.

(** A name for which both lookups have something to ask for. *)
Definition usableName {U : Unicode} (nm : jsstring) : Prop :=
  nm <> []
  /\ trim nm = nm
  /\ hd [] (Odoo.nameCandidates (Some nm)) = nm
  /\ OdooClient.condsOf (Odoo.nameCandidates (Some nm)) <> [].

Lemma trimmed_usable {U : Unicode} (nm : jsstring) :
  nm <> [] -> trim nm = nm -> usableName nm.
Proof.
  intros Hne Ht. split; [exact Hne|]. split; [exact Ht|].
  unfold Odoo.nameCandidates. cbn [orEmpty]. rewrite Ht.
  destruct nm as [|c0 raw]; [contradiction Hne; reflexivity|].
  cbn [truthy negb]. unfold uniq. cbn [uniqFrom memStr existsb hd].
  split; [reflexivity|].
  unfold OdooClient.condsOf. cbn [flat_map truthy app]. discriminate.
Qed.

(** X25. Every entry of a roster that [readCustomersFromXlsx] returns has
    a usable name: it is not empty, it is trimmed, it is itself the first
    candidate of its lookups, and the fuzzy lookup always has conditions
    to send for it, so that no missing name is passed over without asking
    the CRM. *)
Theorem X25_roster_names_are_usable (U : Unicode)
    (worksheet : option (list Odoo.row))
    (customerColumn equipmentColumn : jsstring) (out : list Odoo.entry) :
  Odoo.readCustomersFromXlsx worksheet customerColumn equipmentColumn
  = Return out ->
  Forall (fun e => usableName (Odoo.name e)) out.
Proof.
  unfold Odoo.readCustomersFromXlsx.
  destruct worksheet as [[|first rest]|]; [| |discriminate].
  - intros H. injection H as <-. constructor.
  - destruct (Odoo.findKey (map fst first) customerColumn) as [key|];
      [|discriminate].
    intros H. injection H as <-.
    unfold Odoo.readRows.
    assert (Hinv0 : readerInv
              {| Odoo.lastCustomer := []; Odoo.lastEquipment := [];
                 Odoo.customers := []; Odoo.seen := [] |} []).
    { split; [reflexivity|]. intros nm. reflexivity. }
    pose proof (readRows_from key
                  (Odoo.findKey (map fst first) equipmentColumn)
                  (first :: rest) Hinv0) as [Hc _].
    rewrite Hc. cbn [app Odoo.lastCustomer Odoo.lastEquipment].
    apply Forall_forall. intros e He.
    unfold rosterEntries in He. apply in_map_iff in He.
    destruct He as [nm [<- Hnm]]. cbn [Odoo.name].
    unfold rosterNames in Hnm. apply (proj1 (uniq_In _ _)) in Hnm.
    apply filter_In in Hnm. destruct Hnm as [Hin Ht].
    apply trimmed_usable.
    + intros ->. discriminate Ht.
    + exact (fillDown_trimmed _ _ _ [] [] nm eq_refl Hin).
Qed.

Lemma X25_roster_names_are_usable_witness :
  Forall (fun e => usableName (U := asciiUnicode) (Odoo.name e))
    [ {| Odoo.name := lit "ACME";
         Odoo.equipment := lit "Gerador x2; Compressor; Bomba" |};
      {| Odoo.name := lit "Beta";
         Odoo.equipment := lit "Compressor, Gerador x2" |} ].
Proof.
  apply (X25_roster_names_are_usable asciiUnicode (Some sampleSheet)
           (lit "Cliente") (lit "Equipamentos")).
  vm_compute. reflexivity.
Defined.

(** ** odoo.js: which fuzzy answer is kept *)

(** The score and the length that the comparator of [guess.sort] gives a
    record. *)
Definition guessName {U : Unicode} (a : partner) : jsstring :=
  Odoo.normalizeName (orOpt (p_display_name a) (p_name a)).

Definition guessScore {U : Unicode} (target : jsstring) (a : partner) : Z :=
  if includes (guessName a) target || includes target (guessName a)
  then 2%Z else 0%Z.

Definition guessLength {U : Unicode} (a : partner) : Z :=
  Z.of_nat (List.length (guessName a)).

(** [a] is sorted before [b], or with it. *)
Definition notWorse {U : Unicode} (target : jsstring) (a b : partner) : Prop :=
  (guessScore target b < guessScore target a)%Z
  \/ (guessScore target b = guessScore target a
      /\ (guessLength b <= guessLength a)%Z).

Lemma compareGuess_le {U : Unicode} (target : jsstring) (a b : partner) :
  (OdooClient.compareGuess target a b <= 0)%Z <-> notWorse target a b.
Proof.
  unfold OdooClient.compareGuess, notWorse.
  fold (guessName a). fold (guessName b).
  fold (guessScore target a). fold (guessScore target b).
  fold (guessLength a). fold (guessLength b).
  destruct (Z.eqb_spec (guessScore target b - guessScore target a) 0); lia.
Qed.

Lemma sortBy_guess_head {U : Unicode} (target : jsstring) (l : list partner) :
  match Sync.sortBy (OdooClient.compareGuess target) l with
  | [] => l = []
  | s :: _ => In s l /\ forall y, In y l -> notWorse target s y
  end.
Proof.
  induction l as [|x l IH]; simpl; [reflexivity|].
  destruct (Sync.sortBy (OdooClient.compareGuess target) l) as [|s r] eqn:E.
  - subst l. simpl. split; [left; reflexivity|].
    intros y [<-|[]]. unfold notWorse. lia.
  - destruct IH as [Hin Hmax]. simpl.
    destruct (OdooClient.compareGuess target x s <=? 0)%Z eqn:Ec.
    + apply Z.leb_le, compareGuess_le in Ec. split; [left; reflexivity|].
      intros y [<-|Hy]; [unfold notWorse; lia|].
      specialize (Hmax y Hy). unfold notWorse in *. lia.
    + apply Z.leb_gt in Ec.
      assert (Hsx : notWorse target s x).
      { apply compareGuess_le.
        assert (Hn : ~ notWorse target x s)
          by (intros H; apply compareGuess_le in H; lia).
        unfold OdooClient.compareGuess in *. unfold notWorse in Hn.
        fold (guessName x) in *. fold (guessName s) in *.
        fold (guessScore target x) in *. fold (guessScore target s) in *.
        fold (guessLength x) in *. fold (guessLength s) in *.
        destruct (Z.eqb_spec (guessScore target x - guessScore target s) 0); lia. }
      split; [right; exact Hin|].
      intros y [<-|Hy]; [exact Hsx | exact (Hmax y Hy)].
Qed.

(** X26. Which record the fuzzy step keeps. When the CRM answers the
    fuzzy lookup of a missing name with a non-empty array, [fuzzyLoop]
    makes that one call and keeps one record of the answer: one whose
    normalized name contains the normalized missing name or is contained
    in it, if the answer has any such record, and among the records of the
    same kind one with the longest normalized name. *)
Theorem X26_fuzzy_step_keeps_the_best (U : Unicode)
    (odoo : nat -> OdooClient.call -> outcome OdooClient.result)
    (uid : OdooClient.result) (m : jsstring) (c0 : OdooClient.json)
    (cs : list OdooClient.json) (x : partner) (l found : list partner)
    (w : world) :
  OdooClient.condsOf (Odoo.nameCandidates (Some m)) = c0 :: cs ->
  odoo (requests w)
    (OdooClient.SearchRead uid (OdooClient.fuzzyDomain c0 cs)
       OdooClient.FUZZY_LIMIT)
  = Return (OdooClient.Records (x :: l)) ->
  exists best,
    OdooClient.fuzzyLoop odoo uid [m] found w
    = (Return (found ++ [best]), set_requests S w)
    /\ In best (x :: l)
    /\ forall y, In y (x :: l) -> notWorse (Odoo.normalizeName (Some m)) best y.
Proof.
  intros Hc Ho.
  exists (hd x (Sync.sortBy (OdooClient.compareGuess (Odoo.normalizeName (Some m)))
                            (x :: l))).
  split.
  - cbn [OdooClient.fuzzyLoop]. rewrite Hc.
    unfold bind, OdooClient.odooRPC. rewrite Ho. reflexivity.
  - pose proof (sortBy_guess_head (Odoo.normalizeName (Some m)) (x :: l)) as H.
    destruct (Sync.sortBy _ (x :: l)) as [|s r]; [discriminate H|].
    exact H.
Qed.

(** A CRM that answers every search with the same two records. *)
Definition twoGuesses : nat -> OdooClient.call -> outcome OdooClient.result :=
  fun _ _ => Return (OdooClient.Records [partnerJohn; partnerSmith]).

Lemma X26_fuzzy_step_keeps_the_best_witness :
  exists best,
    OdooClient.fuzzyLoop (U := asciiUnicode) twoGuesses
      (OdooClient.Value (OdooClient.JNumber 2)) [lit "John"] [] freshWorld
    = (Return ([] ++ [best]), set_requests S freshWorld)
    /\ In best [partnerJohn; partnerSmith]
    /\ forall y, In y [partnerJohn; partnerSmith] ->
         notWorse (U := asciiUnicode)
           (Odoo.normalizeName (U := asciiUnicode) (Some (lit "John"))) best y.
Proof.
  apply (X26_fuzzy_step_keeps_the_best asciiUnicode twoGuesses
           (OdooClient.Value (OdooClient.JNumber 2)) (lit "John")
           (OdooClient.cond "display_name" "ilike" (OdooClient.JString (lit "John")))
           [OdooClient.cond "name" "ilike" (OdooClient.JString (lit "John"))]
           partnerJohn [partnerSmith] [] freshWorld);
    reflexivity.
Defined.

(** ** geocode.js: the precise provider *)

Section PreciseProvider.

Context {U : Unicode}.
Variable net : network.
Variable statusError : response -> error.


End PreciseProvider.







(** * The program over a store that can reject a query *)

(** ** The script of the store *)

(** The script of [s'] is what is left of the script of [s]. *)
Definition later (s s' : SyncDb.state) : Prop :=
  exists pre, SyncDb.script s = pre ++ SyncDb.script s'.

Lemma later_refl (s : SyncDb.state) : later s s.
Proof. exists []. reflexivity. Qed.

Lemma later_trans (s s1 s2 : SyncDb.state) :
  later s s1 -> later s1 s2 -> later s s2.
Proof.
  intros [p1 H1] [p2 H2]. exists (p1 ++ p2).
  rewrite H1, H2. apply app_assoc.
Qed.

Lemma later_next (s : SyncDb.state) : later s (SyncDb.next s).
Proof.
  unfold later, SyncDb.next. simpl.
  destruct (SyncDb.script s) as [|x t]; [exists [] | exists [x]]; reflexivity.
Qed.

Lemma later_In (s s' : SyncDb.state) (x : option error) :
  later s s' -> In x (SyncDb.script s') -> In x (SyncDb.script s).
Proof.
  intros [pre H] Hx. rewrite H. apply in_or_app. right. exact Hx.
Qed.

Lemma later_script (s s' : SyncDb.state) :
  SyncDb.script s' = SyncDb.script s -> later s s'.
Proof. intros H. exists []. rewrite H. reflexivity. Qed.

Lemma later_healthy (s s' : SyncDb.state) :
  later s s' -> SyncDb.script s = [] -> SyncDb.script s' = [].
Proof.
  intros [pre H] Hs. rewrite Hs in H. symmetry in H.
  apply app_eq_nil in H. exact (proj2 H).
Qed.

Lemma dbind_Return {A B} (m : SyncDb.D A) (f : A -> SyncDb.D B)
    (s s2 : SyncDb.state) (b : B) :
  SyncDb.bind m f s = (Return b, s2) ->
  exists a s1, m s = (Return a, s1) /\ f a s1 = (Return b, s2).
Proof.
  unfold SyncDb.bind. destruct (m s) as [[a|e] s1]; [|discriminate].
  intros H. exists a, s1. split; [reflexivity | exact H].
Qed.

Lemma lift_eq {A} (m : M A) (s : SyncDb.state) :
  SyncDb.lift m s
  = (fst (m (SyncDb.world_of s)),
     {| SyncDb.world_of := snd (m (SyncDb.world_of s));
        SyncDb.script := SyncDb.script s |}).
Proof. reflexivity. Qed.

Lemma lift_Return {A} (m : M A) (s s1 : SyncDb.state) (a : A) :
  SyncDb.lift m s = (Return a, s1) ->
  m (SyncDb.world_of s) = (Return a, SyncDb.world_of s1)
  /\ SyncDb.script s1 = SyncDb.script s.
Proof.
  unfold SyncDb.lift. destruct (m (SyncDb.world_of s)) as [o w1]. simpl.
  intros H. injection H as -> <-. split; reflexivity.
Qed.

(** What a query does: the store rejects it, or the statement runs. *)
Lemma query_cases {A} (statement : M A) (s : SyncDb.state) :
  (exists e, In (Some e) (SyncDb.script s)
             /\ SyncDb.query statement s = (Throw e, SyncDb.next s))
  \/ SyncDb.query statement s = SyncDb.lift statement (SyncDb.next s).
Proof.
  unfold SyncDb.query. destruct (SyncDb.script s) as [|[e|] rest].
  - right. reflexivity.
  - left. exists e. split; [left; reflexivity | reflexivity].
  - right. reflexivity.
Qed.

Lemma query_Return {A} (statement : M A) (s s1 : SyncDb.state) (a : A) :
  SyncDb.query statement s = (Return a, s1) ->
  statement (SyncDb.world_of s) = (Return a, SyncDb.world_of s1)
  /\ SyncDb.script s1 = tl (SyncDb.script s).
Proof.
  destruct (query_cases statement s) as [[e [_ E]]|E]; rewrite E;
    [discriminate|].
  intros H. apply lift_Return in H. exact H.
Qed.

Lemma next_healthy (s : SyncDb.state) :
  SyncDb.script s = [] -> SyncDb.next s = s.
Proof.
  intros H. unfold SyncDb.next. rewrite H. destruct s as [w sc].
  simpl in *. rewrite H. reflexivity.
Qed.

Lemma query_healthy {A} (statement : M A) (s : SyncDb.state) :
  SyncDb.script s = [] -> SyncDb.query statement s = SyncDb.lift statement s.
Proof.
  intros H. unfold SyncDb.query. rewrite H. rewrite (next_healthy s H).
  reflexivity.
Qed.

(** ** What every computation keeps *)

(** Whatever its outcome, [m] takes a world to one that [R] relates to it,
    and only consumes the script. *)
Definition preserves (R : world -> world -> Prop) {A} (m : SyncDb.D A) : Prop :=
  forall s,
    R (SyncDb.world_of s) (SyncDb.world_of (snd (m s)))
    /\ later s (snd (m s)).

Section Preserves.

Variable R : world -> world -> Prop.
Hypothesis R_refl : forall w, R w w.
Hypothesis R_trans : forall w1 w2 w3, R w1 w2 -> R w2 w3 -> R w1 w3.

Lemma preserves_ret {A} (a : A) : preserves R (SyncDb.ret a).
Proof. intros s. split; [apply R_refl | apply later_refl]. Qed.

Lemma preserves_throw {A} (e : error) : preserves R (SyncDb.throw (A := A) e).
Proof. intros s. split; [apply R_refl | apply later_refl]. Qed.

Lemma preserves_bind {A B} (m : SyncDb.D A) (f : A -> SyncDb.D B) :
  preserves R m -> (forall a, preserves R (f a)) ->
  preserves R (SyncDb.bind m f).
Proof.
  intros Hm Hf s. unfold SyncDb.bind. specialize (Hm s).
  destruct (m s) as [[a|e] s1]; simpl in *; [|exact Hm].
  specialize (Hf a s1). destruct Hm as [H1 H2], Hf as [H3 H4].
  split; [exact (R_trans _ _ _ H1 H3) | exact (later_trans _ _ _ H2 H4)].
Qed.

Lemma preserves_tryCatch {A} (m : SyncDb.D A) (h : error -> SyncDb.D A) :
  preserves R m -> (forall e, preserves R (h e)) ->
  preserves R (SyncDb.tryCatch m h).
Proof.
  intros Hm Hh s. unfold SyncDb.tryCatch. specialize (Hm s).
  destruct (m s) as [[a|e] s1]; simpl in *; [exact Hm|].
  specialize (Hh e s1). destruct Hm as [H1 H2], Hh as [H3 H4].
  split; [exact (R_trans _ _ _ H1 H3) | exact (later_trans _ _ _ H2 H4)].
Qed.

Lemma preserves_lift {A} (m : M A) :
  (forall w, R w (snd (m w))) -> preserves R (SyncDb.lift m).
Proof.
  intros Hm s. rewrite lift_eq. simpl. split; [apply Hm|].
  apply later_script. reflexivity.
Qed.

Lemma preserves_query {A} (statement : M A) :
  (forall w, R w (snd (statement w))) -> preserves R (SyncDb.query statement).
Proof.
  intros Hm s. destruct (query_cases statement s) as [[e [_ E]]|E]; rewrite E.
  - simpl. split; [apply R_refl | apply later_next].
  - rewrite lift_eq. simpl. split; [apply Hm|].
    apply (later_trans _ _ _ (later_next s)). apply later_script. reflexivity.
Qed.

End Preserves.

(** ** Where an error can come from *)

(** An error that [m] raises satisfies [P] or is one of the script. *)
Definition raises (P : error -> Prop) {A} (m : SyncDb.D A) : Prop :=
  forall s,
    match m s with
    | (Throw e, _) => P e \/ In (Some e) (SyncDb.script s)
    | (Return _, _) => True
    end.

Definition anyWorld (w w' : world) : Prop := True.

Section Raises.

Variable P : error -> Prop.

Lemma raises_ret {A} (a : A) : raises P (SyncDb.ret a).
Proof. intros s. exact I. Qed.

Lemma raises_bind {A B} (m : SyncDb.D A) (f : A -> SyncDb.D B) :
  raises P m -> preserves anyWorld m -> (forall a, raises P (f a)) ->
  raises P (SyncDb.bind m f).
Proof.
  intros Hm Hl Hf s. unfold SyncDb.bind. specialize (Hm s).
  specialize (Hl s). destruct (m s) as [[a|e] s1]; simpl in *; [|exact Hm].
  specialize (Hf a s1). destruct (f a s1) as [[b|e] s2]; [exact I|].
  destruct Hf as [H|H]; [left; exact H|].
  right. exact (later_In _ _ _ (proj2 Hl) H).
Qed.

Lemma raises_tryCatch {A} (m : SyncDb.D A) (h : error -> SyncDb.D A) :
  preserves anyWorld m -> (forall e, raises P (h e)) ->
  raises P (SyncDb.tryCatch m h).
Proof.
  intros Hl Hh s. unfold SyncDb.tryCatch. specialize (Hl s).
  destruct (m s) as [[a|e] s1]; simpl in *; [exact I|].
  specialize (Hh e s1). destruct (h e s1) as [[b|e'] s2]; [exact I|].
  destruct Hh as [H|H]; [left; exact H|].
  right. exact (later_In _ _ _ (proj2 Hl) H).
Qed.

Lemma raises_lift {A} (m : M A) :
  (forall w e w', m w = (Throw e, w') -> P e) -> raises P (SyncDb.lift m).
Proof.
  intros Hm s. rewrite lift_eq.
  destruct (m (SyncDb.world_of s)) as [[a|e] w'] eqn:E; simpl; [exact I|].
  left. exact (Hm _ _ _ E).
Qed.

Lemma raises_query {A} (statement : M A) :
  (forall w e w', statement w = (Throw e, w') -> P e) ->
  raises P (SyncDb.query statement).
Proof.
  intros Hm s. destruct (query_cases statement s) as [[e [Hin E]]|E]; rewrite E.
  - right. exact Hin.
  - rewrite lift_eq.
    destruct (statement (SyncDb.world_of (SyncDb.next s))) as [[a|e] w'] eqn:E1;
      simpl; [exact I|].
    left. exact (Hm _ _ _ E1).
Qed.

End Raises.

Lemma preserves_weaken (R R' : world -> world -> Prop) {A} (m : SyncDb.D A) :
  (forall w w', R w w' -> R' w w') -> preserves R m -> preserves R' m.
Proof.
  intros H Hm s. destruct (Hm s) as [H1 H2]. split; [apply H; exact H1 | exact H2].
Qed.

Lemma anyWorld_refl (w : world) : anyWorld w w.
Proof. exact I. Qed.

Lemma anyWorld_trans (w1 w2 w3 : world) :
  anyWorld w1 w2 -> anyWorld w2 w3 -> anyWorld w1 w3.
Proof. intros _ _. exact I. Qed.

Lemma preserves_any (R : world -> world -> Prop) {A} (m : SyncDb.D A) :
  preserves R m -> preserves anyWorld m.
Proof. apply preserves_weaken. intros w w' _. exact I. Qed.

(** Splits a goal [preserves R m] along the binds and the tries of [m]. *)
Ltac keeps R Rrefl Rtrans :=
  repeat first
    [ apply (preserves_bind R Rtrans); [| intros ?]
    | apply (preserves_tryCatch R Rtrans); [| intros ?]
    | apply (preserves_ret R Rrefl)
    | apply (preserves_throw R Rrefl) ].

(** A computation that can only raise an error of the script returns when
    the store rejects nothing. *)
Lemma raises_healthy {A} (m : SyncDb.D A) (s : SyncDb.state) :
  raises (fun _ => False) m -> SyncDb.script s = [] ->
  exists a s', m s = (Return a, s').
Proof.
  intros Hm Hs. specialize (Hm s). destruct (m s) as [[a|e] s'].
  - exists a, s'. reflexivity.
  - rewrite Hs in Hm. destruct Hm as [[]|[]].
Qed.

Lemma raises_weaken (P Q : error -> Prop) {A} (m : SyncDb.D A) :
  (forall e, P e -> Q e) -> raises P m -> raises Q m.
Proof.
  intros H Hm s. specialize (Hm s). destruct (m s) as [[a|e] s']; [exact I|].
  destruct Hm as [Hm|Hm]; [left; apply H; exact Hm | right; exact Hm].
Qed.

(** ** The statements that leave the table of customers alone *)

(** The table [clientes] and its next id are the same in both worlds. *)
Definition sameClientes (w w' : world) : Prop :=
  clientes w' = clientes w /\ next_cliente_id w' = next_cliente_id w.

Lemma sameClientes_refl (w : world) : sameClientes w w.
Proof. split; reflexivity. Qed.

Lemma sameClientes_trans (w1 w2 w3 : world) :
  sameClientes w1 w2 -> sameClientes w2 w3 -> sameClientes w1 w3.
Proof. intros [A1 A2] [B1 B2]. split; congruence. Qed.

Lemma typed_keeps (R : world -> world -> Prop) {A} (i : option Z)
    (v : option jsstring) (statement : M A) :
  (forall w, R w w) -> (forall w, R w (snd (statement w))) ->
  forall w, R w (snd (SyncDb.typed i v statement w)).
Proof.
  intros Hr Hs w. unfold SyncDb.typed.
  destruct (negb (SyncDb.fitsInt i)); [apply Hr|].
  destruct (negb (SyncDb.fitsVarchar v)); [apply Hr | apply Hs].
Qed.

(** What a typed statement raises is a column error or an error of the
    statement. *)
Lemma typed_Throw {A} (i : option Z) (v : option jsstring) (statement : M A)
    (w w' : world) (e : error) :
  SyncDb.typed i v statement w = (Throw e, w') ->
  e = SyncDb.outOfRange \/ e = SyncDb.dataTooLong
  \/ statement w = (Throw e, w').
Proof.
  unfold SyncDb.typed.
  destruct (negb (SyncDb.fitsInt i)).
  - intros H. injection H as <- _. left. reflexivity.
  - destruct (negb (SyncDb.fitsVarchar v)).
    + intros H. injection H as <- _. right. left. reflexivity.
    + intros H. right. right. exact H.
Qed.

Lemma query_same {A} (statement : M A) :
  (forall w, sameClientes w (snd (statement w))) ->
  preserves sameClientes (SyncDb.query statement).
Proof. apply preserves_query. exact sameClientes_refl. Qed.

Lemma query_unit_same :
  preserves sameClientes (SyncDb.query (World.ret tt)).
Proof. apply query_same. intros w. apply sameClientes_refl. Qed.

Lemma query_never_raises (P : error -> Prop) {A} (statement : M A) :
  (forall w, exists a w', statement w = (Return a, w')) ->
  raises P (SyncDb.query statement).
Proof.
  intros H. apply raises_query. intros w e w' E.
  destruct (H w) as [a [w1 E1]]. rewrite E1 in E. discriminate.
Qed.

Lemma ensureSyncStateTable_same :
  preserves sameClientes SyncDb.ensureSyncStateTable.
Proof.
  unfold SyncDb.ensureSyncStateTable.
  keeps sameClientes sameClientes_refl sameClientes_trans;
    apply query_unit_same.
Qed.

Lemma ensureSyncStateTable_raises (P : error -> Prop) :
  raises P SyncDb.ensureSyncStateTable.
Proof.
  unfold SyncDb.ensureSyncStateTable.
  apply raises_bind.
  - apply query_never_raises. intros w. exists tt, w. reflexivity.
  - apply (preserves_any sameClientes). apply query_unit_same.
  - intros _. apply raises_bind.
    + apply raises_tryCatch; [|intros e; apply raises_ret].
      apply (preserves_any sameClientes). apply query_unit_same.
    + apply (preserves_any sameClientes).
      keeps sameClientes sameClientes_refl sameClientes_trans.
      apply query_unit_same.
    + intros _. apply raises_tryCatch; [|intros e; apply raises_ret].
      apply (preserves_any sameClientes). apply query_unit_same.
Qed.

(** The error of a value that does not fit its column. *)
Definition columnError (e : error) : Prop :=
  e = SyncDb.outOfRange \/ e = SyncDb.dataTooLong.

Lemma getSyncCursor_same : preserves sameClientes SyncDb.getSyncCursor.
Proof.
  unfold SyncDb.getSyncCursor.
  apply (preserves_bind sameClientes sameClientes_trans);
    [apply ensureSyncStateTable_same | intros _].
  apply query_same. intros w. apply sameClientes_refl.
Qed.

Lemma getSyncCursor_raises (P : error -> Prop) : raises P SyncDb.getSyncCursor.
Proof.
  unfold SyncDb.getSyncCursor. apply raises_bind.
  - apply ensureSyncStateTable_raises.
  - apply (preserves_any sameClientes). apply ensureSyncStateTable_same.
  - intros _. apply query_never_raises. intros w. eexists. eexists. reflexivity.
Qed.

Lemma setSyncCursor_same (id : option Z) (nm : option jsstring) :
  preserves sameClientes (SyncDb.setSyncCursor id nm).
Proof.
  unfold SyncDb.setSyncCursor.
  apply (preserves_bind sameClientes sameClientes_trans);
    [apply ensureSyncStateTable_same | intros _].
  apply query_same. apply typed_keeps; [exact sameClientes_refl|].
    intros w. split; reflexivity.
Qed.

Lemma setSyncCursor_raises (id : option Z) (nm : option jsstring) :
  raises columnError (SyncDb.setSyncCursor id nm).
Proof.
  unfold SyncDb.setSyncCursor. apply raises_bind.
  - apply ensureSyncStateTable_raises.
  - apply (preserves_any sameClientes). apply ensureSyncStateTable_same.
  - intros _. apply raises_query. intros w e w' E.
    apply typed_Throw in E. destruct E as [E|[E|E]].
    + left. exact E.
    + right. exact E.
    + discriminate E.
Qed.

Lemma setPause_same (reason : option jsstring) :
  preserves sameClientes (SyncDb.setPause reason).
Proof.
  unfold SyncDb.setPause.
  apply (preserves_bind sameClientes sameClientes_trans);
    [apply ensureSyncStateTable_same | intros _].
  apply query_same. apply typed_keeps; [exact sameClientes_refl|].
    intros w. split; reflexivity.
Qed.

Lemma setPause_raises (reason : option jsstring) :
  raises (fun e => e = SyncDb.dataTooLong) (SyncDb.setPause reason).
Proof.
  unfold SyncDb.setPause. apply raises_bind.
  - apply ensureSyncStateTable_raises.
  - apply (preserves_any sameClientes). apply ensureSyncStateTable_same.
  - intros _. apply raises_query. intros w e w' E.
    unfold SyncDb.typed in E. cbn [SyncDb.fitsInt negb] in E.
    destruct (negb (SyncDb.fitsVarchar reason)).
    + injection E as <- _. reflexivity.
    + discriminate E.
Qed.

Lemma clearPause_same : preserves sameClientes SyncDb.clearPause.
Proof.
  unfold SyncDb.clearPause.
  apply (preserves_bind sameClientes sameClientes_trans);
    [apply ensureSyncStateTable_same | intros _].
  apply query_same. intros w. split; reflexivity.
Qed.

Lemma clearPause_raises (P : error -> Prop) : raises P SyncDb.clearPause.
Proof.
  unfold SyncDb.clearPause. apply raises_bind.
  - apply ensureSyncStateTable_raises.
  - apply (preserves_any sameClientes). apply ensureSyncStateTable_same.
  - intros _. apply query_never_raises. intros w. eexists. eexists. reflexivity.
Qed.

Lemma getPauseState_same : preserves sameClientes SyncDb.getPauseState.
Proof.
  unfold SyncDb.getPauseState.
  apply (preserves_bind sameClientes sameClientes_trans);
    [apply ensureSyncStateTable_same | intros _].
  apply query_same. intros w. apply sameClientes_refl.
Qed.

Lemma getPauseState_raises (P : error -> Prop) : raises P SyncDb.getPauseState.
Proof.
  unfold SyncDb.getPauseState. apply raises_bind.
  - apply ensureSyncStateTable_raises.
  - apply (preserves_any sameClientes). apply ensureSyncStateTable_same.
  - intros _. apply query_never_raises. intros w. eexists. eexists. reflexivity.
Qed.

Lemma hoursSince_same (since : Z) : preserves sameClientes (SyncDb.hoursSince since).
Proof. apply query_same. intros w. apply sameClientes_refl. Qed.

Lemma hoursSince_raises (P : error -> Prop) (since : Z) :
  raises P (SyncDb.hoursSince since).
Proof. apply query_never_raises. intros w. eexists. eexists. reflexivity. Qed.

(** ** The equipment block over the store that can fail *)

(** The item fits the columns [nome] and [quantidade]. *)
Definition fitsItem (it : Sync.item) : bool :=
  SyncDb.fitsColumns (Sync.i_name it) (Sync.i_qty it).

(** [out] is what a run of the insert loop over [items] can leave in the
    table, next to the items [kept] that it holds already: an item is
    inserted only if it fits the columns and its name is not that of an
    item of the table; any item can be left out, its insert having been
    rejected. *)
Inductive inserted (sameNome : jsstring -> jsstring -> bool)
    : list Sync.item -> list Sync.item -> list Sync.item -> Prop :=
| inserted_nil kept : inserted sameNome kept [] []
| inserted_keep kept it items out :
    fitsItem it = true ->
    existsb (fun k => sameNome (Sync.i_name k) (Sync.i_name it)) kept = false ->
    inserted sameNome (kept ++ [it]) items out ->
    inserted sameNome kept (it :: items) (it :: out)
| inserted_skip kept it items out :
    inserted sameNome kept items out ->
    inserted sameNome kept (it :: items) out.

(** Every item inserted is one of the items parsed. *)
Lemma inserted_In (sameNome : jsstring -> jsstring -> bool)
    (kept items out : list Sync.item) :
  inserted sameNome kept items out -> forall it, In it out -> In it items.
Proof.
  induction 1 as [kept | kept it items out Hf Hc H IH | kept it items out H IH];
    intros x Hx.
  - exact Hx.
  - destruct Hx as [<-|Hx]; [left; reflexivity | right; apply IH; exact Hx].
  - right. apply IH. exact Hx.
Qed.

(** A quantity that fits the column is in the range where [parseInt] is
    exact. *)
Lemma fitsInt_exact (z : Z) :
  SyncDb.fitsInt (Some z) = true -> (- 2 ^ 53 < z < 2 ^ 53)%Z.
Proof.
  unfold SyncDb.fitsInt. intros H. apply andb_true_iff in H.
  destruct H as [H1 H2]. apply Z.leb_le in H1. apply Z.leb_le in H2. lia.
Qed.





Section EquipmentDb.

Context {U : Unicode}.
Variable sameNome : jsstring -> jsstring -> bool.



End EquipmentDb.

Lemma later_tl (s s' : SyncDb.state) :
  SyncDb.script s' = tl (SyncDb.script s) -> later s s'.
Proof.
  intros H. unfold later. rewrite H.
  destruct (SyncDb.script s) as [|x t]; [exists [] | exists [x]]; reflexivity.
Qed.


Section EquipmentBlock.

Context {U : Unicode}.
Variable sameNome : jsstring -> jsstring -> bool.

Lemma insertEquipamento_same (clienteId : Z) (nome : jsstring) (qty : option Z) :
  preserves sameClientes (SyncDb.insertEquipamento sameNome clienteId nome qty).
Proof.
  apply query_same. apply typed_keeps; [exact sameClientes_refl|].
  intros w. unfold Sync.insertEquipamento.
  destruct (existsb _ (equipamentos w)); split; reflexivity.
Qed.

Lemma insertParts_same (clienteId : Z) (parts : list jsstring) :
  preserves sameClientes (SyncDb.insertParts sameNome clienteId parts).
Proof.
  induction parts as [|part parts IH]; cbn [SyncDb.insertParts].
  - apply preserves_ret. exact sameClientes_refl.
  - apply (preserves_bind sameClientes sameClientes_trans); [|intros _; exact IH].
    apply (preserves_tryCatch sameClientes sameClientes_trans).
    + apply insertEquipamento_same.
    + intros e. apply preserves_ret. exact sameClientes_refl.
Qed.

Lemma insertParts_raises (P : error -> Prop) (clienteId : Z)
    (parts : list jsstring) :
  raises P (SyncDb.insertParts sameNome clienteId parts).
Proof.
  induction parts as [|part parts IH]; cbn [SyncDb.insertParts].
  - apply raises_ret.
  - apply raises_bind; [| |intros _; exact IH].
    + apply raises_tryCatch; [|intros e; apply raises_ret].
      apply (preserves_any sameClientes). apply insertEquipamento_same.
    + apply (preserves_any sameClientes).
      apply (preserves_tryCatch sameClientes sameClientes_trans).
      * apply insertEquipamento_same.
      * intros e. apply preserves_ret. exact sameClientes_refl.
Qed.

Lemma persistEquipment_same (c : partner) (e : option Odoo.entry) :
  preserves sameClientes (SyncDb.persistEquipment sameNome c e).
Proof.
  unfold SyncDb.persistEquipment.
  destruct (truthy _); [|apply preserves_ret; exact sameClientes_refl].
  apply (preserves_bind sameClientes sameClientes_trans);
    [apply query_unit_same | intros _].
  apply (preserves_bind sameClientes sameClientes_trans).
  { apply query_same. intros w. apply sameClientes_refl. }
  intros [cid|]; [|apply preserves_ret; exact sameClientes_refl].
  destruct (negb _); [|apply preserves_ret; exact sameClientes_refl].
  apply (preserves_bind sameClientes sameClientes_trans).
  { apply query_same. intros w. split; reflexivity. }
  intros _. apply insertParts_same.
Qed.

Lemma persistEquipment_raises (P : error -> Prop) (c : partner)
    (e : option Odoo.entry) :
  raises P (SyncDb.persistEquipment sameNome c e).
Proof.
  unfold SyncDb.persistEquipment.
  destruct (truthy _); [|apply raises_ret].
  apply raises_bind.
  { apply query_never_raises. intros w. exists tt, w. reflexivity. }
  { apply (preserves_any sameClientes). apply query_unit_same. }
  intros _. apply raises_bind.
  { apply query_never_raises. intros w. eexists. eexists. reflexivity. }
  { apply (preserves_any sameClientes). apply query_same.
    intros w. apply sameClientes_refl. }
  intros [cid|]; [|apply raises_ret].
  destruct (negb _); [|apply raises_ret].
  apply raises_bind.
  { apply query_never_raises. intros w. eexists. eexists. reflexivity. }
  { apply (preserves_any sameClientes). apply query_same.
    intros w. split; reflexivity. }
  intros _. apply insertParts_raises.
Qed.


End EquipmentBlock.

(** ** One customer over the store that can fail *)

(** Every customer that has a row in [w] has it in [w'] under the same
    local id. *)
Definition idsKept (w w' : world) : Prop :=
  forall id k, localId id w = Some k -> localId id w' = Some k.

Lemma idsKept_refl (w : world) : idsKept w w.
Proof. intros id k H. exact H. Qed.

Lemma idsKept_trans (w1 w2 w3 : world) :
  idsKept w1 w2 -> idsKept w2 w3 -> idsKept w1 w3.
Proof. intros H1 H2 id k H. apply H2. apply H1. exact H. Qed.

Lemma sameClientes_idsKept (w w' : world) : sameClientes w w' -> idsKept w w'.
Proof. intros [H _] id k. unfold localId. rewrite H. auto. Qed.

Lemma sameStore_idsKept (w w' : world) : sameStore w w' -> idsKept w w'.
Proof. intros [H _] id k. unfold localId. rewrite H. auto. Qed.

Lemma upsertCliente_idsKept (r : cliente) (w : world) :
  idsKept w (snd (Sync.upsertCliente r w)).
Proof.
  intros id k Hk.
  pose proof (upsertCliente_row r w) as [Hfind [Hothers _]].
  cbv zeta in Hfind, Hothers.
  destruct (Z.eq_dec id (c_id_odoo r)) as [->|Hne].
  - unfold localId at 1. rewrite Hfind. rewrite Hk. reflexivity.
  - unfold localId in *.
    rewrite <- (find_filter_other id (c_id_odoo r) _ Hne).
    rewrite <- (find_filter_other id (c_id_odoo r) _ Hne) in Hk.
    unfold otherClientes in Hothers. rewrite Hothers. exact Hk.
Qed.


(** The statements that [processarCliente] sends once [geocode] has
    answered [g]. *)
Definition storeSteps {U : Unicode} (sameNome : jsstring -> jsstring -> bool)
    (c : partner) (e : option Odoo.entry) (g : option Geocode.geo)
    : SyncDb.D bool :=
  SyncDb.bind (SyncDb.findMatches c g) (fun _ =>
  SyncDb.bind (SyncDb.query (Sync.upsertCliente (SyncDb.clienteRow c g))) (fun _ =>
  SyncDb.bind (SyncDb.persistEquipment sameNome c e) (fun _ =>
  SyncDb.ret true))).

Section CustomerDb.

Context {U : Unicode}.
Variable geocode : jsstring -> jsstring -> M (option Geocode.geo).
Variable sameNome : jsstring -> jsstring -> bool.

Lemma processarBody_steps (c : partner) (e : option Odoo.entry) :
  SyncDb.processarBody geocode sameNome c e
  = SyncDb.bind (SyncDb.lift (SyncDb.geocodeStep geocode c))
      (storeSteps sameNome c e).
Proof. reflexivity. Qed.

Lemma findMatches_same (c : partner) (g : option Geocode.geo) :
  preserves sameClientes (SyncDb.findMatches c g).
Proof.
  unfold SyncDb.findMatches. cbv zeta.
  destruct (_ || _); [apply query_unit_same|].
  apply preserves_ret. exact sameClientes_refl.
Qed.

Lemma findMatches_raises (P : error -> Prop) (c : partner)
    (g : option Geocode.geo) :
  raises P (SyncDb.findMatches c g).
Proof.
  unfold SyncDb.findMatches. cbv zeta.
  destruct (_ || _); [|apply raises_ret].
  apply query_never_raises. intros w. exists tt, w. reflexivity.
Qed.

Lemma findMatches_Return (c : partner) (g : option Geocode.geo)
    (s s1 : SyncDb.state) :
  SyncDb.findMatches c g s = (Return tt, s1) ->
  SyncDb.world_of s1 = SyncDb.world_of s /\ later s s1.
Proof.
  unfold SyncDb.findMatches. cbv zeta. destruct (_ || _).
  - intros H. apply query_Return in H. destruct H as [H1 H2].
    injection H1 as H1. split; [symmetry; exact H1 | apply later_tl; exact H2].
  - intros H. injection H as <-. split; [reflexivity | apply later_refl].
Qed.

Lemma upsert_query_raises (P : error -> Prop) (r : cliente) :
  raises P (SyncDb.query (Sync.upsertCliente r)).
Proof.
  apply query_never_raises. intros w.
  destruct (upsertCliente_spec r w) as [w' [E _]]. exists tt, w'. exact E.
Qed.

(** The statements raise nothing but what the store answers. *)
Lemma storeSteps_raises (P : error -> Prop) (c : partner)
    (e : option Odoo.entry) (g : option Geocode.geo) :
  raises P (storeSteps sameNome c e g).
Proof.
  unfold storeSteps. apply raises_bind.
  { apply findMatches_raises. }
  { apply (preserves_any sameClientes). apply findMatches_same. }
  intros _. apply raises_bind.
  { apply upsert_query_raises. }
  { apply (preserves_query anyWorld anyWorld_refl). intros w. exact I. }
  intros _. apply raises_bind.
  { apply persistEquipment_raises. }
  { apply (preserves_any sameClientes). apply persistEquipment_same. }
  intros _. apply raises_ret.
Qed.

(** When the statements return, the upsert has run on the world that
    [geocode] left and the equipment block has returned. *)
Lemma storeSteps_Return (c : partner) (e : option Odoo.entry)
    (g : option Geocode.geo) (s s1 : SyncDb.state) (b : bool) :
  storeSteps sameNome c e g s = (Return b, s1) ->
  b = true
  /\ exists s2,
       SyncDb.world_of s2
       = snd (Sync.upsertCliente (SyncDb.clienteRow c g) (SyncDb.world_of s))
       /\ later s s2
       /\ SyncDb.persistEquipment sameNome c e s2 = (Return tt, s1).
Proof.
  unfold storeSteps. intros H.
  apply dbind_Return in H. destruct H as [[] [sa [Ea H]]].
  apply findMatches_Return in Ea. destruct Ea as [Ea La].
  apply dbind_Return in H. destruct H as [[] [sb [Eb H]]].
  apply query_Return in Eb. destruct Eb as [Eb Sb].
  apply dbind_Return in H. destruct H as [[] [sc [Ec H]]].
  injection H as <- <-. split; [reflexivity|].
  exists sb. split; [|split; [|exact Ec]].
  - rewrite Ea in Eb. rewrite Eb. reflexivity.
  - exact (later_trans _ _ _ La (later_tl _ _ Sb)).
Qed.

Section Keeps.

Variable R : world -> world -> Prop.
Hypothesis R_refl : forall w, R w w.
Hypothesis R_trans : forall w1 w2 w3, R w1 w2 -> R w2 w3 -> R w1 w3.
Hypothesis R_same : forall w w', sameClientes w w' -> R w w'.
Hypothesis R_upsert : forall r w, R w (snd (Sync.upsertCliente r w)).
Hypothesis R_geocode : forall c w, R w (snd (SyncDb.geocodeStep geocode c w)).

Lemma storeSteps_keeps (c : partner) (e : option Odoo.entry)
    (g : option Geocode.geo) :
  preserves R (storeSteps sameNome c e g).
Proof.
  unfold storeSteps.
  apply (preserves_bind R R_trans).
  { apply (preserves_weaken sameClientes R _ R_same). apply findMatches_same. }
  intros _. apply (preserves_bind R R_trans).
  { apply (preserves_query R R_refl). apply R_upsert. }
  intros _. apply (preserves_bind R R_trans).
  { apply (preserves_weaken sameClientes R _ R_same).
    apply persistEquipment_same. }
  intros _. apply (preserves_ret R R_refl).
Qed.

Lemma processarCliente_keeps (c : partner) (e : option Odoo.entry) :
  preserves R (SyncDb.processarCliente geocode sameNome c e).
Proof.
  unfold SyncDb.processarCliente. rewrite processarBody_steps.
  apply (preserves_tryCatch R R_trans).
  - apply (preserves_bind R R_trans).
    + apply preserves_lift. apply R_geocode.
    + intros g. apply storeSteps_keeps.
  - intros err. destruct (Sync.isFatal err);
      [apply (preserves_throw R R_refl) | apply (preserves_ret R R_refl)].
Qed.

Lemma processEntry_keeps (it : Sync.matched) (p : partner) :
  preserves R (SyncDb.processEntry geocode sameNome it p).
Proof.
  unfold SyncDb.processEntry.
  apply (preserves_tryCatch R R_trans).
  - apply (preserves_bind R R_trans); [apply processarCliente_keeps|].
    intros ok. apply (preserves_bind R R_trans);
      [|intros _; apply (preserves_ret R R_refl)].
    destruct ok; [|apply (preserves_ret R R_refl)].
    apply (preserves_weaken sameClientes R _ R_same). apply setSyncCursor_same.
  - intros err. cbv zeta. destruct (Sync.isFatal err);
      [|apply (preserves_ret R R_refl)].
    apply (preserves_bind R R_trans);
      [|intros _; apply (preserves_ret R R_refl)].
    apply (preserves_weaken sameClientes R _ R_same). apply setPause_same.
Qed.

Lemma mainLoop_keeps (l : list Sync.matched) :
  preserves R (SyncDb.mainLoop geocode sameNome l).
Proof.
  induction l as [|it rest IH]; cbn [SyncDb.mainLoop].
  - apply (preserves_ret R R_refl).
  - destruct (Sync.m_partner it) as [p|].
    + apply (preserves_bind R R_trans); [apply processEntry_keeps|].
      intros ev.
      destruct ev; try (apply (preserves_bind R R_trans);
                        [exact IH | intros r; apply (preserves_ret R R_refl)]).
      apply (preserves_ret R R_refl).
    + apply (preserves_bind R R_trans);
        [exact IH | intros r; apply (preserves_ret R R_refl)].
Qed.

Lemma reconcile_keeps (requested : list Odoo.entry) (customers : list partner) :
  preserves R (SyncDb.reconcile geocode sameNome requested customers).
Proof.
  unfold SyncDb.reconcile. cbv zeta.
  apply (preserves_bind R R_trans).
  { apply (preserves_weaken sameClientes R _ R_same). apply getSyncCursor_same. }
  intros cursor. apply (preserves_bind R R_trans); [apply mainLoop_keeps|].
  intros r. apply (preserves_ret R R_refl).
Qed.

End Keeps.

End CustomerDb.

(** The three ways [processarCliente] can end. An error escapes only if
    it is the fatal one, and false is returned only after another error;
    in both cases the error was raised by [geocode] for this customer or
    is an answer of the store. When true is returned, [geocode] has
    answered, the upsert has run and the equipment block has returned. *)
Lemma processarCliente_outcome {U : Unicode}
    (geocode : jsstring -> jsstring -> M (option Geocode.geo))
    (sameNome : jsstring -> jsstring -> bool)
    (c : partner) (e : option Odoo.entry) (s : SyncDb.state) :
  match SyncDb.processarCliente geocode sameNome c e s with
  | (Throw err, _) =>
      Sync.isFatal err = true
      /\ (fst (SyncDb.geocodeStep geocode c (SyncDb.world_of s)) = Throw err
          \/ In (Some err) (SyncDb.script s))
  | (Return true, s1) =>
      exists g w1 s2,
        SyncDb.geocodeStep geocode c (SyncDb.world_of s) = (Return g, w1)
        /\ SyncDb.world_of s2
           = snd (Sync.upsertCliente (SyncDb.clienteRow c g) w1)
        /\ later s s2
        /\ SyncDb.persistEquipment sameNome c e s2 = (Return tt, s1)
  | (Return false, _) =>
      exists err,
        Sync.isFatal err = false
        /\ (fst (SyncDb.geocodeStep geocode c (SyncDb.world_of s)) = Throw err
            \/ In (Some err) (SyncDb.script s))
  end.
Proof.
  unfold SyncDb.processarCliente, SyncDb.tryCatch.
  rewrite processarBody_steps. unfold SyncDb.bind at 1. rewrite lift_eq.
  destruct (SyncDb.geocodeStep geocode c (SyncDb.world_of s)) as [[g|err] w1]
    eqn:EG; cbn [fst snd].
  - pose proof (storeSteps_raises sameNome (fun _ => False) c e g
                  {| SyncDb.world_of := w1; SyncDb.script := SyncDb.script s |})
      as Hr.
    destruct (storeSteps sameNome c e g
                {| SyncDb.world_of := w1; SyncDb.script := SyncDb.script s |})
      as [[b|err] s1] eqn:ES.
    + apply storeSteps_Return in ES. destruct ES as [-> [s2 [H1 [H2 H3]]]].
      exists g, w1, s2. split; [reflexivity|]. split; [exact H1|].
      split; [|exact H3].
      refine (later_trans _ _ _ _ H2). apply later_script. reflexivity.
    + destruct Hr as [[]|Hr]. cbn [SyncDb.script] in Hr.
      destruct (Sync.isFatal err) eqn:EF.
      * split; [exact EF | right; exact Hr].
      * exists err. split; [exact EF | right; exact Hr].
  - destruct (Sync.isFatal err) eqn:EF.
    + split; [exact EF | left; reflexivity].
    + exists err. split; [exact EF | left; reflexivity].
Qed.

Lemma persistEquipment_snd {U : Unicode}
    (sameNome : jsstring -> jsstring -> bool) (c : partner)
    (e : option Odoo.entry) (s s1 : SyncDb.state) (o : outcome unit) :
  SyncDb.persistEquipment sameNome c e s = (o, s1) ->
  sameClientes (SyncDb.world_of s) (SyncDb.world_of s1) /\ later s s1.
Proof.
  intros H. pose proof (persistEquipment_same sameNome c e s) as Hp.
  rewrite H in Hp. exact Hp.
Qed.

(** When [processarCliente] returns true the customer has a row. *)
Lemma processarCliente_true_row {U : Unicode}
    (geocode : jsstring -> jsstring -> M (option Geocode.geo))
    (sameNome : jsstring -> jsstring -> bool)
    (c : partner) (e : option Odoo.entry) (s s1 : SyncDb.state) :
  SyncDb.processarCliente geocode sameNome c e s = (Return true, s1) ->
  localId (p_id c) (SyncDb.world_of s1) <> None.
Proof.
  intros H. pose proof (processarCliente_outcome geocode sameNome c e s) as Ho.
  rewrite H in Ho. destruct Ho as [g [w1 [s2 [_ [Hw [_ Hp]]]]]].
  apply persistEquipment_snd in Hp. destruct Hp as [[Hc _] _].
  destruct (upsertCliente_spec (SyncDb.clienteRow c g) w1) as [w' [E [Hid _]]].
  rewrite E in Hw. cbn [snd] in Hw.
  unfold localId in *. rewrite Hc, Hw.
  cbn [SyncDb.clienteRow c_id_odoo] in Hid. rewrite Hid. discriminate.
Qed.


Section LinkedDb.

Context {U : Unicode}.
Variable net : network.
Variable statusError : response -> error.
Variable GOOGLE_KEY : option jsstring.
Variable sameNome : jsstring -> jsstring -> bool.

(** The geocoding step of the linked program returns and leaves the store
    alone. *)
Lemma geocodeStep_linked (c : partner) (w : world) :
  exists g w1,
    SyncDb.geocodeStep (Geocode.geocode net statusError GOOGLE_KEY) c w
    = (Return g, w1)
    /\ sameStore w w1.
Proof.
  unfold SyncDb.geocodeStep.
  exact (geocodeStep_returns net statusError GOOGLE_KEY
           (c_endereco_completo (SyncDb.clienteRow c None))
           (c_cep (SyncDb.clienteRow c None)) w).
Qed.

Lemma geocodeStep_idsKept (c : partner) (w : world) :
  idsKept w
    (snd (SyncDb.geocodeStep (Geocode.geocode net statusError GOOGLE_KEY) c w)).
Proof.
  destruct (geocodeStep_linked c w) as [g [w1 [E Hs]]]. rewrite E.
  apply sameStore_idsKept. exact Hs.
Qed.

(** On a store that rejects nothing, processing a customer returns
    true. *)
Lemma processarCliente_healthy (c : partner) (e : option Odoo.entry)
    (s : SyncDb.state) :
  SyncDb.script s = [] ->
  exists s1,
    SyncDb.processarCliente (Geocode.geocode net statusError GOOGLE_KEY)
      sameNome c e s = (Return true, s1)
    /\ SyncDb.script s1 = [].
Proof.
  intros Hs.
  pose proof (processarCliente_outcome
                (Geocode.geocode net statusError GOOGLE_KEY) sameNome c e s) as Ho.
  pose proof (processarCliente_keeps
                (Geocode.geocode net statusError GOOGLE_KEY) sameNome
                anyWorld anyWorld_refl anyWorld_trans
                (fun _ _ _ => I) (fun _ _ => I) (fun _ _ => I) c e s) as [_ Hl].
  destruct (geocodeStep_linked c (SyncDb.world_of s)) as [g [w1 [EG _]]].
  rewrite EG, Hs in Ho.
  destruct (SyncDb.processarCliente _ sameNome c e s) as [[[|]|err] s1].
  - exists s1. split; [reflexivity|]. exact (later_healthy _ _ Hl Hs).
  - destruct Ho as [err [_ [Ho|[]]]]. discriminate Ho.
  - destruct Ho as [_ [Ho|[]]]. discriminate Ho.
Qed.


End LinkedDb.


(** The store of a freshly started process, which rejects nothing. *)
Definition freshStore : SyncDb.state :=
  {| SyncDb.world_of := freshWorld; SyncDb.script := [] |}.

(** The error of a connection that the store has closed. *)
Definition connectionLost : error :=
  {| err_name := Some (lit "Error");
     err_code := Some (lit "PROTOCOL_CONNECTION_LOST");
     err_message := Some (lit "Connection lost: The server closed the connection.") |}.

(** A store that rejects the first query it is sent. *)
Definition failingStore : SyncDb.state :=
  {| SyncDb.world_of := freshWorld; SyncDb.script := [Some connectionLost] |}.


(** A store that accepts five queries, rejects the sixth and accepts the
    others: for a customer with an address and equipment text the sixth
    query is the first INSERT into [equipamentos]. *)
Definition sixthRejected : SyncDb.state :=
  {| SyncDb.world_of := freshWorld;
     SyncDb.script := [None; None; None; None; None; Some connectionLost] |}.

(** An INSERT that the store rejects for a reason of its own is passed
    over like a repeated name: the processing succeeds and the item is
    missing. *)
Lemma rejected_insert_is_left_out :
  fst (SyncDb.processarCliente (U := asciiUnicode)
         (Geocode.geocode (U := asciiUnicode) refusingNet axiosError None)
         str_eqb acme
         (Some (entryNamed "ACME" "[COD123] Gerador x2; Compressor (1)"))
         sixthRejected) = Return true
  /\ equipamentos
       (SyncDb.world_of
          (snd (SyncDb.processarCliente (U := asciiUnicode)
                  (Geocode.geocode (U := asciiUnicode) refusingNet axiosError
                     None)
                  str_eqb acme
                  (Some (entryNamed "ACME" "[COD123] Gerador x2; Compressor (1)"))
                  sixthRejected)))
     = [ {| e_cliente_id := 1; e_nome := lit "Compressor";
            e_quantidade := Some 1%Z |} ].
Proof. vm_compute. split; reflexivity. Qed.

(** ** sync.js: how a customer can fail, over the store that can fail *)





(** ** sync.js: the driver over the store that can fail *)

(** What [m] returns satisfies [Q]. *)
Definition returnsOnly {A} (Q : A -> Prop) (m : SyncDb.D A) : Prop :=
  forall s, match m s with
            | (Return a, _) => Q a
            | (Throw _, _) => True
            end.

Lemma returnsOnly_bind {A B} (Q : B -> Prop) (m : SyncDb.D A)
    (f : A -> SyncDb.D B) :
  (forall a, returnsOnly Q (f a)) -> returnsOnly Q (SyncDb.bind m f).
Proof.
  intros Hf s. unfold SyncDb.bind. destruct (m s) as [[a|e] s1]; [|exact I].
  apply Hf.
Qed.

Lemma returnsOnly_ret {A} (Q : A -> Prop) (a : A) :
  Q a -> returnsOnly Q (SyncDb.ret a).
Proof. intros H s. exact H. Qed.

Definition notMainError (r : Sync.pass) : Prop :=
  forall e, r <> Sync.MainError e.

Section DriverDb.

Context {U : Unicode}.
Variable geocode : jsstring -> jsstring -> M (option Geocode.geo).
Variable sheet : M (list Odoo.entry * list partner).
Variable sameNome : jsstring -> jsstring -> bool.

Lemma processarCliente_any (c : partner) (e : option Odoo.entry) :
  preserves anyWorld (SyncDb.processarCliente geocode sameNome c e).
Proof.
  exact (processarCliente_keeps geocode sameNome anyWorld anyWorld_refl
           anyWorld_trans (fun _ _ _ => I) (fun _ _ => I) (fun _ _ => I) c e).
Qed.

Lemma mainLoop_any (l : list Sync.matched) :
  preserves anyWorld (SyncDb.mainLoop geocode sameNome l).
Proof.
  exact (mainLoop_keeps geocode sameNome anyWorld anyWorld_refl
           anyWorld_trans (fun _ _ _ => I) (fun _ _ => I) (fun _ _ => I) l).
Qed.

Lemma reconcile_any (requested : list Odoo.entry) (customers : list partner) :
  preserves anyWorld (SyncDb.reconcile geocode sameNome requested customers).
Proof.
  exact (reconcile_keeps geocode sameNome anyWorld anyWorld_refl
           anyWorld_trans (fun _ _ _ => I) (fun _ _ => I) (fun _ _ => I)
           requested customers).
Qed.

(** The only error of its own that an entry can raise is that of a pause
    reason too long for its column. *)
Lemma processEntry_raises (it : Sync.matched) (p : partner) :
  raises (fun e => e = SyncDb.dataTooLong)
    (SyncDb.processEntry geocode sameNome it p).
Proof.
  unfold SyncDb.processEntry. apply raises_tryCatch.
  - apply (preserves_bind anyWorld anyWorld_trans);
      [apply processarCliente_any|].
    intros ok. apply (preserves_bind anyWorld anyWorld_trans);
      [|intros _; apply (preserves_ret anyWorld anyWorld_refl)].
    destruct ok; [|apply (preserves_ret anyWorld anyWorld_refl)].
    apply (preserves_any sameClientes). apply setSyncCursor_same.
  - intros err. cbv zeta. destruct (Sync.isFatal err); [|apply raises_ret].
    apply raises_bind.
    + apply setPause_raises.
    + apply (preserves_any sameClientes). apply setPause_same.
    + intros _. apply raises_ret.
Qed.

Lemma processEntry_any (it : Sync.matched) (p : partner) :
  preserves anyWorld (SyncDb.processEntry geocode sameNome it p).
Proof.
  exact (processEntry_keeps geocode sameNome anyWorld anyWorld_refl
           anyWorld_trans (fun _ _ _ => I) (fun _ _ => I) (fun _ _ => I) it p).
Qed.

Lemma mainLoop_raises (l : list Sync.matched) :
  raises (fun e => e = SyncDb.dataTooLong)
    (SyncDb.mainLoop geocode sameNome l).
Proof.
  induction l as [|it rest IH]; cbn [SyncDb.mainLoop].
  - apply raises_ret.
  - destruct (Sync.m_partner it) as [p|].
    + apply raises_bind; [apply processEntry_raises | apply processEntry_any|].
      intros ev.
      destruct ev; try (apply raises_bind;
                        [exact IH | apply mainLoop_any
                        | intros r; apply raises_ret]).
      apply raises_ret.
    + apply raises_bind; [exact IH | apply mainLoop_any|].
      intros r. apply raises_ret.
Qed.

Lemma reconcile_raises (requested : list Odoo.entry) (customers : list partner) :
  raises (fun e => e = SyncDb.dataTooLong)
    (SyncDb.reconcile geocode sameNome requested customers).
Proof.
  unfold SyncDb.reconcile. cbv zeta. apply raises_bind.
  - apply getSyncCursor_raises.
  - apply (preserves_any sameClientes). apply getSyncCursor_same.
  - intros cursor. apply raises_bind;
      [apply mainLoop_raises | apply mainLoop_any|].
    intros r. apply raises_ret.
Qed.

Lemma reconcile_notMainError (requested : list Odoo.entry)
    (customers : list partner) :
  returnsOnly notMainError
    (SyncDb.reconcile geocode sameNome requested customers).
Proof.
  unfold SyncDb.reconcile. cbv zeta.
  apply returnsOnly_bind. intros cursor.
  apply returnsOnly_bind. intros r. apply returnsOnly_ret.
  intros e. destruct (fst r); discriminate.
Qed.

Lemma checkPause_any : preserves anyWorld SyncDb.checkPause.
Proof.
  intros s. unfold SyncDb.checkPause.
  destruct (negb (clearedPauseOnStartup (SyncDb.world_of s))).
  - revert s.
    change (preserves anyWorld
              (SyncDb.bind SyncDb.clearPause (fun _ =>
               SyncDb.bind
                 (SyncDb.lift (fun w => (Return tt, set_cleared true w)))
                 (fun _ => SyncDb.ret true)))).
    apply (preserves_bind anyWorld anyWorld_trans).
    { apply (preserves_any sameClientes). apply clearPause_same. }
    intros _. apply (preserves_bind anyWorld anyWorld_trans).
    { apply preserves_lift. intros w. exact I. }
    intros _. apply (preserves_ret anyWorld anyWorld_refl).
  - revert s.
    change (preserves anyWorld
              (SyncDb.bind SyncDb.getPauseState (fun pause =>
               match paused_since pause with
               | Some since =>
                   SyncDb.bind (SyncDb.hoursSince since) (fun diffh =>
                   if (diffh <? 7)%Z then SyncDb.ret false
                   else SyncDb.bind SyncDb.clearPause
                          (fun _ => SyncDb.ret true))
               | None => SyncDb.ret true
               end))).
    apply (preserves_bind anyWorld anyWorld_trans).
    { apply (preserves_any sameClientes). apply getPauseState_same. }
    intros pause. destruct (paused_since pause) as [since|];
      [|apply (preserves_ret anyWorld anyWorld_refl)].
    apply (preserves_bind anyWorld anyWorld_trans).
    { apply (preserves_any sameClientes). apply hoursSince_same. }
    intros diffh. destruct (diffh <? 7)%Z;
      [apply (preserves_ret anyWorld anyWorld_refl)|].
    apply (preserves_bind anyWorld anyWorld_trans).
    { apply (preserves_any sameClientes). apply clearPause_same. }
    intros _. apply (preserves_ret anyWorld anyWorld_refl).
Qed.

Lemma checkPause_raises (P : error -> Prop) : raises P SyncDb.checkPause.
Proof.
  intros s. unfold SyncDb.checkPause.
  destruct (negb (clearedPauseOnStartup (SyncDb.world_of s))).
  - revert s.
    change (raises P
              (SyncDb.bind SyncDb.clearPause (fun _ =>
               SyncDb.bind
                 (SyncDb.lift (fun w => (Return tt, set_cleared true w)))
                 (fun _ => SyncDb.ret true)))).
    apply raises_bind.
    { apply clearPause_raises. }
    { apply (preserves_any sameClientes). apply clearPause_same. }
    intros _. apply raises_bind.
    { apply raises_lift. intros w e w' H. discriminate H. }
    { apply preserves_lift. intros w. exact I. }
    intros _. apply raises_ret.
  - revert s.
    change (raises P
              (SyncDb.bind SyncDb.getPauseState (fun pause =>
               match paused_since pause with
               | Some since =>
                   SyncDb.bind (SyncDb.hoursSince since) (fun diffh =>
                   if (diffh <? 7)%Z then SyncDb.ret false
                   else SyncDb.bind SyncDb.clearPause
                          (fun _ => SyncDb.ret true))
               | None => SyncDb.ret true
               end))).
    apply raises_bind.
    { apply getPauseState_raises. }
    { apply (preserves_any sameClientes). apply getPauseState_same. }
    intros pause. destruct (paused_since pause) as [since|];
      [|apply raises_ret].
    apply raises_bind.
    { apply hoursSince_raises. }
    { apply (preserves_any sameClientes). apply hoursSince_same. }
    intros diffh. destruct (diffh <? 7)%Z; [apply raises_ret|].
    apply raises_bind.
    { apply clearPause_raises. }
    { apply (preserves_any sameClientes). apply clearPause_same. }
    intros _. apply raises_ret.
Qed.

(** An error of the pass is one that [getCustomersFromSheet] raised, or
    that of a pause reason too long for its column. *)
Definition passError (e : error) : Prop :=
  (exists w0 w1, sheet w0 = (Throw e, w1)) \/ e = SyncDb.dataTooLong.

Lemma proceed_raises : raises passError (SyncDb.proceed geocode sheet sameNome).
Proof.
  unfold SyncDb.proceed. apply raises_bind.
  - apply raises_lift. intros w e w' H. left. exists w, w'. exact H.
  - apply preserves_lift. intros w. exact I.
  - intros sh. apply (raises_weaken (fun e => e = SyncDb.dataTooLong)).
    + intros e He. right. exact He.
    + apply reconcile_raises.
Qed.

Lemma proceed_any : preserves anyWorld (SyncDb.proceed geocode sheet sameNome).
Proof.
  unfold SyncDb.proceed. apply (preserves_bind anyWorld anyWorld_trans).
  - apply preserves_lift. intros w. exact I.
  - intros sh. apply reconcile_any.
Qed.

Lemma proceed_notMainError :
  returnsOnly notMainError (SyncDb.proceed geocode sheet sameNome).
Proof.
  unfold SyncDb.proceed. apply returnsOnly_bind. intros sh.
  apply reconcile_notMainError.
Qed.

End DriverDb.

(** X8. [syncClientes] never raises, whatever [geocode],
    [getCustomersFromSheet] and the store do: the call ends paused,
    completed, interrupted, or with the main error logged. The main error
    is an error that [getCustomersFromSheet] raised, an error with which
    the store rejected a query, or the error of a pause reason too long
    for its column; an error of [geocode] never ends up there. *)
Theorem X8_syncClientes_never_raises (U : Unicode)
    (geocode : jsstring -> jsstring -> M (option Geocode.geo))
    (sheet : M (list Odoo.entry * list partner))
    (sameNome : jsstring -> jsstring -> bool) (s : SyncDb.state) :
  exists r s',
    SyncDb.syncClientes geocode sheet sameNome s = (Return r, s')
    /\ later s s'
    /\ forall e, r = Sync.MainError e ->
         (exists w0 w1, sheet w0 = (Throw e, w1))
         \/ e = SyncDb.dataTooLong
         \/ In (Some e) (SyncDb.script s).
Proof.
  unfold SyncDb.syncClientes, SyncDb.tryCatch.
  set (body := SyncDb.bind SyncDb.checkPause
                 (fun go : bool =>
                    if go then SyncDb.proceed geocode sheet sameNome
                    else SyncDb.ret Sync.StillPaused)).
  assert (Hr : raises (passError sheet) body).
  { apply raises_bind; [apply checkPause_raises | apply checkPause_any|].
    intros go. destruct go; [apply proceed_raises | apply raises_ret]. }
  assert (Hk : preserves anyWorld body).
  { apply (preserves_bind anyWorld anyWorld_trans); [apply checkPause_any|].
    intros go. destruct go;
      [apply proceed_any | apply (preserves_ret anyWorld anyWorld_refl)]. }
  assert (Hn : returnsOnly notMainError body).
  { apply returnsOnly_bind. intros go. destruct go;
      [apply proceed_notMainError | apply returnsOnly_ret; discriminate]. }
  specialize (Hr s). specialize (Hn s). destruct (Hk s) as [_ Hl].
  destruct (body s) as [[r|e] s'].
  - exists r, s'. split; [reflexivity|]. split; [exact Hl|].
    intros e He. destruct (Hn e He).
  - exists (Sync.MainError e), s'. split; [reflexivity|]. split; [exact Hl|].
    intros e' He. injection He as <-.
    destruct Hr as [[Hs|Hd]|Hin]; [left; exact Hs | right; left; exact Hd|].
    right. right. exact Hin.
Qed.

(** X8, witness: when the store rejects the first query of the call, the
    call ends with that error as its main error. *)
Lemma X8_syncClientes_never_raises_witness :
  exists s',
    SyncDb.syncClientes (U := asciiUnicode)
      (Geocode.geocode (U := asciiUnicode) refusingNet axiosError None)
      (World.ret (threeEntries, threePartners)) str_eqb failingStore
    = (Return (Sync.MainError connectionLost), s').
Proof.
  destruct (X8_syncClientes_never_raises asciiUnicode
              (Geocode.geocode (U := asciiUnicode) refusingNet axiosError None)
              (World.ret (threeEntries, threePartners)) str_eqb failingStore)
    as [r [s' [E _]]].
  exists s'. rewrite E. f_equal.
  assert (F : fst (SyncDb.syncClientes (U := asciiUnicode)
                     (Geocode.geocode (U := asciiUnicode) refusingNet axiosError
                        None)
                     (World.ret (threeEntries, threePartners)) str_eqb
                     failingStore)
              = Return (Sync.MainError connectionLost))
    by (vm_compute; reflexivity).
  rewrite E in F. exact F.
Defined.

(** ** The linked program: what a pass leaves in the store that can fail *)

(** An entry reported as processed with success has a row. *)
Lemma processEntry_true {U : Unicode}
    (geocode : jsstring -> jsstring -> M (option Geocode.geo))
    (sameNome : jsstring -> jsstring -> bool)
    (it : Sync.matched) (p : partner) (s s1 : SyncDb.state) (i : nat) :
  SyncDb.processEntry geocode sameNome it p s
  = (Return (Sync.Processed i true), s1) ->
  i = Sync.idx it /\ localId (p_id p) (SyncDb.world_of s1) <> None.
Proof.
  unfold SyncDb.processEntry, SyncDb.tryCatch. unfold SyncDb.bind at 1.
  destruct (SyncDb.processarCliente geocode sameNome p
              (Some (Sync.m_entry it)) s) as [[ok|err] sa] eqn:EP.
  - destruct ok.
    + unfold SyncDb.bind at 1.
      pose proof (setSyncCursor_same (Some (p_id p))
                    (Some (Odoo.name (Sync.m_entry it))) sa) as [[Hc _] _].
      destruct (SyncDb.setSyncCursor (Some (p_id p))
                  (Some (Odoo.name (Sync.m_entry it))) sa)
        as [[[]|err2] sb].
      * cbn [snd] in Hc. intros H. injection H as <- <-.
        split; [reflexivity|].
        pose proof (processarCliente_true_row geocode sameNome p _ s sa EP) as Hr.
        unfold localId in *. rewrite Hc. exact Hr.
      * cbv zeta. destruct (Sync.isFatal err2); [|discriminate].
        unfold SyncDb.bind. destruct (SyncDb.setPause _ sb) as [[[]|e3] sc];
          discriminate.
    + cbn. intros H. discriminate H.
  - cbv zeta. destruct (Sync.isFatal err); [|discriminate].
    unfold SyncDb.bind. destruct (SyncDb.setPause _ sa) as [[[]|e3] sc];
      discriminate.
Qed.

Lemma skipn_In {A} (n : nat) (l : list A) (x : A) :
  In x (skipn n l) -> In x l.
Proof.
  intros H. rewrite <- (firstn_skipn n l). apply in_or_app. right. exact H.
Qed.

Section PassDb.

Context {U : Unicode}.
Variable net : network.
Variable statusError : response -> error.
Variable GOOGLE_KEY : option jsstring.
Variable sameNome : jsstring -> jsstring -> bool.

Lemma mainLoop_idsKept (l : list Sync.matched) :
  preserves idsKept
    (SyncDb.mainLoop (Geocode.geocode net statusError GOOGLE_KEY) sameNome l).
Proof.
  exact (mainLoop_keeps (Geocode.geocode net statusError GOOGLE_KEY) sameNome
           idsKept idsKept_refl idsKept_trans sameClientes_idsKept
           upsertCliente_idsKept
           (geocodeStep_idsKept net statusError GOOGLE_KEY) l).
Qed.

Lemma reconcile_idsKept (requested : list Odoo.entry) (customers : list partner) :
  preserves idsKept
    (SyncDb.reconcile (Geocode.geocode net statusError GOOGLE_KEY) sameNome
       requested customers).
Proof.
  exact (reconcile_keeps (Geocode.geocode net statusError GOOGLE_KEY) sameNome
           idsKept idsKept_refl idsKept_trans sameClientes_idsKept
           upsertCliente_idsKept
           (geocodeStep_idsKept net statusError GOOGLE_KEY) requested customers).
Qed.

(** Every entry that the log reports as processed with success is an
    entry of the list that has a partner, and this partner has a row when
    the loop ends. *)
Lemma mainLoop_stored (l : list Sync.matched) :
  forall (s s' : SyncDb.state) (b : bool) (log : list Sync.event),
  SyncDb.mainLoop (Geocode.geocode net statusError GOOGLE_KEY) sameNome l s
  = (Return (b, log), s') ->
  forall i, In (Sync.Processed i true) log ->
  exists it p,
    In it l /\ Sync.idx it = i /\ Sync.m_partner it = Some p
    /\ localId (p_id p) (SyncDb.world_of s') <> None.
Proof.
  induction l as [|it rest IH]; intros s s' b log H i Hin.
  - injection H as _ <- _. destruct Hin.
  - cbn [SyncDb.mainLoop] in H.
    destruct (Sync.m_partner it) as [p|] eqn:Ep.
    + apply dbind_Return in H. destruct H as [ev [s1 [Ee H]]].
      assert (Hrest :
        forall r s2,
          SyncDb.mainLoop (Geocode.geocode net statusError GOOGLE_KEY)
            sameNome rest s1 = (Return r, s2) ->
          SyncDb.ret (fst r, ev :: snd r) s2 = (Return (b, log), s') ->
          exists it0 p0,
            In it0 (it :: rest) /\ Sync.idx it0 = i
            /\ Sync.m_partner it0 = Some p0
            /\ localId (p_id p0) (SyncDb.world_of s') <> None).
      { intros [b' log'] s2 Er Hret. injection Hret as _ <- <-.
        destruct Hin as [Hev|Hin].
        - subst ev. apply processEntry_true in Ee. destruct Ee as [Hi Hrow].
          exists it, p. split; [left; reflexivity|]. split; [symmetry; exact Hi|].
          split; [exact Ep|].
          pose proof (mainLoop_idsKept rest s1) as [Hk _].
          rewrite Er in Hk. cbn [snd] in Hk.
          destruct (localId (p_id p) (SyncDb.world_of s1)) as [k|] eqn:Ek;
            [|contradiction Hrow; reflexivity].
          rewrite (Hk _ _ Ek). discriminate.
        - destruct (IH s1 s2 b' log' Er i Hin) as [it0 [p0 [H1 [H2 [H3 H4]]]]].
          exists it0, p0. split; [right; exact H1|]. auto. }
      destruct ev as [j|j ok|j e0|j reason];
        try (apply dbind_Return in H; destruct H as [r [s2 [Er H]]];
             exact (Hrest r s2 Er H)).
      injection H as _ <- _. destruct Hin as [Hin|[]]. discriminate Hin.
    + apply dbind_Return in H. destruct H as [[b' log'] [s2 [Er H]]].
      injection H as _ <- <-.
      destruct Hin as [Hin|Hin]; [discriminate Hin|].
      destruct (IH s s2 b' log' Er i Hin) as [it0 [p0 [H1 [H2 [H3 H4]]]]].
      exists it0, p0. split; [right; exact H1|]. auto.
Qed.

Lemma ensureSyncStateTable_healthy (s : SyncDb.state) :
  SyncDb.script s = [] ->
  exists s', SyncDb.ensureSyncStateTable s = (Return tt, s')
             /\ SyncDb.world_of s' = SyncDb.world_of s
             /\ SyncDb.script s' = [].
Proof.
  intros Hs. unfold SyncDb.ensureSyncStateTable, SyncDb.bind, SyncDb.tryCatch.
  rewrite (query_healthy _ s Hs), lift_eq. cbn [fst snd World.ret].
  rewrite query_healthy by exact Hs. rewrite lift_eq. cbn [fst snd World.ret].
  rewrite query_healthy by exact Hs. rewrite lift_eq. cbn [fst snd World.ret].
  eexists. split; [reflexivity|]. split; [reflexivity | exact Hs].
Qed.

Lemma getSyncCursor_healthy (s : SyncDb.state) :
  SyncDb.script s = [] ->
  exists s', SyncDb.getSyncCursor s
             = (Return (rowOfState (sync_state (SyncDb.world_of s))), s')
             /\ SyncDb.world_of s' = SyncDb.world_of s
             /\ SyncDb.script s' = [].
Proof.
  intros Hs. unfold SyncDb.getSyncCursor. unfold SyncDb.bind at 1.
  destruct (ensureSyncStateTable_healthy s Hs) as [sa [E [Hw Ha]]].
  rewrite E. rewrite (query_healthy _ sa Ha), lift_eq.
  unfold Sync.getSyncCursor. cbn [fst snd]. rewrite Hw.
  eexists. split; [reflexivity|]. split; [reflexivity | exact Ha].
Qed.

Lemma setSyncCursor_healthy (id : option Z) (nm : option jsstring)
    (s : SyncDb.state) :
  SyncDb.script s = [] ->
  SyncDb.fitsInt id = true -> SyncDb.fitsVarchar nm = true ->
  exists s', SyncDb.setSyncCursor id nm s = (Return tt, s')
             /\ SyncDb.script s' = [].
Proof.
  intros Hs Hi Hv. unfold SyncDb.setSyncCursor. unfold SyncDb.bind at 1.
  destruct (ensureSyncStateTable_healthy s Hs) as [sa [E [Hw Ha]]].
  rewrite E. rewrite (query_healthy _ sa Ha), lift_eq.
  unfold SyncDb.typed. rewrite Hi, Hv. cbn [negb].
  unfold Sync.setSyncCursor. cbn [fst snd].
  eexists. split; [reflexivity | exact Ha].
Qed.

(** The values written to the cursor for the entries of [l] fit their
    columns. *)
Definition cursorFits (l : list Sync.matched) : Prop :=
  forall it p, In it l -> Sync.m_partner it = Some p ->
    SyncDb.fitsInt (Some (p_id p)) = true
    /\ SyncDb.fitsVarchar (Some (Odoo.name (Sync.m_entry it))) = true.

(** On a store that rejects nothing the loop runs to its end and every
    entry that has a partner is stored. *)
Lemma mainLoop_healthy (l : list Sync.matched) :
  forall s : SyncDb.state,
  SyncDb.script s = [] -> cursorFits l ->
  exists s',
    SyncDb.mainLoop (Geocode.geocode net statusError GOOGLE_KEY) sameNome l s
    = (Return (false, map eventOf l), s')
    /\ SyncDb.script s' = []
    /\ forall it p, In it l -> Sync.m_partner it = Some p ->
         localId (p_id p) (SyncDb.world_of s') <> None.
Proof.
  induction l as [|it rest IH]; intros s Hs Hfit.
  - exists s. split; [reflexivity|]. split; [exact Hs|]. intros it p [].
  - assert (Hfit' : cursorFits rest).
    { intros it0 p0 Hin. apply Hfit. right. exact Hin. }
    cbn [SyncDb.mainLoop map]. unfold eventOf at 1.
    destruct (Sync.m_partner it) as [p|] eqn:Ep.
    + destruct (Hfit it p (or_introl eq_refl) Ep) as [Hi Hv].
      destruct (processarCliente_healthy net statusError GOOGLE_KEY sameNome
                  p (Some (Sync.m_entry it)) s Hs) as [s1 [E1 Hs1]].
      destruct (setSyncCursor_healthy (Some (p_id p))
                  (Some (Odoo.name (Sync.m_entry it))) s1 Hs1 Hi Hv)
        as [s2 [E2 Hs2]].
      destruct (IH s2 Hs2 Hfit') as [s' [E3 [Hs' Hrows]]].
      assert (Ee : SyncDb.processEntry
                     (Geocode.geocode net statusError GOOGLE_KEY) sameNome it p s
                   = (Return (Sync.Processed (Sync.idx it) true), s2)).
      { unfold SyncDb.processEntry, SyncDb.tryCatch. unfold SyncDb.bind at 1.
        rewrite E1. unfold SyncDb.bind. rewrite E2. reflexivity. }
      unfold SyncDb.bind at 1. rewrite Ee. unfold SyncDb.bind. rewrite E3.
      exists s'. split; [reflexivity|]. split; [exact Hs'|].
      intros it0 p0 [<-|Hin] Hp0; [|exact (Hrows it0 p0 Hin Hp0)].
      rewrite Ep in Hp0. injection Hp0 as <-.
      destruct (processEntry_true _ sameNome it p s s2 _ Ee) as [_ Hrow].
      pose proof (mainLoop_idsKept rest s2) as [Hk _].
      rewrite E3 in Hk. cbn [snd] in Hk.
      destruct (localId (p_id p) (SyncDb.world_of s2)) as [k|] eqn:Ek;
        [|contradiction Hrow; reflexivity].
      rewrite (Hk _ _ Ek). discriminate.
    + destruct (IH s Hs Hfit') as [s' [E3 [Hs' Hrows]]].
      unfold SyncDb.bind. rewrite E3.
      exists s'. split; [reflexivity|]. split; [exact Hs'|].
      intros it0 p0 [<-|Hin] Hp0; [|exact (Hrows it0 p0 Hin Hp0)].
      rewrite Ep in Hp0. discriminate.
Qed.

End PassDb.

(** X24. What a pass of the program linked with geocode.js leaves behind,
    over a store that can reject any query. Whatever the store does, a
    customer that had a row before still has it under the same local id;
    every entry that the log of a completed or interrupted pass reports as
    processed with success is an entry of the roster with a partner, and
    that partner has a row in [clientes] afterwards; and an error that
    ends the pass is one with which the store rejected a query, or that of
    a pause reason too long for its column. On a store that rejects
    nothing, and when the CRM ids and entry names fit the columns of the
    cursor, the pass completes, reports every entry from the resume point
    on, and every such entry that has a partner has a row. *)
Theorem X24_pass_stores_matched_customers (U : Unicode) (net : network)
    (statusError : response -> error) (GOOGLE_KEY : option jsstring)
    (sameNome : jsstring -> jsstring -> bool)
    (requested : list Odoo.entry) (customers : list partner)
    (s : SyncDb.state) :
  let itens := Sync.buildItens 0 requested customers in
  let run :=
    SyncDb.reconcile (Geocode.geocode net statusError GOOGLE_KEY) sameNome
      requested customers s in
  let w' := SyncDb.world_of (snd run) in
  (forall id k, localId id (SyncDb.world_of s) = Some k -> localId id w' = Some k)
  /\ (forall log,
        fst run = Return (Sync.Completed log)
        \/ fst run = Return (Sync.Interrupted log) ->
        forall i, In (Sync.Processed i true) log ->
        exists it p,
          In it itens /\ Sync.idx it = i /\ Sync.m_partner it = Some p
          /\ localId (p_id p) w' <> None)
  /\ (forall e, fst run = Throw e ->
        e = SyncDb.dataTooLong \/ In (Some e) (SyncDb.script s))
  /\ (SyncDb.script s = [] -> cursorFits itens ->
      let todo :=
        skipn (Sync.startIndex (rowOfState (sync_state (SyncDb.world_of s))) itens)
          itens in
      fst run = Return (Sync.Completed (map eventOf todo))
      /\ forall it p, In it todo -> Sync.m_partner it = Some p ->
           localId (p_id p) w' <> None).
Proof.
  intros itens run w'.
  split; [|split; [|split]].
  - exact (proj1 (reconcile_idsKept net statusError GOOGLE_KEY sameNome
                    requested customers s)).
  - intros log Hlog i Hin.
    assert (Hloop : exists cursor s1 b,
              SyncDb.mainLoop (Geocode.geocode net statusError GOOGLE_KEY)
                sameNome (skipn (Sync.startIndex cursor itens) itens) s1
              = (Return (b, log), snd run)).
    { destruct run as [[r|e0] s2] eqn:Er;
        [|destruct Hlog as [Hlog|Hlog]; discriminate Hlog].
      unfold run, SyncDb.reconcile in Er. cbv zeta in Er.
      apply dbind_Return in Er. destruct Er as [cursor [s1 [_ Er]]].
      apply dbind_Return in Er. destruct Er as [[b log'] [s3 [El Er]]].
      injection Er as <- <-. cbn [fst snd] in Hlog |- *.
      exists cursor, s1, b.
      destruct b; destruct Hlog as [Hlog|Hlog]; try discriminate Hlog;
        injection Hlog as <-; exact El. }
    destruct Hloop as [cursor [s1 [b Hloop]]].
    destruct (mainLoop_stored net statusError GOOGLE_KEY sameNome _ _ _ _ _
                Hloop i Hin) as [it [p [H1 [H2 [H3 H4]]]]].
    exists it, p. split; [|auto].
    apply (skipn_In (Sync.startIndex cursor itens)). exact H1.
  - intros e He.
    pose proof (reconcile_raises (Geocode.geocode net statusError GOOGLE_KEY)
                  sameNome requested customers s) as Hr.
    fold run in Hr. destruct run as [[r|e0] s2]; [discriminate He|].
    cbn [fst] in He. injection He as ->. exact Hr.
  - intros Hs Hfit todo.
    destruct (getSyncCursor_healthy s Hs) as [s1 [Ec [Hw Hs1]]].
    assert (Hfit' : cursorFits todo).
    { intros it p Hin. apply Hfit. exact (skipn_In _ _ _ Hin). }
    destruct (mainLoop_healthy net statusError GOOGLE_KEY sameNome todo s1
                Hs1 Hfit') as [s2 [El [_ Hrows]]].
    assert (Er : run = (Return (Sync.Completed (map eventOf todo)), s2)).
    { unfold run, SyncDb.reconcile. cbv zeta. fold itens.
      unfold SyncDb.bind at 1. rewrite Ec. fold todo.
      unfold SyncDb.bind. rewrite El. reflexivity. }
    unfold w'. rewrite Er. split; [reflexivity | exact Hrows].
Qed.

(** X24, witness: on the store of a freshly started process, the pass
    over three matched entries completes and stores the three. *)
Lemma X24_pass_stores_matched_customers_witness :
  fst (SyncDb.reconcile (U := asciiUnicode)
         (Geocode.geocode (U := asciiUnicode) refusingNet axiosError None)
         str_eqb threeEntries threePartners freshStore)
  = Return (Sync.Completed [Sync.Processed 0 true; Sync.Processed 1 true;
                            Sync.Processed 2 true])
  /\ forall it p,
       In it (Sync.buildItens (U := asciiUnicode) 0 threeEntries threePartners) ->
       Sync.m_partner it = Some p ->
       localId (p_id p)
         (SyncDb.world_of
            (snd (SyncDb.reconcile (U := asciiUnicode)
                    (Geocode.geocode (U := asciiUnicode) refusingNet axiosError
                       None)
                    str_eqb threeEntries threePartners freshStore))) <> None.
Proof.
  destruct (X24_pass_stores_matched_customers asciiUnicode refusingNet
              axiosError None str_eqb threeEntries threePartners freshStore)
    as [_ [_ [_ H]]].
  destruct (H eq_refl) as [E Hrows].
  - intros it p Hin Hp. vm_compute in Hin.
    destruct Hin as [<-|[<-|[<-|[]]]]; vm_compute in Hp; injection Hp as <-;
      split; reflexivity.
  - split; [rewrite E; vm_compute; reflexivity | exact Hrows].
Defined.
